(** * Hybrid markdown editor: line model, offset mapping and edit reducer

    A shallow embedding of the editor component: the line classifier
    ([getMarkdownType]), the list metadata extractor ([getListMeta]), the
    display/source offset mapper ([mapDisplayOffsetToSourceIndex],
    [getDisplayContentLength]) and the reducers behind [handleKeyDown],
    [handlePaste], [deleteCurrentSelection] and the extension API.

    JavaScript strings are sequences of UTF-16 code units; a code unit is
    an [N] and a string a list of them.  Regular expressions of the source
    are written as lists of quantified character classes and run by a
    greedy, backtracking matcher. *)

From Stdlib Require Import String Ascii.
From Stdlib Require Import NArith ZArith Lia Bool.
From stdpp Require Import base option list.

Local Open Scope N_scope.

(** ** JavaScript strings *)

Module Js.

Abbreviation char := N (only parsing).
Abbreviation str := (list N) (only parsing).

(** A string literal of the source (ASCII only). *)
Definition lit (s : string) : str :=
  List.map N_of_ascii (list_ascii_of_string s).
Arguments lit s%_string.

(** White space as [\s] and [String.prototype.trim] see it: the WhiteSpace
    and LineTerminator code points. *)
Definition isSpace (c : char) : bool :=
  ((9 <=? c) && (c <=? 13)) || (c =? 32) || (c =? 160) || (c =? 5760)
  || ((8192 <=? c) && (c <=? 8202)) || (c =? 8232) || (c =? 8233)
  || (c =? 8239) || (c =? 8287) || (c =? 12288) || (c =? 65279).

(** [\d] *)
Definition isDigit (c : char) : bool := (48 <=? c) && (c <=? 57).

Definition isChar (a : ascii) (c : char) : bool := c =? N_of_ascii a.
Arguments isChar a%_char c.

Fixpoint takeWhile (p : char -> bool) (s : str) : str :=
  match s with
  | c :: t => if p c then c :: takeWhile p t else []
  | [] => []
  end.

Fixpoint dropWhile (p : char -> bool) (s : str) : str :=
  match s with
  | c :: t => if p c then dropWhile p t else s
  | [] => []
  end.

(** [s.slice(a)] and [s.slice(0, b)] for non-negative integers. *)
Definition sliceFrom (a : nat) (s : str) : str := drop a s.
Definition sliceTo (b : nat) (s : str) : str := take b s.

(** [s.trim()] *)
Definition trim (s : str) : str :=
  rev (dropWhile isSpace (rev (dropWhile isSpace s))).

(** [" ".repeat(n)] *)
Definition spaces (n : nat) : str := repeat 32 n.

Fixpoint startsWith (p s : str) : bool :=
  match p, s with
  | [], _ => true
  | a :: p', b :: s' => (a =? b) && startsWith p' s'
  | _ :: _, [] => false
  end.

(** [s.split("\n")]: never empty, the empty string splits to one empty
    line. *)
Fixpoint splitLines (s : str) : list str :=
  match s with
  | [] => [[]]
  | c :: t =>
      if c =? 10 then [] :: splitLines t
      else match splitLines t with
           | l :: ls => (c :: l) :: ls
           | [] => [[c]]
           end
  end.

(** [s.replace(/\r\n/g, "\n")] *)
Fixpoint crlfToLf (s : str) : str :=
  match s with
  | c :: t =>
      match t with
      | d :: t' => if (c =? 13) && (d =? 10) then 10 :: crlfToLf t'
                   else c :: crlfToLf t
      | [] => [c]
      end
  | [] => []
  end.

(** [s.includes("\n")] *)
Definition includesLf (s : str) : bool := existsb (N.eqb 10) s.

(** [s.replace(/\*\*/g, '')]: leftmost, non-overlapping pairs of stars. *)
Fixpoint removeStars (s : str) : str :=
  match s with
  | c :: t =>
      match t with
      | d :: t' => if (c =? 42) && (d =? 42) then removeStars t'
                   else c :: removeStars t
      | [] => [c]
      end
  | [] => []
  end.

(** *** Numbers

    [parseInt], [+] and the template literal work on IEEE doubles.  Only
    non-negative integers occur here: a finite value is the integer it
    denotes, and rounding is to the nearest double, ties to even. *)

Inductive Number := Finite (n : N) | Infinity.

Definition roundToDouble (n : N) : Number :=
  if n <? 2 ^ 53 then Finite n
  else
    let e := N.log2 n - 52 in
    let q := n / 2 ^ e in
    let r := n mod 2 ^ e in
    let q' := match r ?= 2 ^ (e - 1) with
              | Lt => q
              | Gt => q + 1
              | Eq => if N.even q then q else q + 1
              end in
    let v := q' * 2 ^ e in
    if v <? 2 ^ 1024 then Finite v else Infinity.

(** Decimal digits, least significant first. *)
Fixpoint digitsRev (fuel : nat) (n : N) : str :=
  match fuel with
  | O => []
  | S f => (48 + n mod 10) :: (if n / 10 =? 0 then [] else digitsRev f (n / 10))
  end.

(** The decimal numeral of [n]. *)
Definition dec (n : N) : str := rev (digitsRev (S (N.to_nat (N.log2 n))) n).

(** The mathematical value of a run of decimal digits. *)
Definition digitsValue (ds : str) : N :=
  fold_left (fun acc d => 10 * acc + (d - 48)) ds 0.

(** [parseInt(ds, 10)] on a non-empty run of digits: the double nearest
    to their value.  (An implementation may read the digits after the
    20th as zeros; the value is taken exactly here.) *)
Definition parseInt (ds : str) : Number := roundToDouble (digitsValue ds).

(** [x + 1] *)
Definition add1 (x : Number) : Number :=
  match x with
  | Finite n => roundToDouble (n + 1)
  | Infinity => Infinity
  end.

Definition roundsTo (v x : N) : bool :=
  match roundToDouble v with
  | Finite y => y =? x
  | Infinity => false
  end.

(** Number::toString picks the decimal with the fewest significant digits
    that still denotes [x], the closest one if there are two.  [k] is
    the number of significant digits tried, [nd] the length of [dec x]. *)
Fixpoint shortest (fuel k nd : nat) (x : N) : N :=
  match fuel with
  | O => x
  | S f =>
      let p := 10 ^ N.of_nat (nd - k) in
      let lo := (x / p) * p in
      let hi := lo + p in
      match roundsTo lo x, roundsTo hi x with
      | true, true =>
          match (x - lo) ?= (hi - x) with
          | Lt => lo
          | Gt => hi
          | Eq => if N.even (x / p) then lo else hi
          end
      | true, false => lo
      | false, true => hi
      | false, false => shortest f (S k) nd x
      end
  end.

Definition stripTrailingZeros (ds : str) : str :=
  rev (dropWhile (N.eqb 48) (rev ds)).

(** [`${x}`] for a non-negative integral double: plain digits below
    [10^21], exponent notation from there on. *)
Definition toString (x : Number) : str :=
  match x with
  | Infinity => lit "Infinity"
  | Finite n =>
      let nd := length (dec n) in
      let v := shortest nd 1 nd n in
      let ds := dec v in
      if v <? 10 ^ 21 then ds
      else
        match stripTrailingZeros ds with
        | d :: [] => d :: lit "e+" ++ dec (N.of_nat (length ds - 1))
        | d :: more =>
            d :: lit "." ++ more ++ lit "e+" ++ dec (N.of_nat (length ds - 1))
        | [] => ds
        end
  end.

End Js.

Import Js.

(** ** Regular expressions

    Every pattern of the source is a sequence of character classes, each
    with a greedy quantifier, anchored at the start of the subject.  The
    matcher gives each class its longest run first and backs off one
    code unit at a time, as the JavaScript engine does.  A successful
    match returns the text taken by each class, in order. *)

Module Regex.

Record atom := Atom { cls : char -> bool; lo : nat; hi : option nat }.

Definition regex := list atom.

Definition one (c : char -> bool) : atom := Atom c 1 (Some 1%nat).
Definition star (c : char -> bool) : atom := Atom c 0 None.
Definition plus (c : char -> bool) : atom := Atom c 1 None.
Definition exactly (n : nat) (c : char -> bool) : atom := Atom c n (Some n).
Definition between (n m : nat) (c : char -> bool) : atom := Atom c n (Some m).
Definition atLeast (n : nat) (c : char -> bool) : atom := Atom c n None.

(** Try the continuation [k] after [n], [n-1], ..., [lo] code units. *)
Fixpoint backoff (k : str -> option (list str)) (s : str) (lo n : nat)
  : option (list str) :=
  match k (drop n s) with
  | Some r => Some (take n s :: r)
  | None =>
      if (n <=? lo)%nat then None
      else match n with
           | S n' => backoff k s lo n'
           | O => None
           end
  end.

Fixpoint exec (re : regex) (s : str) : option (list str) :=
  match re with
  | [] => Some []
  | a :: re' =>
      let run := length (takeWhile (cls a) s) in
      let most := match hi a with Some h => Nat.min h run | None => run end in
      if (most <? lo a)%nat then None else backoff (exec re') s (lo a) most
  end.

(** [re.test(s)] for an anchored pattern. *)
Definition test (re : regex) (s : str) : bool := bool_decide (is_Some (exec re s)).

(** [match[0]]: the whole matched text. *)
Definition whole (groups : list str) : str := concat groups.

(** [s.replace(re, '')] for an anchored pattern without the global flag. *)
Definition remove (re : regex) (s : str) : str :=
  match exec re s with
  | Some groups => drop (length (whole groups)) s
  | None => s
  end.

(** [re.test(s)] for a pattern without anchor: the leftmost position
    where it matches. *)
Fixpoint search (re : regex) (s : str) : bool :=
  match exec re s with
  | Some _ => true
  | None => match s with
            | _ :: t => search re t
            | [] => false
            end
  end.

End Regex.

Import Regex.

(** ** Line classifier and list metadata *)

Definition isBullet (c : char) : bool := isChar "-" c || isChar "*" c.
Definition isBox (c : char) : bool := isChar " " c || isChar "x" c || isChar "X" c.
Definition isBoxChecked (c : char) : bool := isChar "x" c || isChar "X" c.

(** [/^#{n}\s/] *)
Definition reHeading (n : nat) : regex := [exactly n (isChar "#"); one isSpace].
(** [/^#{1,4}\s/] *)
Definition reAnyHeading : regex := [between 1 4 (isChar "#"); one isSpace].
(** [/^\s*[-*]\s\[[ xX]\]\s/]; the first two classes are the capture
    groups 1 and 2 of [getListMeta]. *)
Definition reTask : regex :=
  [star isSpace; one isBullet; one isSpace; one (isChar "["); one isBox;
   one (isChar "]"); one isSpace].
(** [/^\s*[-*]\s/], groups as above *)
Definition reUl : regex := [star isSpace; one isBullet; one isSpace].
(** [/^\s*\d+\.\s/], groups as above *)
Definition reOl : regex := [star isSpace; plus isDigit; one (isChar "."); one isSpace].
(** [/^\s*>\s/], group 1 is the first class *)
Definition reBq : regex := [star isSpace; one (isChar ">"); one isSpace].
(** The leading run of [\s], the one group of the indent pattern. *)
Definition reIndent : regex := [star isSpace].
(** [/\[[xX]\]/] *)
Definition reChecked : regex := [one (isChar "["); one isBoxChecked; one (isChar "]")].

Inductive LineType := h1 | h2 | h3 | h4 | li | blockquote | p.

Definition getMarkdownType (line : str) : LineType :=
  if test (reHeading 1) line then h1
  else if test (reHeading 2) line then h2
  else if test (reHeading 3) line then h3
  else if test (reHeading 4) line then h4
  else if test reTask line then li
  else if test reUl line then li
  else if test reOl line then li
  else if test reBq line then blockquote
  else p.

(** [ListKind]; the source's [null] is [None], and its kind "blockquote"
    is [bq] here, [blockquote] being the line type. *)
Inductive ListKind := ul | ol | task | bq.

Record ListMeta := {
  kind : option ListKind;
  indent : str;
  currentMarker : str;
  nextMarker : str;
  number : option Number
}.

(** Capture group [i] of a match (groups are numbered from 1). *)
Definition group (i : nat) (groups : list str) : str := nth (i - 1) groups [].

Definition getListMeta (line : str) : ListMeta :=
  let indent := match exec reIndent line with
                | Some m => group 1 m
                | None => []
                end in
  match exec reTask line with
  | Some taskMatch =>
      let isChecked := search reChecked line in
      let currentMarker :=
        group 1 taskMatch ++ group 2 taskMatch ++ lit " ["
        ++ (if isChecked then lit "x" else lit " ") ++ lit "] " in
      let nextMarker := group 1 taskMatch ++ group 2 taskMatch ++ lit " [ ] " in
      {| kind := Some task; indent := indent; currentMarker := currentMarker;
         nextMarker := nextMarker; number := None |}
  | None =>
  match exec reUl line with
  | Some ulMatch =>
      let marker := group 1 ulMatch ++ group 2 ulMatch ++ lit " " in
      {| kind := Some ul; indent := indent; currentMarker := marker;
         nextMarker := marker; number := None |}
  | None =>
  match exec reOl line with
  | Some olMatch =>
      let number := parseInt (group 2 olMatch) in
      let currentMarker := group 1 olMatch ++ toString number ++ lit ". " in
      let nextMarker := group 1 olMatch ++ toString (add1 number) ++ lit ". " in
      {| kind := Some ol; indent := indent; currentMarker := currentMarker;
         nextMarker := nextMarker; number := Some number |}
  | None =>
  match exec reBq line with
  | Some bqMatch =>
      let marker := group 1 bqMatch ++ lit "> " in
      {| kind := Some bq; indent := indent; currentMarker := marker;
         nextMarker := marker; number := None |}
  | None =>
      {| kind := None; indent := indent; currentMarker := [];
         nextMarker := []; number := None |}
  end end end end.

Definition getRemovedPrefixLength (line : str) : nat :=
  match exec reAnyHeading line with
  | Some h => length (whole h)
  | None =>
  match exec reTask line with
  | Some t => length (whole t)
  | None =>
  match exec reUl line with
  | Some u => length (whole u)
  | None =>
  match exec reOl line with
  | Some o => length (whole o)
  | None =>
  match exec reBq line with
  | Some b => length (whole b)
  | None => O
  end end end end end.

(** ** Display/source offset mapper *)

(** The [while] loop of [mapDisplayOffsetToSourceIndex]; [rest] is
    [content.slice(i)].  [Some i] is the [return prefix + i] inside the
    loop, [None] is leaving the loop. *)
Fixpoint mapLoop (rest : str) (i displayCount displayOffset : nat) : option nat :=
  match rest with
  | [] => None
  | c :: t =>
      let step := if (displayCount =? displayOffset)%nat then Some i
                  else mapLoop t (i + 1) (displayCount + 1) displayOffset in
      match t with
      | d :: t' =>
          if isChar "*" c && isChar "*" d
          then mapLoop t' (i + 2) displayCount displayOffset
          else step
      | [] => step
      end
  end.

Definition mapDisplayOffsetToSourceIndex (line : str) (displayOffset : nat) : nat :=
  let prefix := getRemovedPrefixLength line in
  let content := sliceFrom prefix line in
  match mapLoop content 0 0 displayOffset with
  | Some i => (prefix + i)%nat
  | None => length line
  end.

Definition getDisplayContentLength (line : str) : nat :=
  let stripped :=
    removeStars
      (remove reBq (remove reOl (remove reUl (remove reTask
        (remove reAnyHeading line))))) in
  length stripped.

(** ** Editor state and reducers *)

Record Options := {
  indentSize : option nat;            (* default 2 *)
  continueListsOnEnter : option bool; (* default true *)
  pasteSplitLines : option bool       (* default true *)
}.

Definition defaultOptions : Options :=
  {| indentSize := None; continueListsOnEnter := None; pasteSplitLines := None |}.

(** The component state the reducers touch: the [lines] array, the
    active line, the pending caret ([cursorPositionRef.current]), the
    dirty flag and [isSelectingRef.current].  An activation the source
    defers by [setTimeout(..., 0)] is recorded as done. *)
Record Editor := {
  lines : list str;
  activeLineIndex : option nat;
  cursorPosition : option nat;
  isDirty : bool;
  isSelecting : bool
}.

(** The initial state: [value], or the empty string, split at "\n". *)
Definition initial (value : str) : Editor :=
  {| lines := splitLines value; activeLineIndex := None;
     cursorPosition := None; isDirty := false; isSelecting := false |}.

(** [a.splice(start, deleteCount, ...items)] for non-negative integers. *)
Definition splice (start deleteCount : nat) (items a : list str) : list str :=
  take start a ++ items ++ drop (start + deleteCount) a.

(** [line.replace(new RegExp("^" + escaped(marker)), '')]: every
    metacharacter of [marker] is escaped, so the pattern is the literal
    text of [marker] at the start of [line]. *)
Definition removeLiteral (marker line : str) : str :=
  if startsWith marker line then drop (length marker) line else line.

Inductive Key := Enter | Backspace | Delete | Tab | ArrowUp | ArrowDown | OtherKey.

Record KeyEvent := {
  key : Key;
  shiftKey : bool;
  caret : nat    (* textarea.selectionStart *)
}.

Definition edited (ed : Editor) (next : list str) (cursor : nat) (active : nat)
  : Editor :=
  {| lines := next; activeLineIndex := Some active;
     cursorPosition := Some cursor; isDirty := true;
     isSelecting := isSelecting ed |}.

Definition isSomeB {A} (o : option A) : bool :=
  match o with Some _ => true | None => false end.

Definition isEmpty (s : str) : bool :=
  match s with [] => true | _ => false end.

Definition onEnter (opts : Options) (ed : Editor) (idx caret : nat) : option Editor :=
  line ← lines ed !! idx;
  let meta := getListMeta line in
  let before := sliceTo caret line in
  let after := sliceFrom caret line in
  let continueLists := default true (continueListsOnEnter opts) in
  if isSomeB (kind meta)
     && isEmpty (trim (removeLiteral (currentMarker meta) line))
     && (length (currentMarker meta) <=? caret)%nat
  then
    Some (edited ed (<[idx := indent meta]> (lines ed))
                 (length (indent meta)) idx)
  else
    let next :=
      if isSomeB (kind meta) && continueLists
      then splice (idx + 1) 0 [nextMarker meta ++ after] (<[idx := before]> (lines ed))
      else splice (idx + 1) 0 [after] (<[idx := before]> (lines ed)) in
    Some (edited ed next
                 (if isSomeB (kind meta) && continueLists
                  then length (nextMarker meta) else 0%nat)
                 (idx + 1)).

Definition onBackspaceMerge (ed : Editor) (idx : nat) : option Editor :=
  textToPrepend ← lines ed !! idx;
  prevLine ← lines ed !! (idx - 1)%nat;
  let prevLen := length prevLine in
  let next := splice idx 1 [] (<[(idx - 1)%nat := prevLine ++ textToPrepend]> (lines ed)) in
  Some (edited ed next prevLen (idx - 1)).

Definition onTab (opts : Options) (ed : Editor) (line : str) (idx : nat)
    (e : KeyEvent) : Editor :=
  let indentSize := default 2%nat (indentSize opts) in
  if shiftKey e then
    let next :=
      if test [atLeast indentSize isSpace] line
      then <[idx := remove [exactly indentSize (isChar " ")] line]> (lines ed)
      else lines ed in
    edited ed next
           (Z.to_nat (Z.max 0 (Z.of_nat (caret e) - Z.of_nat indentSize))) idx
  else
    edited ed (<[idx := spaces indentSize ++ line]> (lines ed))
           (caret e + indentSize) idx.

Definition onArrows (ed : Editor) (idx : nat) (e : KeyEvent) : Editor :=
  match key e with
  | ArrowUp =>
      if (0 <? idx)%nat
      then {| lines := lines ed; activeLineIndex := Some (idx - 1)%nat;
              cursorPosition := Some (caret e); isDirty := isDirty ed;
              isSelecting := isSelecting ed |}
      else ed
  | ArrowDown =>
      if (idx + 1 <? length (lines ed))%nat
      then {| lines := lines ed; activeLineIndex := Some (idx + 1)%nat;
              cursorPosition := Some (caret e); isDirty := isDirty ed;
              isSelecting := isSelecting ed |}
      else ed
  | _ => ed
  end.

(** [handleKeyDown(e, idx)] when no extension reports the event handled.
    The handler belongs to the rendered line [idx]; where the source
    would read [lines[idx]] as [undefined] the result is [None]. *)
Definition handleKeyDown (opts : Options) (ed : Editor) (e : KeyEvent) (idx : nat)
  : option Editor :=
  if isSelecting ed then Some ed
  else
    match key e with
    | Enter => onEnter opts ed idx (caret e)
    | Backspace =>
        if (caret e =? 0)%nat && (0 <? idx)%nat then onBackspaceMerge ed idx
        else
          line ← lines ed !! idx;
          let meta := getListMeta line in
          if isSomeB (kind meta)
             && (caret e <=? length (currentMarker meta))%nat
             && (0 <? length (currentMarker meta))%nat
          then
            Some (edited ed
                    (<[idx := sliceFrom (length (currentMarker meta)) line]> (lines ed))
                    0 idx)
          else Some ed
    | Tab =>
        line ← lines ed !! idx;
        let meta := getListMeta line in
        if isSomeB (kind meta) then Some (onTab opts ed line idx e)
        else Some ed
    | _ => Some (onArrows ed idx e)
    end.

(** [handlePaste(e, idx)] when no extension reports the event handled;
    [selection] is the text of [window.getSelection()], if any, [text]
    the clipboard text and [caret] the textarea's [selectionStart]. *)
Definition handlePaste (opts : Options) (ed : Editor) (selection text : str)
    (caret idx : nat) : option Editor :=
  if includesLf selection then Some ed
  else
    let pasteSplit := default true (pasteSplitLines opts) in
    if negb pasteSplit || negb (includesLf text) then Some ed
    else
      line ← lines ed !! idx;
      let before := sliceTo caret line in
      let after := sliceFrom caret line in
      let pasted := splitLines (crlfToLf text) in
      let head := before ++ nth 0 pasted [] in
      let tail := nth (length pasted - 1) pasted [] ++ after in
      let next :=
        if (1 <? length pasted)%nat
        then splice (idx + 1) 0
                    (take (length pasted - 2) (drop 1 pasted) ++ [tail])
                    (<[idx := head]> (lines ed))
        else <[idx := head]> (lines ed) in
      Some (edited ed next
                   (length (nth (length pasted - 1) pasted []))
                   (idx + length pasted - 1)).

(** The [setLines] reducer of [deleteCurrentSelection], with the
    selection already resolved to anchor and focus points (line index,
    display offset).  The indices are read off rendered lines, so both
    lines exist; for an index outside the document, where the source
    falls back to the empty string and may write past the end of the
    array, the result is [None]. *)
Definition deleteCurrentSelection (ed : Editor)
    (aIdx aDisplayOffset fIdx fDisplayOffset : nat) : option Editor :=
  let swap := (fIdx <? aIdx)%nat
              || ((aIdx =? fIdx)%nat && (fDisplayOffset <? aDisplayOffset)%nat) in
  let startIdx := if swap then fIdx else aIdx in
  let startDisp := if swap then fDisplayOffset else aDisplayOffset in
  let endIdx := if swap then aIdx else fIdx in
  let endDisp := if swap then aDisplayOffset else fDisplayOffset in
  startLine ← lines ed !! startIdx;
  endLine ← lines ed !! endIdx;
  let startSrc := mapDisplayOffsetToSourceIndex startLine startDisp in
  let endSrc := mapDisplayOffsetToSourceIndex endLine endDisp in
  let startIsLineStart := (startDisp =? 0)%nat in
  let endIsLineEnd := (endDisp =? getDisplayContentLength endLine)%nat in
  let next :=
    if (startIdx =? endIdx)%nat then
      if startIsLineStart && endIsLineEnd
      then splice startIdx 1 [] (lines ed)
      else
        let s := if startIsLineStart then 0%nat else startSrc in
        let e := if endIsLineEnd then length startLine else endSrc in
        <[startIdx := sliceTo s startLine ++ sliceFrom e startLine]> (lines ed)
    else
      let startCut := if startIsLineStart then 0%nat else startSrc in
      let endCut := if endIsLineEnd then length endLine else endSrc in
      let merged := sliceTo startCut startLine ++ sliceFrom endCut endLine in
      splice startIdx (endIdx - startIdx + 1) [merged] (lines ed) in
  Some (edited ed (if (length next =? 0)%nat then [[]] else next)
               startSrc
               (Nat.min startIdx (length (lines ed) - 1))).

(** *** Extension API

    The mutators handed to [onKeyDown]/[onPaste] extensions.  Indices are
    JavaScript numbers; [splice] clamps them as Array.prototype.splice
    does. *)

Definition spliceZ (start deleteCount : Z) (items a : list str) : list str :=
  let len := Z.of_nat (length a) in
  let actualStart :=
    if (start <? 0)%Z then Z.max (len + start) 0 else Z.min start len in
  let actualDeleteCount := Z.min (Z.max deleteCount 0) (len - actualStart) in
  splice (Z.to_nat actualStart) (Z.to_nat actualDeleteCount) items a.

Inductive ApiCall :=
| setValue (next : str)
| setLine (i : nat) (s : str)
| insertLine (i : Z) (s : str)
| deleteLines (start count : Z)
| setActiveLineIndex (i : option nat) (caret : option nat).

Definition withLines (ed : Editor) (next : list str) : Editor :=
  {| lines := next; activeLineIndex := activeLineIndex ed;
     cursorPosition := cursorPosition ed; isDirty := isDirty ed;
     isSelecting := isSelecting ed |}.

(** One call of the extension API.  [setLine] takes an array index;
    past the end of the array it would leave holes, which a list of
    strings cannot hold: the result is [None] there. *)
Definition apiCall (ed : Editor) (c : ApiCall) : option Editor :=
  match c with
  | setValue next => Some (withLines ed (splitLines next))
  | setLine i s =>
      if (i <? length (lines ed))%nat then Some (withLines ed (<[i := s]> (lines ed)))
      else if (i =? length (lines ed))%nat then Some (withLines ed (lines ed ++ [s]))
      else None
  | insertLine i s => Some (withLines ed (spliceZ i 0 [s] (lines ed)))
  | deleteLines start count => Some (withLines ed (spliceZ start count [] (lines ed)))
  | setActiveLineIndex i c =>
      Some {| lines := lines ed; activeLineIndex := i;
              cursorPosition := match c with Some n => Some n | None => cursorPosition ed end;
              isDirty := isDirty ed; isSelecting := isSelecting ed |}
  end.

(** ** Rendering and change notifications *)

(** [a.join(sep)] for a one-unit separator. *)
Fixpoint joinWith (sep : char) (a : list str) : str :=
  match a with
  | [] => []
  | l :: rest =>
      match rest with
      | [] => l
      | _ :: _ => l ++ sep :: joinWith sep rest
      end
  end.

(** [lines.join("\n")]: the text handed to [onDebouncedChange] and the
    result of [getValue] in the extension API. *)
Definition joinLines (a : list str) : str := joinWith 10 a.

Definition getValue (ed : Editor) : str := joinLines (lines ed).

(** [handleLineChange(idx, value)]: the new state and the text handed to
    [onChange].  The handler belongs to the rendered line [idx]; past the
    end of the array the assignment would leave holes and the result is
    [None]. *)
Definition handleLineChange (ed : Editor) (idx : nat) (value : str)
  : option (Editor * str) :=
  let payload :=
    joinLines (imap (fun i l => if (i =? idx)%nat then value else l) (lines ed)) in
  let withNext next :=
    {| lines := next; activeLineIndex := activeLineIndex ed;
       cursorPosition := cursorPosition ed; isDirty := true;
       isSelecting := isSelecting ed |} in
  if (idx <? length (lines ed))%nat
  then Some (withNext (<[idx := value]> (lines ed)), payload)
  else if (idx =? length (lines ed))%nat
       then Some (withNext (lines ed ++ [value]), payload)
       else None.

(** [cx(...classes)]: [classes.filter(Boolean).join(" ")].  An argument
    that is [false] or [undefined] is [None]; the empty string is falsy
    too. *)
Definition truthy (c : option str) : option str :=
  match c with
  | Some (x :: s) => Some (x :: s)
  | _ => None
  end.

Definition cx (classes : list (option str)) : str :=
  joinWith 32 (omap truthy classes).

Definition notStar (c : char) : bool := negb (isChar "*" c).

(** [/\*\*[^*]+\*\*/], in the source inside one capture group. *)
Definition reBold : regex :=
  [one (isChar "*"); one (isChar "*"); plus notStar; one (isChar "*");
   one (isChar "*")].

(** [text.split(re)] for [reBold] with the global flag: the pieces
    between the matches and, through the capture group, the matches
    themselves.  [s] is the text from the search position on, [skip] the
    number of code units of a match found earlier that are still to be
    passed, [cur] the piece gathered since the last match. *)
Fixpoint splitBold (s : str) (skip : nat) (cur : str) : list str :=
  match s with
  | [] => [cur]
  | c :: t =>
      match skip with
      | S k => splitBold t k cur
      | O =>
          match exec reBold s with
          | Some m => cur :: whole m :: splitBold t (length (whole m) - 1) []
          | None => splitBold t 0 (cur ++ [c])
          end
      end
  end.

(** A rendered piece: a string, or a [<strong>] element with its text. *)
Inductive Part := Plain (s : str) | Strong (s : str).

(** [s.endsWith(e)] *)
Definition endsWith (e s : str) : bool := startsWith (rev e) (rev s).

(** [part.slice(2, -2)] *)
Definition sliceInner (part : str) : str := take (length part - 4) (drop 2 part).

Definition parseBold (text : str) : list Part :=
  List.map
    (fun part =>
       if startsWith (lit "**") part && endsWith (lit "**") part
       then Strong (sliceInner part)
       else Plain part)
    (splitBold text 0 []).

(** [/^#+\s/] *)
Definition reHashes : regex := [plus (isChar "#"); one isSpace].

(** [defaultRendered] of a line: a no-break space for a blank line,
    otherwise the line without its structural prefixes, parsed for bold. *)
Definition defaultRendered (line : str) : list Part :=
  if isEmpty (trim line) then [Plain [160]]
  else
    parseBold
      (remove reBq (remove reOl (remove reUl (remove reTask
        (remove reHashes line))))).

(** The text content of rendered pieces, which display offsets count. *)
Definition textContent (parts : list Part) : str :=
  concat (List.map (fun part => match part with Plain s | Strong s => s end) parts).

(** The effect on the [value] prop: a new value replaces the lines and
    clears the dirty flag. *)
Definition syncValue (value : str) (ed : Editor) : Editor :=
  {| lines := splitLines value; activeLineIndex := activeLineIndex ed;
     cursorPosition := cursorPosition ed; isDirty := false;
     isSelecting := isSelecting ed |}.

(** The debounce effect, once its timer fires: nothing for a clean
    document; for a dirty one the content handed to [onDebouncedChange]
    and the state with the flag cleared. *)
Definition flush (ed : Editor) : option (Editor * str) :=
  if isDirty ed
  then Some ({| lines := lines ed; activeLineIndex := activeLineIndex ed;
                cursorPosition := cursorPosition ed; isDirty := false;
                isSelecting := isSelecting ed |},
             joinLines (lines ed))
  else None.

(** ** Specification-side definitions

    These are not functions of the source; they phrase what the
    specification compares the source against. *)

(** For each code unit of [content], whether it is shown: the two stars
    of an emphasis marker, found left to right, are not. *)
Fixpoint shownFlags (content : str) : list bool :=
  match content with
  | [] => []
  | c :: t =>
      match t with
      | d :: t' =>
          if isChar "*" c && isChar "*" d then false :: false :: shownFlags t'
          else true :: shownFlags t
      | [] => [true]
      end
  end.

Fixpoint countShown (flags : list bool) : nat :=
  match flags with
  | [] => O
  | b :: t => ((if b then 1 else 0) + countShown t)%nat
  end.

(** The text [getDisplayContentLength] measures, before it drops the
    stars: the line without its structural prefixes, each pattern of the
    chain applied to what the one before it has left.  It is an end of
    the line. *)
Definition displayedContent (line : str) : str :=
  remove reBq (remove reOl (remove reUl (remove reTask (remove reAnyHeading line)))).

(** The display offset of a source index: the number of shown code units
    of the line before it.  Shown is what the editor displays and
    [getDisplayContentLength] counts: the code units of [displayedContent],
    but for the stars of its emphasis markers; the code units in front of
    it are hidden. *)
Definition displayOffsetOfSourceIndex (line : str) (src : nat) : nat :=
  let hidden := (length line - length (displayedContent line))%nat in
  countShown (take src (repeat false hidden ++ shownFlags (displayedContent line))).

(** Pressing a key on the active line with the pending caret applied.
    The effect of the active line applies the pending caret with
    [setSelectionRange(pos, pos)], which a textarea clamps to the length
    of its text, the line; the key event reads the caret from there. *)
Definition pressOnActive (opts : Options) (k : Key) (ed : Editor) : option Editor :=
  idx ← activeLineIndex ed;
  c ← cursorPosition ed;
  line ← lines ed !! idx;
  handleKeyDown opts ed
    {| key := k; shiftKey := false; caret := Nat.min c (length line) |} idx.

(** A one-line document with its line active and the caret at [c]. *)
Definition focused (line : str) (c : nat) : Editor :=
  {| lines := [line]; activeLineIndex := Some 0%nat; cursorPosition := Some c;
     isDirty := false; isSelecting := false |}.

(** Enter at the end of the one line [1. a], then Enter again on the
    line this makes active, with its pending caret. *)
Definition enterTwiceOnFirstItem : option Editor :=
  pressOnActive defaultOptions Enter (focused (lit "1. a") 4)
  ≫= pressOnActive defaultOptions Enter.

(** *** Auxiliary notions of the proofs *)

(** The heading type of level [n]. *)
Definition headingOf (n : nat) : LineType :=
  match n with
  | 1 => h1
  | 2 => h2
  | 3 => h3
  | 4 => h4
  | _ => p
  end%nat.

(** The number of an ordered item, if the line is one, leaves room for
    its successor among the integers that doubles count one by one. *)
Definition successorIsExact (line : str) : Prop :=
  match number (getListMeta line) with
  | Some (Finite n) => n + 1 < 2 ^ 53
  | Some Infinity => False
  | None => True
  end.

(** No line feed in any line of a document. *)
Definition singleLines (a : list (list N)) : Prop :=
  Forall (fun l => includesLf l = false) a.

(** One step of the editor without extensions: a key, a paste, the
    deletion of a selection, a change of the active line to a text
    without line feed, a new [value] prop, or the debounce timer. *)
Inductive uiEdit (opts : Options) (ed ed' : Editor) : Prop :=
| byKey (e : KeyEvent) (idx : nat) :
    handleKeyDown opts ed e idx = Some ed' -> uiEdit opts ed ed'
| byPaste (selection text : list N) (caret idx : nat) :
    handlePaste opts ed selection text caret idx = Some ed' -> uiEdit opts ed ed'
| bySelection (aIdx aOff fIdx fOff : nat) :
    deleteCurrentSelection ed aIdx aOff fIdx fOff = Some ed' -> uiEdit opts ed ed'
| byTyping (idx : nat) (value payload : list N) :
    includesLf value = false ->
    handleLineChange ed idx value = Some (ed', payload) -> uiEdit opts ed ed'
| byValue (value : list N) :
    ed' = syncValue value ed -> uiEdit opts ed ed'
| byTimer (content : list N) :
    flush ed = Some (ed', content) -> uiEdit opts ed ed'.

(** The states of an editor mounted with [value]. *)
Inductive reachable (opts : Options) (value : list N) : Editor -> Prop :=
| reach_initial : reachable opts value (initial value)
| reach_edit (ed ed' : Editor) :
    reachable opts value ed -> uiEdit opts ed ed' -> reachable opts value ed'.

(** No star in a string. *)
Definition starFree (s : list N) : Prop := forallb notStar s = true.

(** Text in which the pairs of stars come two by two around non-empty
    runs: [first], then for each [(b, a)] of [runs] a pair of stars, [b],
    a pair of stars and [a]. *)
Definition emphasised (first : list N) (runs : list (list N * list N)) : list N :=
  first ++ concat (List.map (fun r => lit "**" ++ fst r ++ lit "**" ++ snd r) runs).

Definition wellPaired (first : list N) (runs : list (list N * list N)) : Prop :=
  starFree first
  /\ Forall (fun r => starFree (fst r) /\ fst r <> [] /\ starFree (snd r)) runs.

(** The pieces such a text is expected to render to. *)
Definition piecesOf (first : list N) (runs : list (list N * list N)) : list Part :=
  Plain first :: flat_map (fun r => [Strong (fst r); Plain (snd r)]) runs.


(** What a group of a successful match looks like: its code units are in
    the class and its length within the bounds of the quantifier. *)
Definition fits (a : atom) (g : str) : Prop :=
  forallb (cls a) g = true /\ (lo a <= length g)%nat
  /\ match hi a with Some h => (length g <= h)%nat | None => True end.

(** [b] is what is left of [a] after a prefix that ends in white space. *)
Definition cutAtSpace (a b : list N) : Prop :=
  b = a \/ exists m c, a = m ++ c :: b /\ isSpace c = true.

(** Boolean tests on code units as propositions. *)
Ltac boolN H :=
  repeat first
    [ rewrite orb_true_iff in H | rewrite andb_true_iff in H
    | rewrite N.leb_le in H | rewrite N.eqb_eq in H ].

(** * Properties *)

(** ** Strings *)

Section StringFacts.

Variable p : char -> bool.

Lemma takeWhile_dropWhile (s : str) : takeWhile p s ++ dropWhile p s = s.
Proof.
  induction s as [|c t IH]; simpl; [reflexivity|].
  destruct (p c); simpl; [now rewrite IH | reflexivity].
Qed.

Lemma take_takeWhile (s : str) : take (length (takeWhile p s)) s = takeWhile p s.
Proof.
  induction s as [|c t IH]; simpl; [reflexivity|].
  destruct (p c); simpl; [now rewrite IH | reflexivity].
Qed.

Lemma drop_takeWhile (s : str) : drop (length (takeWhile p s)) s = dropWhile p s.
Proof.
  induction s as [|c t IH]; simpl; [reflexivity|].
  destruct (p c); simpl; [exact IH | reflexivity].
Qed.

Lemma takeWhile_all (s : str) : forallb p (takeWhile p s) = true.
Proof.
  induction s as [|c t IH]; simpl; [reflexivity|].
  destruct (p c) eqn:E; simpl; [now rewrite E | reflexivity].
Qed.

Lemma takeWhile_app_stop (a : str) (c : char) (t : str) :
  forallb p a = true -> p c = false -> takeWhile p (a ++ c :: t) = a.
Proof.
  induction a as [|x a IH]; simpl; intros Ha Hc.
  - now rewrite Hc.
  - apply andb_true_iff in Ha as [Hx Ha]. rewrite Hx. now rewrite IH.
Qed.

Lemma dropWhile_app_stop (a : str) (c : char) (t : str) :
  forallb p a = true -> p c = false -> dropWhile p (a ++ c :: t) = c :: t.
Proof.
  induction a as [|x a IH]; simpl; intros Ha Hc.
  - now rewrite Hc.
  - apply andb_true_iff in Ha as [Hx Ha]. rewrite Hx. now apply IH.
Qed.

Lemma dropWhile_head (s : str) (c : char) (t : str) :
  dropWhile p s = c :: t -> p c = false.
Proof.
  induction s as [|x s IH]; simpl; [discriminate|].
  destruct (p x) eqn:E; [exact IH|].
  intros [= -> _]. exact E.
Qed.

Lemma takeWhile_all_id (s : str) : forallb p s = true -> takeWhile p s = s.
Proof.
  induction s as [|c t IH]; simpl; [reflexivity|].
  intros H. apply andb_true_iff in H as [Hc Ht]. rewrite Hc. now rewrite IH.
Qed.

Lemma dropWhile_all_nil (s : str) : forallb p s = true -> dropWhile p s = [].
Proof.
  induction s as [|c t IH]; simpl; [reflexivity|].
  intros H. apply andb_true_iff in H as [Hc Ht]. rewrite Hc. now apply IH.
Qed.

Lemma forallb_take (n : nat) (s : str) : forallb p s = true -> forallb p (take n s) = true.
Proof.
  revert n; induction s as [|c t IH]; intros [|n]; simpl; try reflexivity.
  intros H. apply andb_true_iff in H as [Hc Ht]. rewrite Hc. now apply IH.
Qed.

Lemma forallb_drop (n : nat) (s : str) : forallb p s = true -> forallb p (drop n s) = true.
Proof.
  revert n; induction s as [|c t IH]; intros [|n]; simpl; try reflexivity.
  - tauto.
  - intros H. apply andb_true_iff in H as [Hc Ht]. now apply IH.
Qed.

Lemma take_le_takeWhile (n : nat) (s : str) :
  (n <= length (takeWhile p s))%nat -> forallb p (take n s) = true.
Proof.
  revert n; induction s as [|c t IH]; intros [|n]; simpl; try reflexivity.
  destruct (p c) eqn:E; simpl; [|lia].
  intros Hn. apply IH. lia.
Qed.

Lemma dropWhile_nil_all (s : str) : dropWhile p s = [] -> forallb p s = true.
Proof.
  induction s as [|c t IH]; simpl; [reflexivity|].
  destruct (p c); [exact IH | discriminate].
Qed.

End StringFacts.

Lemma startsWith_prefix (m s : str) : startsWith m s = true <-> exists t, s = m ++ t.
Proof.
  revert s; induction m as [|a m IH]; intros s; simpl.
  - split; [intros _; now exists s | reflexivity].
  - destruct s as [|b s].
    + split; [discriminate | intros [t Ht]; discriminate].
    + rewrite andb_true_iff, N.eqb_eq, IH. split.
      * intros [-> [t ->]]. now exists t.
      * intros [t [= -> ->]]. split; [reflexivity | now exists t].
Qed.

Lemma removeLiteral_app (m t : str) : removeLiteral m (m ++ t) = t.
Proof.
  unfold removeLiteral.
  assert (startsWith m (m ++ t) = true) as -> by (apply startsWith_prefix; now exists t).
  now rewrite drop_app_length.
Qed.

Lemma trim_empty_iff (s : str) : trim s = [] <-> forallb isSpace s = true.
Proof.
  unfold trim. split.
  - intros H.
    assert (dropWhile isSpace (rev (dropWhile isSpace s)) = []) as H1.
    { apply (f_equal (@rev char)) in H. rewrite rev_involutive in H. exact H. }
    apply dropWhile_nil_all in H1.
    destruct (dropWhile isSpace s) as [|c t] eqn:E.
    + now apply dropWhile_nil_all.
    + pose proof (dropWhile_head _ _ _ _ E) as Hc.
      simpl in H1. rewrite forallb_app in H1. simpl in H1.
      rewrite Hc in H1. now rewrite andb_false_r in H1.
  - intros H. now rewrite (dropWhile_all_nil _ _ H).
Qed.

(** ** Numbers *)

Section Numbers.

Lemma roundToDouble_safe (n : N) : n < 2 ^ 53 -> roundToDouble n = Finite n.
Proof. intros H. unfold roundToDouble. apply N.ltb_lt in H. now rewrite H. Qed.

Lemma roundToDouble_large (v y : N) :
  2 ^ 53 <= v -> roundToDouble v = Finite y -> 2 ^ 53 <= y.
Proof.
  intros Hv. unfold roundToDouble.
  destruct (v <? 2 ^ 53) eqn:E; [apply N.ltb_lt in E; lia|].
  set (e := N.log2 v - 52). set (q := v / 2 ^ e).
  set (q' := match v mod 2 ^ e ?= 2 ^ (e - 1) with
             | Eq => if N.even q then q else q + 1
             | Lt => q
             | Gt => q + 1
             end).
  destruct (q' * 2 ^ e <? 2 ^ 1024); [|discriminate].
  intros [= <-].
  assert (53 <= N.log2 v) as Hlog.
  { rewrite <- (N.log2_pow2 53) by lia. now apply N.log2_le_mono. }
  assert (N.log2 v = 52 + e) as Hsplit by (subst e; lia).
  assert (2 ^ N.log2 v <= v) as Hpow.
  { apply N.log2_spec. lia. }
  rewrite Hsplit, N.pow_add_r in Hpow.
  assert (2 ^ e <> 0) as Hne by (apply N.pow_nonzero; lia).
  assert (2 ^ 52 <= q) as Hq.
  { subst q. rewrite <- (N.div_mul (2 ^ 52) (2 ^ e)) by exact Hne.
    now apply N.Div0.div_le_mono. }
  assert (q <= q') as Hq'.
  { subst q'. destruct (_ ?= _); [destruct (N.even q)|..]; lia. }
  assert (2 ^ 1 <= 2 ^ e) as He.
  { apply N.pow_le_mono_r; lia. }
  change (2 ^ 53) with (2 ^ 52 * 2 ^ 1).
  apply N.mul_le_mono; lia.
Qed.

Lemma roundToDouble_exact (v y : N) :
  y < 2 ^ 53 -> roundToDouble v = Finite y -> v = y.
Proof.
  intros Hy H. destruct (N.lt_ge_cases v (2 ^ 53)) as [Hv|Hv].
  - rewrite (roundToDouble_safe _ Hv) in H. now injection H.
  - pose proof (roundToDouble_large _ _ Hv H). lia.
Qed.

Lemma roundsTo_exact (v x : N) : x < 2 ^ 53 -> roundsTo v x = true -> v = x.
Proof.
  intros Hx. unfold roundsTo. destruct (roundToDouble v) as [y|] eqn:E; [|discriminate].
  intros H. apply N.eqb_eq in H. subst y. now apply roundToDouble_exact.
Qed.

Lemma shortest_safe (fuel : nat) : forall k nd x,
  x < 2 ^ 53 -> shortest fuel k nd x = x.
Proof.
  induction fuel as [|f IH]; intros k nd x Hx; [reflexivity|].
  cbn [shortest]. cbv zeta.
  set (p := 10 ^ N.of_nat (nd - k)). set (lo := x / p * p).
  destruct (roundsTo lo x) eqn:El, (roundsTo (lo + p) x) eqn:Eh.
  - apply (roundsTo_exact _ _ Hx) in El, Eh.
    destruct (_ ?= _); [destruct (N.even _)|..]; assumption.
  - now apply (roundsTo_exact _ _ Hx) in El.
  - now apply (roundsTo_exact _ _ Hx) in Eh.
  - now apply IH.
Qed.

Lemma toString_safe (x : N) : x < 2 ^ 53 -> toString (Finite x) = dec x.
Proof.
  intros Hx. unfold toString. rewrite (shortest_safe _ _ _ _ Hx).
  assert ((x <? 10 ^ 21) = true) as ->; [|reflexivity].
  apply N.ltb_lt. apply (N.lt_trans _ _ _ Hx). reflexivity.
Qed.

Lemma digitsValue_snoc (l : list N) (d : N) :
  digitsValue (l ++ [d]) = 10 * digitsValue l + (d - 48).
Proof. unfold digitsValue. now rewrite fold_left_app. Qed.

Lemma digitsRev_value (fuel : nat) : forall n,
  n < 2 ^ N.of_nat fuel -> digitsValue (rev (digitsRev fuel n)) = n.
Proof.
  induction fuel as [|f IH]; intros n Hn.
  - change (2 ^ N.of_nat 0) with 1 in Hn. assert (n = 0) as -> by lia. reflexivity.
  - cbn [digitsRev rev]. rewrite digitsValue_snoc.
    rewrite (N.add_comm 48), N.add_sub.
    pose proof (N.div_mod n 10 ltac:(lia)) as Hdm.
    destruct (n / 10 =? 0) eqn:E.
    + apply N.eqb_eq in E. simpl rev. change (digitsValue []) with 0.
      rewrite E in Hdm. rewrite Hdm at 2. now rewrite N.mul_0_r.
    + rewrite IH; [now rewrite Hdm at 3|].
      apply N.Div0.div_lt_upper_bound.
      rewrite Nat2N.inj_succ, N.pow_succ_r' in Hn.
      generalize dependent (2 ^ N.of_nat f). intros. lia.
Qed.

Lemma dec_value (n : N) : digitsValue (dec n) = n.
Proof.
  unfold dec. apply digitsRev_value.
  rewrite Nat2N.inj_succ, N2Nat.id.
  destruct n as [|q]; [reflexivity|]. apply N.log2_spec. lia.
Qed.

Lemma digitsRev_digits (fuel : nat) : forall n,
  forallb isDigit (digitsRev fuel n) = true.
Proof.
  induction fuel as [|f IH]; intros n; [reflexivity|].
  cbn [digitsRev forallb]. apply andb_true_iff. split.
  - unfold isDigit. pose proof (N.mod_upper_bound n 10 ltac:(lia)) as Hm.
    apply andb_true_iff. rewrite !N.leb_le.
    generalize dependent (n mod 10). intros. lia.
  - destruct (n / 10 =? 0); [reflexivity | apply IH].
Qed.

Lemma dec_digits (n : N) : forallb isDigit (dec n) = true.
Proof.
  unfold dec. apply forallb_forall. intros d Hd. apply in_rev in Hd.
  pose proof (digitsRev_digits (S (N.to_nat (N.log2 n))) n) as H.
  rewrite forallb_forall in H. now apply H.
Qed.

Lemma dec_nonempty (n : N) : exists d ds, dec n = d :: ds.
Proof.
  unfold dec. cbn [digitsRev rev].
  destruct (rev (if n / 10 =? 0 then [] else digitsRev _ (n / 10))) as [|d ds].
  - now exists (48 + n mod 10), [].
  - now exists d, (ds ++ [48 + n mod 10]).
Qed.

End Numbers.

(** ** The matcher *)

Section Matcher.

Implicit Types (k : str -> option (list str)) (s g : str) (re : regex) (a b : atom).

Lemma backoff_eq k s lo n :
  backoff k s lo n =
  match k (drop n s) with
  | Some r => Some (take n s :: r)
  | None => if (n <=? lo)%nat then None
            else match n with S n' => backoff k s lo n' | O => None end
  end.
Proof. destruct n; reflexivity. Qed.

Lemma backoff_hit k s lo n r :
  k (drop n s) = Some r -> backoff k s lo n = Some (take n s :: r).
Proof. intros H. rewrite backoff_eq. now rewrite H. Qed.

Lemma backoff_miss k s lo n :
  (forall m, (m <= n)%nat -> k (drop m s) = None) -> backoff k s lo n = None.
Proof.
  induction n as [|n IH]; intros H; rewrite backoff_eq.
  - rewrite (H O) by lia. now destruct (0 <=? lo)%nat.
  - rewrite (H (S n)) by lia. destruct (S n <=? lo)%nat; [reflexivity|].
    apply IH. intros m Hm. apply H. lia.
Qed.

Lemma backoff_some k s lo n gs :
  (lo <= n)%nat -> backoff k s lo n = Some gs ->
  exists m r, (lo <= m <= n)%nat /\ k (drop m s) = Some r /\ gs = take m s :: r.
Proof.
  induction n as [|n IH]; intros Hlo; rewrite backoff_eq.
  - destruct (k (drop 0 s)) as [r|] eqn:E.
    + intros [= <-]. exists O, r. split; [lia | now split].
    + now destruct (0 <=? lo)%nat.
  - destruct (k (drop (S n) s)) as [r|] eqn:E.
    + intros [= <-]. exists (S n), r. split; [lia | now split].
    + destruct (S n <=? lo)%nat eqn:El; [discriminate|].
      apply Nat.leb_gt in El. intros H.
      destruct (IH ltac:(lia) H) as (m & r & Hm & Hk & ->).
      exists m, r. split; [lia | now split].
Qed.

Lemma exec_cons a re s :
  exec (a :: re) s =
  let run := length (takeWhile (cls a) s) in
  let most := match hi a with Some h => Nat.min h run | None => run end in
  if (most <? lo a)%nat then None else backoff (exec re) s (lo a) most.
Proof. reflexivity. Qed.

Lemma exec_sound re : forall s gs,
  exec re s = Some gs -> Forall2 fits re gs /\ exists rest, s = concat gs ++ rest.
Proof.
  induction re as [|a re IH]; intros s gs.
  - intros [= <-]. split; [constructor | now exists s].
  - rewrite exec_cons. cbv zeta.
    set (run := length (takeWhile (cls a) s)).
    set (most := match hi a with Some h => Nat.min h run | None => run end).
    destruct (most <? lo a)%nat eqn:E; [discriminate|].
    apply Nat.ltb_ge in E. intros H.
    destruct (backoff_some _ _ _ _ _ E H) as (m & r & Hm & Hk & ->).
    destruct (IH _ _ Hk) as [Hr [rest Hrest]].
    assert (m <= run)%nat as Hrun.
    { subst most. destruct (hi a); lia. }
    assert (length (take m s) = m) as Hlen.
    { rewrite length_take. subst run.
      pose proof (f_equal (@length char) (takeWhile_dropWhile (cls a) s)) as Hl.
      rewrite length_app in Hl. lia. }
    split.
    + constructor; [|exact Hr]. repeat split.
      * now apply take_le_takeWhile.
      * lia.
      * subst most. destruct (hi a); [lia | exact I].
    + exists rest. simpl. rewrite <- app_assoc, <- Hrest. now rewrite take_drop.
Qed.

Lemma exec_prefix re s gs :
  exec re s = Some gs -> s = whole gs ++ drop (length (whole gs)) s.
Proof.
  intros H. destruct (exec_sound _ _ _ H) as [_ [rest Hrest]].
  unfold whole. rewrite Hrest at 2. now rewrite drop_app_length.
Qed.

Lemma exec_head_reject b re x s :
  cls b x = false -> (1 <= lo b)%nat -> exec (b :: re) (x :: s) = None.
Proof.
  intros Hx Hlo. rewrite exec_cons. simpl. rewrite Hx. simpl.
  assert (match hi b with Some h => Nat.min h 0 | None => 0%nat end = 0%nat) as ->.
  { destruct (hi b); lia. }
  destruct (0 <? lo b)%nat eqn:E; [reflexivity|]. apply Nat.ltb_ge in E. lia.
Qed.

Lemma exec_nil_reject b re : (1 <= lo b)%nat -> exec (b :: re) [] = None.
Proof.
  intros Hlo. rewrite exec_cons. simpl.
  assert (match hi b with Some h => Nat.min h 0 | None => 0%nat end = 0%nat) as ->.
  { destruct (hi b); lia. }
  destruct (0 <? lo b)%nat eqn:E; [reflexivity|]. apply Nat.ltb_ge in E. lia.
Qed.

Lemma drop_inside_run (c : char -> bool) s m :
  (m < length (takeWhile c s))%nat -> exists x t, drop m s = x :: t /\ c x = true.
Proof.
  revert m; induction s as [|y s IH]; intros m; simpl; [lia|].
  destruct (c y) eqn:E; simpl; [|lia].
  destruct m as [|m]; intros Hm.
  - now exists y, s.
  - apply IH. lia.
Qed.

(** A class with an unbounded quantifier followed by a class that shares
    no code unit with it: the run is taken whole, backing off never helps. *)
Lemma exec_greedy a b re s :
  hi a = None -> (1 <= lo b)%nat ->
  (forall x, cls a x = true -> cls b x = false) ->
  exec (a :: b :: re) s =
  if (length (takeWhile (cls a) s) <? lo a)%nat then None
  else option_map (cons (takeWhile (cls a) s))
                  (exec (b :: re) (dropWhile (cls a) s)).
Proof.
  intros Hhi Hlo Hdis. rewrite exec_cons. cbv zeta. rewrite Hhi.
  destruct (length (takeWhile (cls a) s) <? lo a)%nat; [reflexivity|].
  destruct (exec (b :: re) (dropWhile (cls a) s)) as [r|] eqn:E; simpl.
  - rewrite <- (take_takeWhile (cls a) s) at 2.
    apply backoff_hit. now rewrite drop_takeWhile.
  - apply backoff_miss. intros m Hm.
    destruct (decide (m = length (takeWhile (cls a) s))) as [->|Hne].
    + now rewrite drop_takeWhile.
    + destruct (drop_inside_run (cls a) s m ltac:(lia)) as (x & t & -> & Hx).
      apply exec_head_reject; auto.
Qed.

Lemma exec_one_cons (c : char -> bool) re x s :
  exec (one c :: re) (x :: s) =
  if c x then option_map (cons [x]) (exec re s) else None.
Proof.
  destruct (c x) eqn:E.
  - rewrite exec_cons. cbv zeta.
    change (takeWhile (cls (one c)) (x :: s))
      with (if c x then x :: takeWhile c s else []).
    rewrite E.
    change (hi (one c)) with (Some 1%nat). change (lo (one c)) with 1%nat.
    cbv iota.
    assert (Nat.min 1 (length (x :: takeWhile c s)) = 1%nat) as ->
      by (simpl length; lia).
    change (1 <? 1)%nat with false. cbv iota.
    rewrite backoff_eq.
    change (drop 1 (x :: s)) with s. change (take 1 (x :: s)) with [x].
    destruct (exec re s); reflexivity.
  - now apply exec_head_reject.
Qed.

Lemma exec_one_nil (c : char -> bool) re : exec (one c :: re) [] = None.
Proof. reflexivity. Qed.

Lemma test_true re s : test re s = true <-> exists gs, exec re s = Some gs.
Proof.
  unfold test. rewrite bool_decide_eq_true. reflexivity.
Qed.

Lemma test_false re s : test re s = false <-> exec re s = None.
Proof.
  unfold test. rewrite bool_decide_eq_false. destruct (exec re s); split; intros H.
  - exfalso. apply H. eauto.
  - discriminate.
  - reflexivity.
  - now intros [? ?].
Qed.

Lemma search_later re (pre s : str) :
  is_Some (exec re s) -> search re (pre ++ s) = true.
Proof.
  intros [gs H]. induction pre as [|x pre IH]; simpl.
  - destruct s; simpl; now rewrite H.
  - destruct (exec re (x :: pre ++ s)); [reflexivity | exact IH].
Qed.

End Matcher.

(** ** The patterns of the source *)

Lemma space_range (x : char) :
  isSpace x = true ->
  x <> 35 /\ x <> 42 /\ x <> 45 /\ x <> 46 /\ x <> 62 /\ (x < 48 \/ 57 < x).
Proof.
  unfold isSpace. intros H. boolN H. lia.
Qed.

Lemma space_not_bullet (x : char) : isSpace x = true -> isBullet x = false.
Proof.
  intros H. apply space_range in H. unfold isBullet, isChar. simpl N_of_ascii.
  apply orb_false_iff. split; apply N.eqb_neq; lia.
Qed.

Lemma space_not_digit (x : char) : isSpace x = true -> isDigit x = false.
Proof.
  intros H. apply space_range in H. unfold isDigit.
  apply andb_false_iff. rewrite !N.leb_gt. lia.
Qed.

Lemma space_not_gt (x : char) : isSpace x = true -> isChar ">" x = false.
Proof.
  intros H. apply space_range in H. unfold isChar. simpl N_of_ascii.
  apply N.eqb_neq. lia.
Qed.

Lemma space_not_star (x : char) : isSpace x = true -> isChar "*" x = false.
Proof.
  intros H. apply space_range in H. unfold isChar. simpl N_of_ascii.
  apply N.eqb_neq. lia.
Qed.

Lemma digit_not_dot (x : char) : isDigit x = true -> isChar "." x = false.
Proof.
  unfold isDigit, isChar. simpl N_of_ascii. intros H. boolN H.
  apply N.eqb_neq. lia.
Qed.

Lemma hash_not_space (x : char) : isChar "#" x = true -> isSpace x = false.
Proof.
  unfold isChar. simpl N_of_ascii. intros H. boolN H. now subst x.
Qed.

Lemma exec_reIndent (s : str) : exec reIndent s = Some [takeWhile isSpace s].
Proof.
  unfold reIndent. rewrite exec_cons. cbv zeta.
  change (cls (star isSpace)) with isSpace.
  change (hi (star isSpace)) with (@None nat). change (lo (star isSpace)) with O.
  cbv iota. rewrite Nat.ltb_irrefl || change (_ <? 0)%nat with false.
  rewrite <- (take_takeWhile isSpace s) at 2. now apply backoff_hit.
Qed.

Lemma exec_reUl (s : str) :
  exec reUl s =
  match dropWhile isSpace s with
  | b :: c :: _ =>
      if isBullet b && isSpace c then Some [takeWhile isSpace s; [b]; [c]] else None
  | _ => None
  end.
Proof.
  unfold reUl. rewrite exec_greedy;
    [|reflexivity | simpl; lia | exact space_not_bullet].
  change (cls (star isSpace)) with isSpace. change (lo (star isSpace)) with O.
  change (_ <? 0)%nat with false. cbv iota.
  destruct (dropWhile isSpace s) as [|b [|c t]];
    rewrite ?exec_one_cons, ?exec_one_nil; try reflexivity.
  - now destruct (isBullet b).
  - destruct (isBullet b), (isSpace c); reflexivity.
Qed.

Lemma exec_reBq (s : str) :
  exec reBq s =
  match dropWhile isSpace s with
  | b :: c :: _ =>
      if isChar ">" b && isSpace c then Some [takeWhile isSpace s; [b]; [c]] else None
  | _ => None
  end.
Proof.
  unfold reBq. rewrite exec_greedy;
    [|reflexivity | simpl; lia | exact space_not_gt].
  change (cls (star isSpace)) with isSpace. change (lo (star isSpace)) with O.
  change (_ <? 0)%nat with false. cbv iota.
  destruct (dropWhile isSpace s) as [|b [|c t]];
    rewrite ?exec_one_cons, ?exec_one_nil; try reflexivity.
  - now destruct (isChar ">" b).
  - destruct (isChar ">" b), (isSpace c); reflexivity.
Qed.

Lemma exec_reTask (s : str) :
  exec reTask s =
  match dropWhile isSpace s with
  | b :: c1 :: o :: x :: cl :: c2 :: _ =>
      if isBullet b && isSpace c1 && isChar "[" o && isBox x && isChar "]" cl
         && isSpace c2
      then Some [takeWhile isSpace s; [b]; [c1]; [o]; [x]; [cl]; [c2]]
      else None
  | _ => None
  end.
Proof.
  unfold reTask. rewrite exec_greedy;
    [|reflexivity | simpl; lia | exact space_not_bullet].
  change (cls (star isSpace)) with isSpace. change (lo (star isSpace)) with O.
  change (_ <? 0)%nat with false. cbv iota.
  destruct (dropWhile isSpace s) as [|b [|c1 [|o [|x [|cl [|c2 t]]]]]];
    rewrite ?exec_one_cons, ?exec_one_nil; try reflexivity;
    repeat match goal with
           | |- context [if ?c then _ else _] => destruct c; simpl; try reflexivity
           end.
Qed.

Lemma exec_reOl (s : str) :
  exec reOl s =
  match takeWhile isDigit (dropWhile isSpace s),
        dropWhile isDigit (dropWhile isSpace s) with
  | _ :: _, dot :: c :: _ =>
      if isChar "." dot && isSpace c
      then Some [takeWhile isSpace s; takeWhile isDigit (dropWhile isSpace s);
                 [dot]; [c]]
      else None
  | _, _ => None
  end.
Proof.
  unfold reOl. rewrite exec_greedy;
    [|reflexivity | simpl; lia | exact space_not_digit].
  change (cls (star isSpace)) with isSpace. change (lo (star isSpace)) with O.
  change (_ <? 0)%nat with false. cbv iota.
  rewrite exec_greedy; [|reflexivity | simpl; lia | exact digit_not_dot].
  change (cls (plus isDigit)) with isDigit. change (lo (plus isDigit)) with 1%nat.
  destruct (takeWhile isDigit (dropWhile isSpace s)) as [|d ds]; [reflexivity|].
  change (length (d :: ds) <? 1)%nat with false. cbv iota.
  destruct (dropWhile isDigit (dropWhile isSpace s)) as [|dot [|c t]];
    rewrite ?exec_one_cons, ?exec_one_nil; try reflexivity.
  - now destruct (isChar "." dot).
  - destruct (isChar "." dot), (isSpace c); reflexivity.
Qed.

(** ** Array updates *)

Section Arrays.

Implicit Types (a pre post items : list str) (x y : str).

Lemma insert_middle pre x y post :
  <[length pre := x]> (pre ++ y :: post) = pre ++ x :: post.
Proof.
  rewrite insert_app_r_alt by lia. now rewrite Nat.sub_diag.
Qed.

Lemma splice_insert_after pre x items post :
  splice (length pre + 1) 0 items (pre ++ x :: post) = pre ++ x :: items ++ post.
Proof.
  unfold splice. rewrite Nat.add_0_r.
  replace (pre ++ x :: post) with ((pre ++ [x]) ++ post) by now rewrite <- app_assoc.
  replace (length pre + 1)%nat with (length (pre ++ [x])) by now rewrite length_app.
  rewrite take_app_length, drop_app_length. now rewrite <- app_assoc.
Qed.

Lemma splice_delete_one pre x post :
  splice (length pre) 1 [] (pre ++ x :: post) = pre ++ post.
Proof.
  unfold splice. rewrite take_app_length. simpl.
  replace (pre ++ x :: post) with ((pre ++ [x]) ++ post) by now rewrite <- app_assoc.
  replace (length pre + 1)%nat with (length (pre ++ [x])) by now rewrite length_app.
  now rewrite drop_app_length.
Qed.

Lemma lookup_split a (i : nat) x :
  a !! i = Some x -> a = take i a ++ x :: drop (S i) a /\ length (take i a) = i.
Proof.
  intros H. split.
  - symmetry. now apply take_drop_middle.
  - rewrite length_take. apply lookup_lt_Some in H. lia.
Qed.

End Arrays.

(** ** List metadata *)

Lemma getListMeta_indent (line : str) :
  indent (getListMeta line) = takeWhile isSpace line.
Proof.
  unfold getListMeta. rewrite exec_reIndent.
  destruct (exec reTask line), (exec reUl line), (exec reOl line), (exec reBq line);
    reflexivity.
Qed.

Lemma heading_starts_with_hash (re : regex) (n : nat) (m : option nat) (s : str)
    (gs : list str) :
  (1 <= n)%nat -> exec (Atom (isChar "#") n m :: re) s = Some gs ->
  exists t, s = 35 :: t.
Proof.
  intros Hn E.
  destruct (exec_sound _ _ _ E) as [Hf [rest Hrest]].
  inversion Hf as [|a g ? gs' Hg Hf']; subst.
  destruct Hg as (Hall & Hlo & _). simpl in Hlo.
  destruct g as [|c g]; [simpl in Hlo; lia|].
  simpl in Hall. apply andb_true_iff in Hall as [Hc _].
  unfold isChar in Hc. simpl N_of_ascii in Hc. apply N.eqb_eq in Hc. subst c.
  simpl. eauto.
Qed.

Lemma blank_no_marker (s : str) :
  forallb isSpace s = true ->
  exec reTask s = None /\ exec reUl s = None /\ exec reOl s = None
  /\ exec reBq s = None /\ exec reAnyHeading s = None.
Proof.
  intros H.
  assert (exec reAnyHeading s = None) as Hh.
  { destruct (exec reAnyHeading s) as [gs|] eqn:E; [exfalso | reflexivity].
    apply heading_starts_with_hash in E as [t ->]; [|lia].
    simpl in H. discriminate. }
  rewrite Hh, exec_reTask, exec_reUl, exec_reOl, exec_reBq.
  rewrite (dropWhile_all_nil _ _ H). simpl. tauto.
Qed.

Lemma test_exec (re : regex) (s : str) : test re s = isSomeB (exec re s).
Proof.
  destruct (exec re s) as [gs|] eqn:E; simpl.
  - apply test_true. eauto.
  - now apply test_false.
Qed.

Lemma kind_spec (line : str) :
  kind (getListMeta line) =
  if test reTask line then Some task
  else if test reUl line then Some ul
  else if test reOl line then Some ol
  else if test reBq line then Some bq
  else None.
Proof.
  rewrite !test_exec. unfold getListMeta.
  destruct (exec reTask line), (exec reUl line), (exec reOl line), (exec reBq line);
    reflexivity.
Qed.

Lemma hash_line_no_list (t : str) :
  test reTask (35 :: t) = false /\ test reUl (35 :: t) = false
  /\ test reOl (35 :: t) = false /\ test reBq (35 :: t) = false.
Proof.
  rewrite !test_exec, exec_reTask, exec_reUl, exec_reOl, exec_reBq.
  change (dropWhile isSpace (35 :: t)) with (35 :: t).
  change (takeWhile isDigit (35 :: t)) with (@nil N).
  repeat split; try reflexivity.
  - destruct t as [|c1 [|o [|x [|cl [|c2 t]]]]]; reflexivity.
  - destruct t; reflexivity.
  - destruct t; reflexivity.
Qed.

Lemma heading_line_no_list (n : nat) (line : str) :
  (1 <= n)%nat -> test (reHeading n) line = true ->
  kind (getListMeta line) = None.
Proof.
  intros Hn H. apply test_true in H as [gs H].
  apply heading_starts_with_hash in H as [t ->]; [|exact Hn].
  rewrite kind_spec.
  destruct (hash_line_no_list t) as (-> & -> & -> & ->). reflexivity.
Qed.

(** C10: the classifier and the metadata extractor agree on every line:
    the type is "li" exactly when the kind is "ul", "ol" or "task", and
    the type is "blockquote" exactly when the kind is "blockquote". *)
Theorem classifier_agrees_with_metadata (L : str) :
  (getMarkdownType L = li <->
     kind (getListMeta L) = Some ul \/ kind (getListMeta L) = Some ol
     \/ kind (getListMeta L) = Some task)
  /\ (getMarkdownType L = blockquote <-> kind (getListMeta L) = Some bq).
Proof.
  unfold getMarkdownType.
  destruct (test (reHeading 1) L) eqn:E1;
    [rewrite (heading_line_no_list 1 L) by (lia || exact E1); intuition congruence|].
  destruct (test (reHeading 2) L) eqn:E2;
    [rewrite (heading_line_no_list 2 L) by (lia || exact E2); intuition congruence|].
  destruct (test (reHeading 3) L) eqn:E3;
    [rewrite (heading_line_no_list 3 L) by (lia || exact E3); intuition congruence|].
  destruct (test (reHeading 4) L) eqn:E4;
    [rewrite (heading_line_no_list 4 L) by (lia || exact E4); intuition congruence|].
  rewrite kind_spec.
  destruct (test reTask L), (test reUl L), (test reOl L), (test reBq L);
    intuition congruence.
Qed.

Lemma task_line_shape (line : str) :
  kind (getListMeta line) = Some task ->
  exists b c1 x c2 rest,
    dropWhile isSpace line = b :: c1 :: 91 :: x :: 93 :: c2 :: rest
    /\ isBullet b = true /\ isSpace c1 = true /\ isBox x = true /\ isSpace c2 = true
    /\ exec reTask line
       = Some [takeWhile isSpace line; [b]; [c1]; [91]; [x]; [93]; [c2]].
Proof.
  rewrite kind_spec. destruct (test reTask line) eqn:E.
  - intros _. rewrite test_exec, exec_reTask in E. rewrite exec_reTask.
    destruct (dropWhile isSpace line) as [|b [|c1 [|o [|x [|cl [|c2 rest]]]]]];
      try discriminate.
    destruct (isBullet b) eqn:Hb; [|discriminate].
    destruct (isSpace c1) eqn:H1; [|discriminate].
    destruct (isChar "[" o) eqn:Ho; [|discriminate].
    destruct (isBox x) eqn:Hx; [|discriminate].
    destruct (isChar "]" cl) eqn:Hcl; [|discriminate].
    destruct (isSpace c2) eqn:H2; [|discriminate].
    apply N.eqb_eq in Ho, Hcl. simpl in Ho, Hcl. subst o cl.
    exists b, c1, x, c2, rest. simpl. repeat split; auto.
  - destruct (test reUl line), (test reOl line), (test reBq line); discriminate.
Qed.

Lemma not_heading_if_task (line : str) :
  is_Some (exec reTask line) -> exec reAnyHeading line = None.
Proof.
  intros [gs H]. destruct (exec reAnyHeading line) as [hs|] eqn:E; [|reflexivity].
  apply heading_starts_with_hash in E as [t ->]; [|lia].
  destruct (hash_line_no_list t) as (Ht & _). rewrite test_exec, H in Ht.
  discriminate.
Qed.

(** C4, as the code has it: on a task line both markers are rebuilt in a
    fixed form (one space after the bullet and after the box, a checked box
    written with a small x) and the current marker is as long as the prefix
    of the source line it stands for.  A checked box in the source gives a
    checked current marker, a line without any checked box gives an
    unchecked one, and the next marker is always unchecked.  The current
    marker is the very prefix of the source line when that prefix is
    already written in this form with a checked box, and when it is
    written in this form with an unchecked box on a line without any
    checked box. *)
Theorem task_markers (line : str) :
  kind (getListMeta line) = Some task ->
  exists b c1 x c2 rest,
    line = takeWhile isSpace line ++ b :: c1 :: 91 :: x :: 93 :: c2 :: rest
    /\ isBullet b = true /\ isSpace c1 = true /\ isBox x = true /\ isSpace c2 = true
    /\ nextMarker (getListMeta line) = takeWhile isSpace line ++ b :: lit " [ ] "
    /\ (currentMarker (getListMeta line) = takeWhile isSpace line ++ b :: lit " [x] "
        \/ currentMarker (getListMeta line) = takeWhile isSpace line ++ b :: lit " [ ] ")
    /\ (isBoxChecked x = true ->
        currentMarker (getListMeta line) = takeWhile isSpace line ++ b :: lit " [x] ")
    /\ (search reChecked line = false ->
        currentMarker (getListMeta line) = takeWhile isSpace line ++ b :: lit " [ ] ")
    /\ length (currentMarker (getListMeta line)) = getRemovedPrefixLength line
    /\ (c1 = 32 -> c2 = 32 -> x = 120 ->
        line = currentMarker (getListMeta line) ++ rest)
    /\ (c1 = 32 -> c2 = 32 -> x = 32 -> search reChecked line = false ->
        line = currentMarker (getListMeta line) ++ rest).
Proof.
  intros Hk.
  destruct (task_line_shape line Hk) as (b & c1 & x & c2 & rest & Hd & Hb & H1 & Hx & H2 & He).
  pose proof (takeWhile_dropWhile isSpace line) as Hline. rewrite Hd in Hline.
  assert (getRemovedPrefixLength line = length (takeWhile isSpace line) + 6)%nat as Hp.
  { unfold getRemovedPrefixLength.
    rewrite (not_heading_if_task line) by (rewrite He; eauto).
    rewrite He. unfold whole. simpl. rewrite length_app. simpl. lia. }
  assert (isBoxChecked x = true -> search reChecked line = true) as Hchk.
  { intros Hc. rewrite <- Hline.
    replace (takeWhile isSpace line ++ b :: c1 :: 91 :: x :: 93 :: c2 :: rest)
      with ((takeWhile isSpace line ++ [b; c1]) ++ 91 :: x :: 93 :: c2 :: rest)
      by now rewrite <- app_assoc.
    apply search_later. unfold reChecked.
    rewrite !exec_one_cons. rewrite Hc. simpl. eauto. }
  assert (currentMarker (getListMeta line)
          = takeWhile isSpace line ++ b ::
              lit " [" ++ (if search reChecked line then lit "x" else lit " ") ++ lit "] ")
    as Hcur.
  { unfold getListMeta. rewrite He. reflexivity. }
  assert (nextMarker (getListMeta line) = takeWhile isSpace line ++ b :: lit " [ ] ")
    as Hnext.
  { unfold getListMeta. rewrite He. reflexivity. }
  exists b, c1, x, c2, rest.
  split; [now symmetry|]. do 4 (split; [assumption|]). split; [exact Hnext|].
  split; [rewrite Hcur; destruct (search reChecked line); auto|].
  split; [intros Hc; rewrite Hcur, (Hchk Hc); reflexivity|].
  split; [intros Hs; rewrite Hcur, Hs; reflexivity|].
  split; [rewrite Hcur, Hp, length_app; destruct (search reChecked line); simpl; lia|].
  split.
  - intros -> -> ->. rewrite Hcur, (Hchk eq_refl). rewrite <- Hline at 1.
    rewrite <- app_assoc. reflexivity.
  - intros -> -> -> Hs. rewrite Hcur, Hs. rewrite <- Hline at 1.
    rewrite <- app_assoc. reflexivity.
Qed.

Lemma task_markers_witness :
  exists b c1 x c2 rest,
    lit "  * [x] buy milk"
    = takeWhile isSpace (lit "  * [x] buy milk") ++ b :: c1 :: 91 :: x :: 93 :: c2 :: rest
    /\ nextMarker (getListMeta (lit "  * [x] buy milk")) = lit "  * [ ] "
    /\ currentMarker (getListMeta (lit "  * [x] buy milk")) = lit "  * [x] ".
Proof.
  destruct (task_markers (lit "  * [x] buy milk") eq_refl)
    as (b & c1 & x & c2 & rest & Hl & Hb & _ & _ & _ & Hn & _ & _ & _ & _ & _ & _).
  exists b, c1, x, c2, rest. split; [exact Hl|].
  split; reflexivity.
Defined.

(** C4 as stated fails: the current marker of a task line need not be the
    prefix found in the source line. *)
Lemma task_marker_is_not_always_the_source_prefix :
  ~ (forall line, kind (getListMeta line) = Some task ->
       exists rest, line = currentMarker (getListMeta line) ++ rest).
Proof.
  intros H. destruct (H (lit "- [X] a") eq_refl) as [rest Hr].
  vm_compute in Hr. discriminate.
Qed.

(** The same for a task written with a tab after the bullet. *)
Lemma task_marker_normalises_separators :
  kind (getListMeta (45 :: 9 :: lit "[ ] a")) = Some task
  /\ currentMarker (getListMeta (45 :: 9 :: lit "[ ] a")) = lit "- [ ] ".
Proof. split; reflexivity. Qed.

(** [isChecked] is tested on the whole line: an unchecked task whose text
    mentions a checked box gets a checked current marker. *)
Lemma unchecked_task_reported_checked :
  currentMarker (getListMeta (lit "- [ ] see [x]")) = lit "- [x] ".
Proof. reflexivity. Qed.

(** ** Reducers *)

Lemma blank_meta (s : str) :
  forallb isSpace s = true ->
  kind (getListMeta s) = None /\ getRemovedPrefixLength s = O.
Proof.
  intros H. destruct (blank_no_marker s H) as (Ht & Hu & Ho & Hb & Hh).
  unfold getListMeta, getRemovedPrefixLength.
  now rewrite Ht, Hu, Ho, Hb, Hh.
Qed.

(** Where the blank test of the code passes (the line without the
    rebuilt current marker at its start is blank), Enter on a list, quote
    or task line with the caret at or past the marker leaves on that line
    exactly its leading white space, which carries no marker; the line
    stays active and the pending caret is the length of that indentation. *)
Theorem enter_on_blank_item_ends_list
    (opts : Options) (ed : Editor) (idx c : nat) (line : str) (shift : bool) :
  isSelecting ed = false ->
  lines ed !! idx = Some line ->
  kind (getListMeta line) <> None ->
  trim (removeLiteral (currentMarker (getListMeta line)) line) = [] ->
  (length (currentMarker (getListMeta line)) <= c)%nat ->
  exists ed',
    handleKeyDown opts ed {| key := Enter; shiftKey := shift; caret := c |} idx
      = Some ed'
    /\ lines ed' = <[idx := takeWhile isSpace line]> (lines ed)
    /\ lines ed' !! idx = Some (takeWhile isSpace line)
    /\ kind (getListMeta (takeWhile isSpace line)) = None
    /\ getRemovedPrefixLength (takeWhile isSpace line) = O
    /\ activeLineIndex ed' = Some idx
    /\ cursorPosition ed' = Some (length (takeWhile isSpace line)).
Proof.
  intros Hsel Hline Hkind Hblank Hc.
  unfold handleKeyDown. rewrite Hsel. cbn [key caret].
  unfold onEnter. rewrite Hline. cbn [mbind option_bind].
  destruct (kind (getListMeta line)) as [k|] eqn:Hk; [|contradiction].
  rewrite Hblank. apply Nat.leb_le in Hc. rewrite Hc. cbn [isSomeB isEmpty andb].
  rewrite getListMeta_indent.
  eexists. split; [reflexivity|]. cbn [lines activeLineIndex cursorPosition edited].
  destruct (blank_meta (takeWhile isSpace line) (takeWhile_all _ _)) as [Hn Hp].
  repeat split; auto.
  apply list_lookup_insert_eq. now apply lookup_lt_Some in Hline.
Qed.

Lemma enter_on_blank_item_ends_list_witness :
  exists ed',
    handleKeyDown defaultOptions (focused (lit "  - ") 4)
      {| key := Enter; shiftKey := false; caret := 4 |} 0 = Some ed'
    /\ lines ed' = [lit "  "]
    /\ activeLineIndex ed' = Some 0%nat
    /\ cursorPosition ed' = Some 2%nat.
Proof.
  destruct (enter_on_blank_item_ends_list defaultOptions (focused (lit "  - ") 4)
              0 4 (lit "  - ") false)
    as (ed' & H & Hl & _ & _ & _ & Ha & Hc).
  - reflexivity.
  - reflexivity.
  - discriminate.
  - reflexivity.
  - vm_compute. lia.
  - exists ed'. repeat split; assumption.
Defined.

(** The blank test strips the rebuilt marker, not the text of the line:
    an empty task checked with a capital X does not pass it, and Enter
    continues the list. *)
Lemma enter_on_blank_capital_checked_task :
  trim (removeLiteral (currentMarker (getListMeta (lit "- [X] "))) (lit "- [X] "))
  = lit "- [X]"
  /\ (lines <$> handleKeyDown defaultOptions (focused (lit "- [X] ") 6)
                 {| key := Enter; shiftKey := false; caret := 6 |} 0)
     = Some [lit "- [X] "; lit "- [ ] "].
Proof. split; reflexivity. Qed.

(** C7 fails on the code.  The blank test strips the rebuilt current
    marker from the line, not the marker the line holds; where the two
    differ the marker itself counts as content.  The task item checked
    with a capital X, the ordered item numbered 01 and the item made of a
    dash and a tab have nothing after their marker; Enter at their end,
    past the marker, does not leave the indentation but continues the
    list with a new item, which becomes active. *)
Theorem enter_on_blank_item_can_continue_list :
  let press line :=
    handleKeyDown defaultOptions (focused line (length line))
      {| key := Enter; shiftKey := false; caret := length line |} 0 in
  let blankItem line :=
    isSomeB (kind (getListMeta line))
    && isEmpty (trim (drop (getRemovedPrefixLength line) line))
    && (length (currentMarker (getListMeta line)) <=? length line)%nat in
  blankItem (lit "- [X] ") = true
  /\ (lines <$> press (lit "- [X] ")) = Some [lit "- [X] "; lit "- [ ] "]
  /\ (activeLineIndex <$> press (lit "- [X] ")) = Some (Some 1%nat)
  /\ blankItem (lit "01. ") = true
  /\ (lines <$> press (lit "01. ")) = Some [lit "01. "; lit "2. "]
  /\ blankItem [45; 9] = true
  /\ (lines <$> press [45; 9]) = Some [[45; 9]; lit "- "]
  /\ blankItem (lit "- ") = true
  /\ (lines <$> press (lit "- ")) = Some [[]].
Proof. cbv zeta. repeat split; vm_compute; reflexivity. Qed.

(** C8: Backspace with the caret at source offset 0 on line i > 0 appends
    the text of line i to line i-1 and removes line i: the document is one
    line shorter, line i-1 is active and the pending caret is the length
    line i-1 had before. *)
Theorem backspace_at_line_start_merges
    (opts : Options) (ed : Editor) (idx : nat) (prevLine line : str) (shift : bool) :
  isSelecting ed = false ->
  (0 < idx)%nat ->
  lines ed !! (idx - 1)%nat = Some prevLine ->
  lines ed !! idx = Some line ->
  exists ed',
    handleKeyDown opts ed {| key := Backspace; shiftKey := shift; caret := 0 |} idx
      = Some ed'
    /\ lines ed' = take (idx - 1) (lines ed) ++ (prevLine ++ line) :: drop (idx + 1) (lines ed)
    /\ (length (lines ed') + 1 = length (lines ed))%nat
    /\ activeLineIndex ed' = Some (idx - 1)%nat
    /\ cursorPosition ed' = Some (length prevLine).
Proof.
  intros Hsel Hidx Hprev Hline.
  unfold handleKeyDown. rewrite Hsel. cbn [key caret].
  apply Nat.ltb_lt in Hidx as Hidx'. rewrite Hidx'. cbn [Nat.eqb andb].
  unfold onBackspaceMerge. rewrite Hline, Hprev. cbn [mbind option_bind].
  eexists. split; [reflexivity|]. cbn [lines activeLineIndex cursorPosition edited].
  destruct idx as [|j]; [lia|]. replace (S j - 1)%nat with j in * by lia.
  destruct (lookup_split _ _ _ Hprev) as [Hsplit Hlen].
  assert (drop (S j) (lines ed) = line :: drop (S j + 1) (lines ed)) as Hd.
  { replace (S j + 1)%nat with (S (S j)) by lia. now apply drop_S. }
  assert (<[j := prevLine ++ line]> (lines ed)
          = take j (lines ed) ++ (prevLine ++ line) :: line :: drop (S j + 1) (lines ed))
    as Hins.
  { rewrite Hsplit at 1. rewrite <- Hlen at 1. rewrite insert_middle. now rewrite Hd. }
  assert (splice (S j) 1 [] (<[j := prevLine ++ line]> (lines ed))
          = take j (lines ed) ++ (prevLine ++ line) :: drop (S j + 1) (lines ed))
    as Hres.
  { rewrite Hins.
    replace (take j (lines ed) ++ (prevLine ++ line) :: line :: drop (S j + 1) (lines ed))
      with ((take j (lines ed) ++ [prevLine ++ line]) ++ line :: drop (S j + 1) (lines ed))
      by now rewrite <- app_assoc.
    replace (S j) with (length (take j (lines ed) ++ [prevLine ++ line])) at 1
      by (rewrite length_app, Hlen; simpl; lia).
    rewrite splice_delete_one. now rewrite <- app_assoc. }
  rewrite Hres. repeat split; auto.
  rewrite length_app, Hlen. simpl. rewrite length_drop.
  apply lookup_lt_Some in Hline. lia.
Qed.

Lemma backspace_at_line_start_merges_witness :
  exists ed',
    handleKeyDown defaultOptions
      {| lines := [lit "ab"; lit "cd"]; activeLineIndex := Some 1%nat;
         cursorPosition := Some 0%nat; isDirty := false; isSelecting := false |}
      {| key := Backspace; shiftKey := false; caret := 0 |} 1 = Some ed'
    /\ lines ed' = [lit "abcd"]
    /\ activeLineIndex ed' = Some 0%nat
    /\ cursorPosition ed' = Some 2%nat.
Proof.
  destruct (backspace_at_line_start_merges defaultOptions
              {| lines := [lit "ab"; lit "cd"]; activeLineIndex := Some 1%nat;
                 cursorPosition := Some 0%nat; isDirty := false; isSelecting := false |}
              1 (lit "ab") (lit "cd") false)
    as (ed' & H & Hl & _ & Ha & Hc).
  - reflexivity.
  - lia.
  - reflexivity.
  - reflexivity.
  - exists ed'. repeat split; assumption.
Defined.

(** C9: with line splitting on and no multi-line selection, pasting the
    three-line text x, y, z at caret 1 of the line ab puts the lines ax, y
    and zb in its place; the third of them is active and the pending caret
    is 1. *)
Theorem paste_three_lines
    (opts : Options) (pre post : list str) (selection : str)
    (active cursor : option nat) (dirty selecting : bool) :
  pasteSplitLines opts <> Some false ->
  includesLf selection = false ->
  handlePaste opts
    {| lines := pre ++ lit "ab" :: post; activeLineIndex := active;
       cursorPosition := cursor; isDirty := dirty; isSelecting := selecting |}
    selection (lit "x" ++ [10] ++ lit "y" ++ [10] ++ lit "z") 1 (length pre)
  = Some {| lines := pre ++ [lit "ax"; lit "y"; lit "zb"] ++ post;
            activeLineIndex := Some (length pre + 2)%nat;
            cursorPosition := Some 1%nat; isDirty := true;
            isSelecting := selecting |}.
Proof.
  intros Hopt Hsel. unfold handlePaste. rewrite Hsel.
  assert (default true (pasteSplitLines opts) = true) as ->.
  { destruct (pasteSplitLines opts) as [[|]|]; try reflexivity. contradiction. }
  change (includesLf (lit "x" ++ [10] ++ lit "y" ++ [10] ++ lit "z")) with true.
  cbn [negb orb lines].
  rewrite list_lookup_middle by reflexivity. cbn [mbind option_bind].
  change (splitLines (crlfToLf (lit "x" ++ [10] ++ lit "y" ++ [10] ++ lit "z")))
    with [lit "x"; lit "y"; lit "z"].
  change (sliceTo 1 (lit "ab")) with (lit "a").
  change (sliceFrom 1 (lit "ab")) with (lit "b").
  cbn [length nth Nat.sub Nat.ltb Nat.leb take drop app].
  rewrite insert_middle, splice_insert_after.
  unfold edited. cbn [isSelecting].
  replace (length pre + 3 - 1)%nat with (length pre + 2)%nat by lia.
  reflexivity.
Qed.

Lemma paste_three_lines_witness :
  handlePaste defaultOptions (focused (lit "ab") 1) []
    (lit "x" ++ [10] ++ lit "y" ++ [10] ++ lit "z") 1 0
  = Some {| lines := [lit "ax"; lit "y"; lit "zb"];
            activeLineIndex := Some 2%nat;
            cursorPosition := Some 1%nat; isDirty := true; isSelecting := false |}.
Proof.
  apply (paste_three_lines defaultOptions [] [] [] (Some 0%nat) (Some 1%nat)
           false false).
  - discriminate.
  - reflexivity.
Defined.

(** Backspace inside a marker drops as many code units as the current
    marker is long. *)
Lemma backspace_in_marker
    (opts : Options) (ed : Editor) (idx c : nat) (line : str) (shift : bool) :
  isSelecting ed = false ->
  lines ed !! idx = Some line ->
  kind (getListMeta line) <> None ->
  (0 < length (currentMarker (getListMeta line)))%nat ->
  (c <= length (currentMarker (getListMeta line)))%nat ->
  ~ (c = O /\ 0 < idx)%nat ->
  handleKeyDown opts ed {| key := Backspace; shiftKey := shift; caret := c |} idx
  = Some (edited ed
            (<[idx := drop (length (currentMarker (getListMeta line))) line]> (lines ed))
            0 idx).
Proof.
  intros Hsel Hline Hkind Hpos Hc Hnot.
  unfold handleKeyDown. rewrite Hsel. cbn [key caret].
  assert ((c =? 0)%nat && (0 <? idx)%nat = false) as ->.
  { apply andb_false_iff. rewrite Nat.eqb_neq, Nat.ltb_ge. lia. }
  rewrite Hline. cbn [mbind option_bind].
  destruct (kind (getListMeta line)); [|contradiction].
  apply Nat.leb_le in Hc. apply Nat.ltb_lt in Hpos. now rewrite Hc, Hpos.
Qed.

(** It removes the structural prefix whenever the current marker is as
    long as that prefix. *)
Lemma backspace_in_marker_strips_prefix
    (opts : Options) (ed : Editor) (idx c : nat) (line : str) (shift : bool) :
  isSelecting ed = false ->
  lines ed !! idx = Some line ->
  kind (getListMeta line) <> None ->
  length (currentMarker (getListMeta line)) = getRemovedPrefixLength line ->
  (0 < length (currentMarker (getListMeta line)))%nat ->
  (c <= length (currentMarker (getListMeta line)))%nat ->
  ~ (c = O /\ 0 < idx)%nat ->
  handleKeyDown opts ed {| key := Backspace; shiftKey := shift; caret := c |} idx
  = Some (edited ed (<[idx := drop (getRemovedPrefixLength line) line]> (lines ed))
                 0 idx).
Proof.
  intros Hsel Hline Hkind Hlen Hpos Hc Hnot.
  rewrite <- Hlen. now apply backspace_in_marker.
Qed.

(** C5 at a numbered item written with a leading zero: the marker of the
    line is four code units long, the rebuilt current marker three, and
    Backspace leaves the marker's last space on the line. *)
Theorem backspace_in_zero_padded_marker :
  handleKeyDown defaultOptions (focused (lit "01. a") 2)
    {| key := Backspace; shiftKey := false; caret := 2 |} 0
  = Some {| lines := [lit " a"]; activeLineIndex := Some 0%nat;
            cursorPosition := Some 0%nat; isDirty := true; isSelecting := false |}
  /\ currentMarker (getListMeta (lit "01. a")) = lit "1. "
  /\ getRemovedPrefixLength (lit "01. a") = 4%nat
  /\ drop (getRemovedPrefixLength (lit "01. a")) (lit "01. a") = lit "a".
Proof. repeat split; reflexivity. Qed.

(** Tab on a line without list or quote marker changes nothing. *)
Lemma tab_outside_list
    (opts : Options) (ed : Editor) (idx c : nat) (line : str) (shift : bool) :
  lines ed !! idx = Some line ->
  kind (getListMeta line) = None ->
  handleKeyDown opts ed {| key := Tab; shiftKey := shift; caret := c |} idx = Some ed.
Proof.
  intros Hline Hk. unfold handleKeyDown.
  destruct (isSelecting ed); [reflexivity|]. cbn [key].
  rewrite Hline. cbn [mbind option_bind]. now rewrite Hk.
Qed.

(** Tab on a list or quote line at the default indent size puts two
    spaces in front of it and moves the caret right by two. *)
Lemma tab_on_list_line
    (opts : Options) (ed : Editor) (idx c : nat) (line : str) :
  isSelecting ed = false ->
  indentSize opts = None ->
  lines ed !! idx = Some line ->
  kind (getListMeta line) <> None ->
  handleKeyDown opts ed {| key := Tab; shiftKey := false; caret := c |} idx
  = Some (edited ed (<[idx := 32 :: 32 :: line]> (lines ed)) (c + 2) idx).
Proof.
  intros Hsel Hsize Hline Hk. unfold handleKeyDown. rewrite Hsel. cbn [key].
  rewrite Hline. cbn [mbind option_bind].
  destruct (kind (getListMeta line)); [|contradiction].
  cbn [isSomeB]. unfold onTab. rewrite Hsize. reflexivity.
Qed.

(** C6 at a list line without indentation: Shift+Tab leaves the text as
    it is and still moves the pending caret two to the left. *)
Theorem shift_tab_without_indent_moves_caret :
  handleKeyDown defaultOptions (focused (lit "- a") 3)
    {| key := Tab; shiftKey := true; caret := 3 |} 0
  = Some {| lines := [lit "- a"]; activeLineIndex := Some 0%nat;
            cursorPosition := Some 1%nat; isDirty := true; isSelecting := false |}.
Proof. reflexivity. Qed.

(** Indentation made of tabs passes the guard of Shift+Tab and is not
    removed; the caret moves all the same. *)
Lemma shift_tab_on_tab_indent :
  handleKeyDown defaultOptions (focused (9 :: 9 :: lit "- a") 5)
    {| key := Tab; shiftKey := true; caret := 5 |} 0
  = Some {| lines := [9 :: 9 :: lit "- a"]; activeLineIndex := Some 0%nat;
            cursorPosition := Some 3%nat; isDirty := true; isSelecting := false |}.
Proof. reflexivity. Qed.

(** Shift+Tab on a list line indented with spaces removes one unit. *)
Lemma shift_tab_on_space_indent :
  handleKeyDown defaultOptions (focused (lit "    - a") 7)
    {| key := Tab; shiftKey := true; caret := 7 |} 0
  = Some {| lines := [lit "  - a"]; activeLineIndex := Some 0%nat;
            cursorPosition := Some 5%nat; isDirty := true; isSelecting := false |}.
Proof. reflexivity. Qed.

(** ** The document is not empty *)

Lemma splitLines_nonempty (s : str) : splitLines s <> [].
Proof.
  destruct s as [|c t]; simpl; [discriminate|].
  destruct (c =? 10); [discriminate|]. destruct (splitLines t); discriminate.
Qed.

Lemma nonempty_length (a : list (list N)) : a <> [] <-> (0 < length a)%nat.
Proof. destruct a; simpl; split; intros; try lia; congruence. Qed.

Lemma splice_length (start n : nat) (items a : list (list N)) :
  length (splice start n items a)
  = (length (take start a) + length items + length (drop (start + n) a))%nat.
Proof. unfold splice. rewrite !length_app. lia. Qed.

Lemma onArrows_lines (ed : Editor) (idx : nat) (e : KeyEvent) :
  lines (onArrows ed idx e) = lines ed.
Proof.
  unfold onArrows. destruct (key e); try reflexivity;
    destruct (_ <? _)%nat; reflexivity.
Qed.

Lemma handleKeyDown_nonempty
    (opts : Options) (ed ed' : Editor) (e : KeyEvent) (idx : nat) :
  lines ed <> [] -> handleKeyDown opts ed e idx = Some ed' -> lines ed' <> [].
Proof.
  intros Hne. unfold handleKeyDown.
  destruct (isSelecting ed); [now intros [= <-]|].
  destruct (key e).
  - unfold onEnter. destruct (lines ed !! idx) as [line|]; [|discriminate].
    cbn [mbind option_bind].
    destruct (_ && _ && _).
    + intros [= <-]. cbn [lines edited]. apply nonempty_length.
      rewrite length_insert. now apply nonempty_length.
    + intros [= <-]. cbn [lines edited]. apply nonempty_length.
      destruct (_ && _); rewrite splice_length; simpl; lia.
  - destruct (_ && _) eqn:E.
    + apply andb_true_iff in E as [_ E]. apply Nat.ltb_lt in E.
      unfold onBackspaceMerge.
      destruct (lines ed !! idx); [|discriminate]. cbn [mbind option_bind].
      destruct (lines ed !! (idx - 1)%nat); [|discriminate]. cbn [mbind option_bind].
      intros [= <-]. cbn [lines edited]. apply nonempty_length.
      rewrite splice_length, length_take, length_insert.
      apply nonempty_length in Hne. lia.
    + destruct (lines ed !! idx) as [line|]; [|discriminate].
      cbn [mbind option_bind]. destruct (_ && _ && _).
      * intros [= <-]. cbn [lines edited]. apply nonempty_length.
        rewrite length_insert. now apply nonempty_length.
      * now intros [= <-].
  - intros [= <-]. now rewrite onArrows_lines.
  - destruct (lines ed !! idx) as [line|]; [|discriminate].
    cbn [mbind option_bind]. destruct (isSomeB _); [|now intros [= <-]].
    intros [= <-]. unfold onTab. apply nonempty_length.
    destruct (shiftKey e); cbn [lines edited].
    + destruct (test _ line); rewrite ?length_insert; now apply nonempty_length.
    + rewrite length_insert. now apply nonempty_length.
  - intros [= <-]. now rewrite onArrows_lines.
  - intros [= <-]. now rewrite onArrows_lines.
  - intros [= <-]. now rewrite onArrows_lines.
Qed.

Lemma handlePaste_nonempty
    (opts : Options) (ed ed' : Editor) (selection text : str) (c idx : nat) :
  lines ed <> [] -> handlePaste opts ed selection text c idx = Some ed' ->
  lines ed' <> [].
Proof.
  intros Hne. unfold handlePaste.
  destruct (includesLf selection); [now intros [= <-]|].
  destruct (_ || _); [now intros [= <-]|].
  destruct (lines ed !! idx) as [line|]; [|discriminate]. cbn [mbind option_bind].
  intros [= <-]. cbn [lines edited]. apply nonempty_length.
  apply nonempty_length in Hne.
  destruct (_ <? _)%nat;
    rewrite ?splice_length, ?length_app, ?length_insert; simpl length; lia.
Qed.

Lemma deleteCurrentSelection_nonempty
    (ed ed' : Editor) (aIdx aOff fIdx fOff : nat) :
  deleteCurrentSelection ed aIdx aOff fIdx fOff = Some ed' -> lines ed' <> [].
Proof.
  unfold deleteCurrentSelection. intros H.
  apply bind_Some in H as (startLine & _ & H).
  apply bind_Some in H as (endLine & _ & H).
  injection H as <-. cbn [lines edited].
  match goal with |- (if (length ?n =? 0)%nat then _ else _) <> _ =>
    destruct (length n =? 0)%nat eqn:E; [discriminate|];
    apply Nat.eqb_neq in E; apply nonempty_length; lia
  end.
Qed.

(** Of the extension API only [deleteLines] can shorten the document. *)
Lemma apiCall_nonempty (ed ed' : Editor) (c : ApiCall) :
  (forall start count, c <> deleteLines start count) ->
  lines ed <> [] -> apiCall ed c = Some ed' -> lines ed' <> [].
Proof.
  intros Hc Hne. destruct c as [next|i s|i s|start count|i k]; cbn [apiCall].
  - intros [= <-]. apply splitLines_nonempty.
  - destruct (i <? length (lines ed))%nat.
    + intros [= <-]. cbn [lines withLines]. apply nonempty_length.
      rewrite length_insert. now apply nonempty_length.
    + destruct (i =? length (lines ed))%nat; [|discriminate].
      intros [= <-]. cbn [lines withLines]. apply nonempty_length.
      rewrite length_app. simpl. lia.
  - intros [= <-]. cbn [lines withLines]. apply nonempty_length.
    unfold spliceZ. rewrite splice_length. simpl. lia.
  - now destruct (Hc start count).
  - now intros [= <-].
Qed.

(** C1 at the extension API: [deleteLines] splices without the guard that
    [deleteCurrentSelection] has, and deleting the only line leaves a
    document with no line at all. *)
Theorem deleteLines_can_empty_the_document :
  lines (initial []) = [[]]
  /\ (lines <$> apiCall (initial []) (deleteLines 0 1)) = Some []
  /\ (lines <$> deleteCurrentSelection (initial []) 0 0 0 0) = Some [[]].
Proof. repeat split; reflexivity. Qed.

(** ** Display and source offsets *)

Section Offsets.

Lemma countShown_app (a b : list bool) :
  countShown (a ++ b) = (countShown a + countShown b)%nat.
Proof. induction a as [|x a IH]; simpl; [reflexivity | rewrite IH; lia]. Qed.

Lemma countShown_hidden (n : nat) : countShown (repeat false n) = O.
Proof. induction n; simpl; auto. Qed.

(** Induction over a string two code units at a time. *)
Lemma pairs_ind (P : list N -> Prop) :
  P [] -> (forall c, P [c]) ->
  (forall c d t, P t -> P (d :: t) -> P (c :: d :: t)) ->
  forall s, P s.
Proof.
  intros H0 H1 H2 s.
  assert (P s /\ forall c, P (c :: s)) as [H _]; [|exact H].
  induction s as [|d t [IHt IHdt]]; split; auto.
Qed.

Lemma shownFlags_length (s : str) : length (shownFlags s) = length s.
Proof.
  induction s as [|c|c d t IH1 IH2] using pairs_ind; try reflexivity.
  change (shownFlags (c :: d :: t))
    with (if isChar "*" c && isChar "*" d then false :: false :: shownFlags t
          else true :: shownFlags (d :: t)).
  destruct (_ && _); cbn [length]; rewrite ?IH1, ?IH2; reflexivity.
Qed.

Lemma shownFlags_count (s : str) : countShown (shownFlags s) = length (removeStars s).
Proof.
  induction s as [|c|c d t IH1 IH2] using pairs_ind; try reflexivity.
  change (shownFlags (c :: d :: t))
    with (if isChar "*" c && isChar "*" d then false :: false :: shownFlags t
          else true :: shownFlags (d :: t)).
  change (removeStars (c :: d :: t))
    with (if (c =? 42) && (d =? 42) then removeStars t else c :: removeStars (d :: t)).
  change (isChar "*" c) with (c =? 42). change (isChar "*" d) with (d =? 42).
  destruct (_ && _); cbn [countShown length]; rewrite ?IH1, ?IH2; reflexivity.
Qed.

(** What the loop of the mapper returns, in terms of the flags. *)
Lemma mapLoop_spec (rest : str) : forall i dc d,
  (dc <= d)%nat ->
  match mapLoop rest i dc d with
  | Some j => exists k, j = (i + k)%nat /\ (k < length rest)%nat
                        /\ countShown (take k (shownFlags rest)) = (d - dc)%nat
  | None => (countShown (shownFlags rest) + dc <= d)%nat
  end.
Proof.
  induction rest as [|c|c e t IH1 IH2] using pairs_ind; intros i dc d Hd.
  - simpl. lia.
  - simpl. destruct (dc =? d)%nat eqn:E.
    + apply Nat.eqb_eq in E. exists O. simpl. repeat split; lia.
    + apply Nat.eqb_neq in E. lia.
  - change (mapLoop (c :: e :: t) i dc d)
      with (if isChar "*" c && isChar "*" e then mapLoop t (i + 2) dc d
            else if (dc =? d)%nat then Some i
                 else mapLoop (e :: t) (i + 1) (dc + 1) d).
    change (shownFlags (c :: e :: t))
      with (if isChar "*" c && isChar "*" e then false :: false :: shownFlags t
            else true :: shownFlags (e :: t)).
    destruct (_ && _).
    + specialize (IH1 (i + 2)%nat dc d Hd).
      destruct (mapLoop t (i + 2) dc d) as [j|].
      * destruct IH1 as (k & -> & Hk & Hc). exists (S (S k)).
        repeat split; [lia | simpl; lia | exact Hc].
      * exact IH1.
    + destruct (dc =? d)%nat eqn:E.
      * apply Nat.eqb_eq in E. exists O. simpl. repeat split; lia.
      * apply Nat.eqb_neq in E.
        specialize (IH2 (i + 1)%nat (dc + 1)%nat d ltac:(lia)).
        destruct (mapLoop (e :: t) (i + 1) (dc + 1) d) as [j|].
        -- destruct IH2 as (k & -> & Hk & Hc). exists (S k).
           repeat split; [lia | simpl in *; lia |].
           change (take (S k) (true :: shownFlags (e :: t)))
             with (true :: take k (shownFlags (e :: t))).
           cbn [countShown]. rewrite Hc. lia.
        -- cbn [countShown]. lia.
Qed.

Lemma cutAtSpace_trans (a b c : list N) :
  cutAtSpace a b -> cutAtSpace b c -> cutAtSpace a c.
Proof.
  intros [->|(m & x & -> & Hx)] [->|(m' & y & -> & Hy)].
  - now left.
  - right. now exists m', y.
  - right. now exists m, x.
  - right. exists (m ++ x :: m'), y. split; [|exact Hy].
    now rewrite <- app_assoc.
Qed.

Lemma remove_some (re : regex) (s : str) (gs : list (list N)) :
  exec re s = Some gs -> remove re s = drop (length (whole gs)) s.
Proof. intros H. unfold remove. now rewrite H. Qed.

Lemma remove_none (re : regex) (s : str) : exec re s = None -> remove re s = s.
Proof. intros H. unfold remove. now rewrite H. Qed.

(** Every structural pattern ends in [\s]. *)
Lemma exec_ends_in_space (re : regex) (s : str) (gs : list (list N)) :
  exec (re ++ [one isSpace]) s = Some gs ->
  exists m c, whole gs = m ++ [c] /\ isSpace c = true.
Proof.
  intros H. destruct (exec_sound _ _ _ H) as [Hf _].
  apply Forall2_app_inv_l in Hf as (gs0 & gl & _ & Hl & ->).
  inversion Hl as [|a g ? ? Hg Hnil]; subst. inversion Hnil; subst.
  destruct Hg as (Hall & Hlo & Hhi). simpl in Hlo, Hhi.
  destruct g as [|c [|? ?]]; simpl in Hlo, Hhi; try lia.
  simpl in Hall. rewrite andb_true_r in Hall.
  exists (concat gs0), c. split; [|exact Hall].
  unfold whole. rewrite concat_app. simpl. reflexivity.
Qed.

Lemma remove_cut (re : regex) (s : str) :
  cutAtSpace s (remove (re ++ [one isSpace]) s).
Proof.
  unfold remove. destruct (exec (re ++ [one isSpace]) s) as [gs|] eqn:E.
  - right. destruct (exec_ends_in_space _ _ _ E) as (m & c & Hw & Hc).
    exists m, c. split; [|exact Hc].
    rewrite (exec_prefix _ _ _ E) at 1. rewrite Hw. now rewrite <- app_assoc.
  - now left.
Qed.

Lemma removeStars_after (b : list N) (c : N) : forall m,
  isChar "*" c = false ->
  (length (removeStars b) <= length (removeStars (m ++ c :: b)))%nat.
Proof.
  intros m Hc. change (isChar "*" c) with (c =? 42) in Hc.
  induction m as [|x|x y t IH1 IH2] using pairs_ind.
  - simpl app. destruct b as [|d b']; [simpl; lia|].
    change (removeStars (c :: d :: b'))
      with (if (c =? 42) && (d =? 42) then removeStars b'
            else c :: removeStars (d :: b')).
    rewrite Hc. simpl andb. cbn [length]. lia.
  - change (removeStars ([x] ++ c :: b))
      with (if (x =? 42) && (c =? 42) then removeStars b
            else x :: removeStars ([] ++ c :: b)).
    rewrite Hc, andb_false_r. cbn [length].
    destruct b as [|d b']; [simpl; lia|].
    change (removeStars ([] ++ c :: d :: b'))
      with (if (c =? 42) && (d =? 42) then removeStars b'
            else c :: removeStars (d :: b')).
    rewrite Hc. simpl andb. cbn [length]. lia.
  - change (removeStars ((x :: y :: t) ++ c :: b))
      with (if (x =? 42) && (y =? 42) then removeStars (t ++ c :: b)
            else x :: removeStars ((y :: t) ++ c :: b)).
    destruct (_ && _); cbn [length]; lia.
Qed.

Lemma removeStars_cut (a b : list N) :
  cutAtSpace a b -> (length (removeStars b) <= length (removeStars a))%nat.
Proof.
  intros [->|(m & c & -> & Hc)]; [lia|].
  apply removeStars_after. now apply space_not_star.
Qed.

Lemma whole_le_length (re : regex) (line : str) (gs : list (list N)) :
  exec re line = Some gs -> (length (whole gs) <= length line)%nat.
Proof.
  intros E. apply exec_prefix in E.
  apply (f_equal (@length N)) in E. rewrite length_app in E. lia.
Qed.

Lemma prefix_le_length (line : str) : (getRemovedPrefixLength line <= length line)%nat.
Proof.
  unfold getRemovedPrefixLength.
  destruct (exec reAnyHeading line) eqn:Eh; [eauto using whole_le_length|].
  destruct (exec reTask line) eqn:Et; [eauto using whole_le_length|].
  destruct (exec reUl line) eqn:Eu; [eauto using whole_le_length|].
  destruct (exec reOl line) eqn:Eo; [eauto using whole_le_length|].
  destruct (exec reBq line) eqn:Eb; [eauto using whole_le_length|].
  lia.
Qed.

(** The text the display length is taken of is cut from the content the
    mapper walks. *)
Lemma content_cut (line : str) :
  cutAtSpace (drop (getRemovedPrefixLength line) line)
    (remove reBq (remove reOl (remove reUl (remove reTask
       (remove reAnyHeading line))))).
Proof.
  pose proof (remove_cut [star isSpace; one (isChar ">")]) as Cb.
  pose proof (remove_cut [star isSpace; plus isDigit; one (isChar ".")]) as Co.
  pose proof (remove_cut [star isSpace; one isBullet]) as Cu.
  pose proof (remove_cut [star isSpace; one isBullet; one isSpace; one (isChar "[");
                          one isBox; one (isChar "]")]) as Ct.
  change ([star isSpace; one (isChar ">")] ++ [one isSpace]) with reBq in Cb.
  change ([star isSpace; plus isDigit; one (isChar ".")] ++ [one isSpace])
    with reOl in Co.
  change ([star isSpace; one isBullet] ++ [one isSpace]) with reUl in Cu.
  change ([star isSpace; one isBullet; one isSpace; one (isChar "["); one isBox;
           one (isChar "]")] ++ [one isSpace]) with reTask in Ct.
  unfold getRemovedPrefixLength.
  destruct (exec reAnyHeading line) as [h|] eqn:Eh.
  { rewrite <- (remove_some _ _ _ Eh).
    eauto using cutAtSpace_trans. }
  rewrite (remove_none _ _ Eh).
  destruct (exec reTask line) as [t|] eqn:Et.
  { rewrite <- (remove_some _ _ _ Et). eauto using cutAtSpace_trans. }
  rewrite (remove_none _ _ Et).
  destruct (exec reUl line) as [u|] eqn:Eu.
  { rewrite <- (remove_some _ _ _ Eu). eauto using cutAtSpace_trans. }
  rewrite (remove_none _ _ Eu).
  destruct (exec reOl line) as [o|] eqn:Eo.
  { rewrite <- (remove_some _ _ _ Eo). eauto using cutAtSpace_trans. }
  rewrite (remove_none _ _ Eo).
  destruct (exec reBq line) as [b|] eqn:Eb.
  { rewrite <- (remove_some _ _ _ Eb). now left. }
  rewrite (remove_none _ _ Eb). now left.
Qed.

Lemma display_length_le (line : str) :
  (getDisplayContentLength line
   <= countShown (shownFlags (drop (getRemovedPrefixLength line) line)))%nat.
Proof.
  rewrite shownFlags_count. unfold getDisplayContentLength.
  apply removeStars_cut, content_cut.
Qed.

End Offsets.

(** Where the display hides no more than the one prefix the mapper
    skips, the round trip holds: for every display offset up to the
    display length of the line, the source index the mapper returns has
    exactly that many shown code units before it. *)
Lemma round_trip_on_single_prefix (L : str) (d : nat) :
  displayedContent L = drop (getRemovedPrefixLength L) L ->
  (d <= getDisplayContentLength L)%nat ->
  displayOffsetOfSourceIndex L (mapDisplayOffsetToSourceIndex L d) = d.
Proof.
  intros Hsingle Hd. pose proof (display_length_le L) as Hle.
  pose proof (prefix_le_length L) as Hp.
  unfold displayOffsetOfSourceIndex, mapDisplayOffsetToSourceIndex, sliceFrom.
  cbv zeta. rewrite Hsingle, length_drop.
  replace (length L - (length L - getRemovedPrefixLength L))%nat
    with (getRemovedPrefixLength L) by lia.
  set (P := getRemovedPrefixLength L) in *.
  set (content := drop P L) in *.
  pose proof (mapLoop_spec content O O d ltac:(lia)) as Hloop.
  destruct (mapLoop content 0 0 d) as [j|].
  - destruct Hloop as (k & -> & Hk & Hc).
    replace (P + (0 + k))%nat with (length (repeat false P) + k)%nat
      by (rewrite repeat_length; lia).
    rewrite take_app_add, countShown_app, countShown_hidden, Hc. lia.
  - rewrite take_ge.
    + rewrite countShown_app, countShown_hidden. lia.
    + rewrite length_app, repeat_length, shownFlags_length.
      subst content. rewrite length_drop. lia.
Qed.

Lemma round_trip_on_single_prefix_witness :
  displayOffsetOfSourceIndex (lit "- a**b**c")
    (mapDisplayOffsetToSourceIndex (lit "- a**b**c") 2) = 2%nat
  /\ mapDisplayOffsetToSourceIndex (lit "- a**b**c") 2 = 8%nat.
Proof.
  split.
  - apply (round_trip_on_single_prefix (lit "- a**b**c") 2); [reflexivity|].
    vm_compute. lia.
  - reflexivity.
Defined.

(** The display length strips every structural prefix in turn, the mapper
    only the first: on a heading that holds a list marker the display
    length is shorter than the content the mapper walks. *)
Lemma display_length_can_be_shorter :
  getDisplayContentLength (lit "# - foo") = 3%nat
  /\ countShown (shownFlags (drop (getRemovedPrefixLength (lit "# - foo")) (lit "# - foo")))
     = 5%nat.
Proof. split; reflexivity. Qed.

(** C3 fails on the code.  The display strips the structural prefixes
    one after the other, the mapper skips only the first that matches.
    The numbered heading [# 1. Introduction] is displayed as
    [Introduction], display length 12.  Display offset 5, between [o] and
    [d], is mapped to source index 7, which has two displayed code units
    before it; the index with five before it is 10.  So a selection of
    the displayed [ro] (display offsets 3 to 5) deletes the two code
    units at source indices 5 and 6, [In]. *)
Theorem mapper_skips_only_the_first_prefix :
  let L := lit "# 1. Introduction" in
  displayedContent L = lit "Introduction"
  /\ textContent (defaultRendered L) = lit "Introduction"
  /\ getDisplayContentLength L = 12%nat
  /\ getRemovedPrefixLength L = 2%nat
  /\ mapDisplayOffsetToSourceIndex L 5 = 7%nat
  /\ displayOffsetOfSourceIndex L (mapDisplayOffsetToSourceIndex L 5) = 2%nat
  /\ displayOffsetOfSourceIndex L 10 = 5%nat
  /\ (lines <$> deleteCurrentSelection (focused L 0) 0 3 0 5)
     = Some [lit "# 1. troduction"].
Proof. cbv zeta. repeat split; vm_compute; reflexivity. Qed.

(** ** Ordered lists *)

Lemma digit_not_space (d : N) : isDigit d = true -> isSpace d = false.
Proof.
  intros H. destruct (isSpace d) eqn:E; [|reflexivity].
  apply space_not_digit in E. congruence.
Qed.

Lemma digit_not_bullet (d : N) : isDigit d = true -> isBullet d = false.
Proof.
  unfold isDigit, isBullet, isChar. simpl N_of_ascii. intros H. boolN H.
  apply orb_false_iff. split; apply N.eqb_neq; lia.
Qed.

Lemma ol_line_shape (line : str) :
  kind (getListMeta line) = Some ol ->
  exists ds c rest,
    exec reTask line = None /\ exec reUl line = None
    /\ exec reOl line = Some [takeWhile isSpace line; ds; [46]; [c]]
    /\ line = takeWhile isSpace line ++ ds ++ 46 :: c :: rest.
Proof.
  rewrite kind_spec.
  destruct (test reTask line) eqn:Et; [discriminate|].
  destruct (test reUl line) eqn:Eu; [discriminate|].
  destruct (test reOl line) eqn:Eo;
    [|destruct (test reBq line); discriminate].
  intros _. apply test_false in Et, Eu.
  rewrite test_exec, exec_reOl in Eo. rewrite exec_reOl.
  pose proof (takeWhile_dropWhile isSpace line) as Hl.
  pose proof (takeWhile_dropWhile isDigit (dropWhile isSpace line)) as Hd.
  destruct (takeWhile isDigit (dropWhile isSpace line)) as [|d ds]; [discriminate|].
  destruct (dropWhile isDigit (dropWhile isSpace line)) as [|dot [|c rest]];
    try discriminate.
  destruct (isChar "." dot) eqn:Edot; [|discriminate].
  destruct (isSpace c); [|discriminate].
  apply N.eqb_eq in Edot. change (N_of_ascii ".") with 46 in Edot. subst dot.
  exists (d :: ds), c, rest. repeat split; auto.
  rewrite Hd. now symmetry.
Qed.

(** A marker the extractor builds for a numbered item reads back as a
    numbered item with that number. *)
Lemma ol_marker_reads_back (ws : list N) (m : N) :
  forallb isSpace ws = true -> m < 2 ^ 53 ->
  kind (getListMeta (ws ++ dec m ++ lit ". ")) = Some ol
  /\ number (getListMeta (ws ++ dec m ++ lit ". ")) = Some (Finite m).
Proof.
  intros Hws Hm.
  destruct (dec_nonempty m) as (d & ds & Hdec).
  pose proof (dec_digits m) as Hdig.
  assert (isDigit d = true) as Hd.
  { rewrite Hdec in Hdig. simpl in Hdig. now apply andb_true_iff in Hdig as [? _]. }
  assert (dropWhile isSpace (ws ++ dec m ++ lit ". ") = dec m ++ lit ". ") as Hdrop.
  { rewrite Hdec. simpl app.
    apply dropWhile_app_stop; [exact Hws | now apply digit_not_space]. }
  assert (takeWhile isSpace (ws ++ dec m ++ lit ". ") = ws) as Htake.
  { rewrite Hdec. simpl app.
    apply takeWhile_app_stop; [exact Hws | now apply digit_not_space]. }
  assert (exec reTask (ws ++ dec m ++ lit ". ") = None) as Ht.
  { rewrite exec_reTask, Hdrop, Hdec. simpl app.
    destruct (ds ++ lit ". ") as [|c1 [|o [|x [|cl [|c2 t]]]]];
      rewrite ?(digit_not_bullet _ Hd); reflexivity. }
  assert (exec reUl (ws ++ dec m ++ lit ". ") = None) as Hu.
  { rewrite exec_reUl, Hdrop, Hdec. simpl app.
    destruct (ds ++ lit ". ") as [|c1 t];
      rewrite ?(digit_not_bullet _ Hd); reflexivity. }
  assert (exec reOl (ws ++ dec m ++ lit ". ") = Some [ws; dec m; [46]; [32]]) as Ho.
  { rewrite exec_reOl, Hdrop, Htake.
    change (lit ". ") with (46 :: [32]).
    rewrite (takeWhile_app_stop isDigit (dec m) 46 [32] Hdig eq_refl).
    rewrite (dropWhile_app_stop isDigit (dec m) 46 [32] Hdig eq_refl).
    rewrite Hdec. reflexivity. }
  unfold getListMeta. rewrite Ht, Hu, Ho. cbn [kind number group nth Nat.sub].
  split; [reflexivity|].
  unfold parseInt. rewrite dec_value. now rewrite roundToDouble_safe.
Qed.

(** C2, as the code has it: on a numbered item whose number n is a
    double with n + 1 below 2^53, the current marker is the indentation,
    the decimal numeral of n, a dot and a space, and the next marker the
    same with n + 1; read back by the extractor they carry the numbers n
    and n + 1.  Enter at the end of the one line [1. a] gives the lines
    [1. a] and [2. ] with the second active and the caret after its
    marker; Enter again on that empty item ends the list and leaves the
    lines [1. a] and the empty line. *)
Theorem ordered_marker_increments (line : str) (n : N) :
  kind (getListMeta line) = Some ol ->
  number (getListMeta line) = Some (Finite n) ->
  n + 1 < 2 ^ 53 ->
  (exists ds c rest,
      line = indent (getListMeta line) ++ ds ++ 46 :: c :: rest
      /\ digitsValue ds = n)
  /\ currentMarker (getListMeta line) = indent (getListMeta line) ++ dec n ++ lit ". "
  /\ nextMarker (getListMeta line) = indent (getListMeta line) ++ dec (n + 1) ++ lit ". "
  /\ number (getListMeta (currentMarker (getListMeta line))) = Some (Finite n)
  /\ number (getListMeta (nextMarker (getListMeta line))) = Some (Finite (n + 1))
  /\ (lines <$> pressOnActive defaultOptions Enter (focused (lit "1. a") 4))
     = Some [lit "1. a"; lit "2. "]
  /\ (activeLineIndex <$> pressOnActive defaultOptions Enter (focused (lit "1. a") 4))
     = Some (Some 1%nat)
  /\ (cursorPosition <$> pressOnActive defaultOptions Enter (focused (lit "1. a") 4))
     = Some (Some 3%nat)
  /\ (lines <$> enterTwiceOnFirstItem) = Some [lit "1. a"; []].
Proof.
  intros Hk Hn Hsafe.
  destruct (ol_line_shape line Hk) as (ds & c & rest & Ht & Hu & Ho & Hline).
  rewrite getListMeta_indent.
  assert (number (getListMeta line) = Some (parseInt ds)) as Hnum.
  { unfold getListMeta. now rewrite Ht, Hu, Ho. }
  rewrite Hnum in Hn. injection Hn as Hn.
  assert (digitsValue ds = n) as Hval.
  { apply roundToDouble_exact; [lia | exact Hn]. }
  assert (currentMarker (getListMeta line) = takeWhile isSpace line ++ dec n ++ lit ". ")
    as Hcur.
  { unfold getListMeta. rewrite Ht, Hu, Ho. cbn [currentMarker group nth Nat.sub].
    rewrite Hn, toString_safe by lia. reflexivity. }
  assert (nextMarker (getListMeta line)
          = takeWhile isSpace line ++ dec (n + 1) ++ lit ". ") as Hnext.
  { unfold getListMeta. rewrite Ht, Hu, Ho. cbn [nextMarker group nth Nat.sub].
    rewrite Hn. cbn [add1]. rewrite roundToDouble_safe by lia.
    rewrite toString_safe by lia. reflexivity. }
  split; [exists ds, c, rest; now split|].
  split; [exact Hcur|]. split; [exact Hnext|].
  rewrite Hcur, Hnext.
  split; [apply ol_marker_reads_back; [apply takeWhile_all | lia]|].
  split; [apply ol_marker_reads_back; [apply takeWhile_all | lia]|].
  repeat split; reflexivity.
Qed.

Lemma ordered_marker_increments_witness :
  currentMarker (getListMeta (lit "  41. x")) = lit "  " ++ dec 41 ++ lit ". "
  /\ nextMarker (getListMeta (lit "  41. x")) = lit "  " ++ dec 42 ++ lit ". ".
Proof.
  destruct (ordered_marker_increments (lit "  41. x") 41)
    as (_ & Hc & Hn & _).
  - reflexivity.
  - reflexivity.
  - reflexivity.
  - split; [exact Hc | exact Hn].
Defined.

(** C2 as stated fails: the second Enter is pressed on an empty item and
    ends the list instead of making a third item. *)
Lemma enter_twice_does_not_make_a_third_item :
  (lines <$> enterTwiceOnFirstItem) <> Some [lit "1. a"; lit "2. "; lit "3. "].
Proof. vm_compute. discriminate. Qed.

(** Past 2^53 the doubles are further apart than 1 and the next marker
    repeats the number. *)
Lemma next_marker_past_safe_integers :
  number (getListMeta (lit "9007199254740992. a")) = Some (Finite (2 ^ 53))
  /\ nextMarker (getListMeta (lit "9007199254740992. a")) = lit "9007199254740992. ".
Proof. split; vm_compute; reflexivity. Qed.

(** * Further properties *)

(** ** Headings and paragraphs *)

Section Headings.

Lemma all_hashes (g : list N) :
  forallb (isChar "#") g = true -> g = repeat 35 (length g).
Proof.
  induction g as [|c g IH]; simpl; [reflexivity|].
  intros H. apply andb_true_iff in H as [Hc Hg].
  apply N.eqb_eq in Hc. change (N_of_ascii "#") with 35 in Hc. subst c.
  now rewrite <- IH.
Qed.

Lemma hashes_run (n : nat) (c : N) (rest : list N) :
  isSpace c = true ->
  takeWhile (isChar "#") (repeat 35 n ++ c :: rest) = repeat 35 n.
Proof.
  intros Hc. apply takeWhile_app_stop.
  - induction n; simpl; auto.
  - destruct (isChar "#" c) eqn:E; [|reflexivity].
    apply hash_not_space in E. congruence.
Qed.

(** A bounded run of hashes and one white space: the pattern matches
    exactly the lines that begin so. *)
Lemma exec_hashes (lo : nat) (hi : option nat) (L : str) :
  (1 <= lo)%nat ->
  is_Some (exec [Atom (isChar "#") lo hi; one isSpace] L) <->
  exists n c rest,
    (lo <= n)%nat /\ match hi with Some h => (n <= h)%nat | None => True end
    /\ L = repeat 35 n ++ c :: rest /\ isSpace c = true.
Proof.
  intros Hlo. split.
  - intros [gs E]. destruct (exec_sound _ _ _ E) as [Hf [rest Hrest]].
    inversion Hf as [|a g ? gs' Hg Hf']; subst.
    inversion Hf' as [|a' g' ? gs'' Hg' Hf'']; subst. inversion Hf''; subst.
    destruct Hg as (Hall & Hl & Hh). destruct Hg' as (Hall' & Hl' & Hh').
    cbn [cls Regex.lo Regex.hi one] in *.
    destruct g' as [|c [|? ?]]; simpl in Hl', Hh'; try lia.
    simpl in Hall'. rewrite andb_true_r in Hall'.
    exists (length g), c, rest. repeat split; auto.
    rewrite <- (all_hashes g Hall). cbn [concat].
    now rewrite app_nil_r, <- app_assoc.
  - intros (n & c & rest & Hn & Hh & -> & Hc).
    rewrite exec_cons. cbv zeta. cbn [cls Regex.lo Regex.hi].
    rewrite (hashes_run n c rest Hc), repeat_length.
    assert (match hi with Some h => Nat.min h n | None => n end = n) as ->.
    { destruct hi; lia. }
    apply Nat.ltb_ge in Hn as Hn'. rewrite Hn'.
    erewrite backoff_hit; [eauto|].
    replace n with (length (repeat 35 n)) at 1 by apply repeat_length.
    rewrite drop_app_length, exec_one_cons, Hc. reflexivity.
Qed.

Lemma hashes_unique (n m : nat) (c d : N) (r1 r2 : list N) :
  isSpace c = true -> isSpace d = true ->
  repeat 35 n ++ c :: r1 = repeat 35 m ++ d :: r2 -> n = m.
Proof.
  intros Hc Hd H.
  apply (f_equal (fun s => length (takeWhile (isChar "#") s))) in H.
  now rewrite !hashes_run, !repeat_length in H.
Qed.

Lemma test_reHeading (n : nat) (L : str) :
  (1 <= n)%nat ->
  test (reHeading n) L = true <->
  exists c rest, L = repeat 35 n ++ c :: rest /\ isSpace c = true.
Proof.
  intros Hn. rewrite test_true. unfold reHeading, exactly.
  change (exists gs, exec [Atom (isChar "#") n (Some n); one isSpace] L = Some gs)
    with (is_Some (exec [Atom (isChar "#") n (Some n); one isSpace] L)).
  rewrite (exec_hashes n (Some n) L Hn). split.
  - intros (k & c & rest & Hk & Hk' & -> & Hc).
    assert (k = n) as -> by lia. eauto.
  - intros (c & rest & -> & Hc). exists n, c, rest. repeat split; auto.
Qed.

End Headings.

(** X1: a line is a heading of level n (1 to 4) exactly when it begins
    with n hashes followed by one white-space code unit. *)
Theorem heading_level_iff (n : nat) (L : str) :
  (1 <= n <= 4)%nat ->
  getMarkdownType L = headingOf n <->
  exists c rest, L = repeat 35 n ++ c :: rest /\ isSpace c = true.
Proof.
  intros Hn. rewrite <- (test_reHeading n L) by lia.
  unfold getMarkdownType.
  destruct (test (reHeading 1) L) eqn:E1.
  { apply test_reHeading in E1 as (c & r & HL & Hc); [|lia]. split.
    - destruct n as [|[|[|[|[|?]]]]]; simpl; try lia; try discriminate. intros _.
      apply test_reHeading; eauto.
    - intros H. apply test_reHeading in H as (c' & r' & HL' & Hc'); [|lia].
      rewrite HL in HL'. apply hashes_unique in HL'; auto. now subst n. }
  destruct (test (reHeading 2) L) eqn:E2.
  { apply test_reHeading in E2 as (c & r & HL & Hc); [|lia]. split.
    - destruct n as [|[|[|[|[|?]]]]]; simpl; try lia; try discriminate. intros _.
      apply test_reHeading; eauto.
    - intros H. apply test_reHeading in H as (c' & r' & HL' & Hc'); [|lia].
      rewrite HL in HL'. apply hashes_unique in HL'; auto. now subst n. }
  destruct (test (reHeading 3) L) eqn:E3.
  { apply test_reHeading in E3 as (c & r & HL & Hc); [|lia]. split.
    - destruct n as [|[|[|[|[|?]]]]]; simpl; try lia; try discriminate. intros _.
      apply test_reHeading; eauto.
    - intros H. apply test_reHeading in H as (c' & r' & HL' & Hc'); [|lia].
      rewrite HL in HL'. apply hashes_unique in HL'; auto. now subst n. }
  destruct (test (reHeading 4) L) eqn:E4.
  { apply test_reHeading in E4 as (c & r & HL & Hc); [|lia]. split.
    - destruct n as [|[|[|[|[|?]]]]]; simpl; try lia; try discriminate. intros _.
      apply test_reHeading; eauto.
    - intros H. apply test_reHeading in H as (c' & r' & HL' & Hc'); [|lia].
      rewrite HL in HL'. apply hashes_unique in HL'; auto. now subst n. }
  split.
  - intros H. exfalso.
    destruct (test reTask L), (test reUl L), (test reOl L), (test reBq L);
      destruct n as [|[|[|[|[|?]]]]]; simpl in H; try lia; discriminate.
  - intros H. destruct n as [|[|[|[|[|?]]]]]; try lia; congruence.
Qed.

Lemma heading_level_iff_witness :
  getMarkdownType (lit "### Title") = h3.
Proof.
  apply (heading_level_iff 3 (lit "### Title")); [lia|].
  exists 32, (lit "Title"). split; reflexivity.
Defined.

Lemma whole_positive (re : regex) (s : str) (gs : list (list N)) :
  exec (re ++ [one isSpace]) s = Some gs -> (0 < length (whole gs))%nat.
Proof.
  intros E. destruct (exec_ends_in_space _ _ _ E) as (m & c & -> & _).
  rewrite length_app. simpl. lia.
Qed.

Lemma anyHeading_iff (L : str) :
  is_Some (exec reAnyHeading L) <->
  exists n, (1 <= n <= 4)%nat /\ test (reHeading n) L = true.
Proof.
  unfold reAnyHeading, between. rewrite (exec_hashes 1 (Some 4%nat) L) by lia. split.
  - intros (n & c & rest & Hn & Hh & HL & Hc). exists n. split; [lia|].
    apply test_reHeading; [lia | eauto].
  - intros (n & Hn & H). apply test_reHeading in H as (c & rest & HL & Hc); [|lia].
    exists n, c, rest. repeat split; auto; lia.
Qed.

Lemma prefix_zero_iff (L : str) :
  getRemovedPrefixLength L = O <->
  exec reAnyHeading L = None /\ exec reTask L = None /\ exec reUl L = None
  /\ exec reOl L = None /\ exec reBq L = None.
Proof.
  pose proof (whole_positive [between 1 4 (isChar "#")] L) as Ph.
  pose proof (whole_positive [star isSpace; one isBullet; one isSpace; one (isChar "[");
                              one isBox; one (isChar "]")] L) as Pt.
  pose proof (whole_positive [star isSpace; one isBullet] L) as Pu.
  pose proof (whole_positive [star isSpace; plus isDigit; one (isChar ".")] L) as Po.
  pose proof (whole_positive [star isSpace; one (isChar ">")] L) as Pb.
  change ([between 1 4 (isChar "#")] ++ [one isSpace]) with reAnyHeading in Ph.
  change ([star isSpace; one isBullet; one isSpace; one (isChar "["); one isBox;
           one (isChar "]")] ++ [one isSpace]) with reTask in Pt.
  change ([star isSpace; one isBullet] ++ [one isSpace]) with reUl in Pu.
  change ([star isSpace; plus isDigit; one (isChar ".")] ++ [one isSpace])
    with reOl in Po.
  change ([star isSpace; one (isChar ">")] ++ [one isSpace]) with reBq in Pb.
  unfold getRemovedPrefixLength. split.
  - destruct (exec reAnyHeading L) as [h|]; [specialize (Ph h eq_refl); lia|].
    destruct (exec reTask L) as [t|]; [specialize (Pt t eq_refl); lia|].
    destruct (exec reUl L) as [u|]; [specialize (Pu u eq_refl); lia|].
    destruct (exec reOl L) as [o|]; [specialize (Po o eq_refl); lia|].
    destruct (exec reBq L) as [b|]; [specialize (Pb b eq_refl); lia|].
    auto.
  - intros (-> & -> & -> & -> & ->). reflexivity.
Qed.

Lemma paragraph_prefix_iff (L : str) :
  getMarkdownType L = p <-> getRemovedPrefixLength L = O.
Proof.
  rewrite prefix_zero_iff. rewrite <- !test_false.
  assert (test reAnyHeading L = false <->
          test (reHeading 1) L = false /\ test (reHeading 2) L = false
          /\ test (reHeading 3) L = false /\ test (reHeading 4) L = false) as ->.
  { rewrite test_false. split.
    - intros Hn. repeat split;
        match goal with |- test (reHeading ?n) L = false =>
          destruct (test (reHeading n) L) eqn:E; [|reflexivity];
          assert (is_Some (exec reAnyHeading L)) as [? Hs]
            by (apply anyHeading_iff; exists n; split; [lia | exact E]);
          congruence
        end.
    - intros (E1 & E2 & E3 & E4).
      destruct (exec reAnyHeading L) as [h|] eqn:E; [|reflexivity].
      assert (is_Some (exec reAnyHeading L)) as Hs by (rewrite E; eauto).
      apply anyHeading_iff in Hs as (n & Hn & Ht).
      destruct n as [|[|[|[|[|?]]]]]; try lia; congruence. }
  unfold getMarkdownType.
  destruct (test (reHeading 1) L), (test (reHeading 2) L), (test (reHeading 3) L),
    (test (reHeading 4) L), (test reTask L), (test reUl L), (test reOl L),
    (test reBq L); intuition congruence.
Qed.

(** X2: the classifier calls a line a paragraph exactly when no
    structural prefix is stripped from it. *)
Theorem paragraph_iff_no_prefix (L : str) :
  getMarkdownType L = p <-> getRemovedPrefixLength L = O.
Proof. exact (paragraph_prefix_iff L). Qed.

Lemma blockquote_kind (L : str) :
  getMarkdownType L = blockquote -> kind (getListMeta L) = Some bq.
Proof.
  unfold getMarkdownType. rewrite kind_spec.
  destruct (test (reHeading 1) L), (test (reHeading 2) L), (test (reHeading 3) L),
    (test (reHeading 4) L), (test reTask L), (test reUl L), (test reOl L),
    (test reBq L); try discriminate; reflexivity.
Qed.


(** ** Markers *)

Section Markers.

Lemma bullet_not_space (b : N) : isBullet b = true -> isSpace b = false.
Proof.
  intros H. destruct (isSpace b) eqn:E; [|reflexivity].
  apply space_not_bullet in E. congruence.
Qed.

Lemma space_not_bracket (c : N) : isSpace c = true -> isChar "[" c = false.
Proof.
  unfold isSpace, isChar. change (N_of_ascii "[") with 91. intros H. boolN H.
  apply N.eqb_neq. lia.
Qed.

Lemma bullet_not_bracket (b : N) : isBullet b = true -> isChar "[" b = false.
Proof.
  unfold isBullet, isChar. simpl N_of_ascii. intros H. boolN H.
  apply N.eqb_neq. lia.
Qed.

Lemma not_heading_if_list (line : str) :
  kind (getListMeta line) <> None -> exec reAnyHeading line = None.
Proof.
  intros Hk. destruct (exec reAnyHeading line) as [h|] eqn:E; [|reflexivity].
  exfalso. apply Hk.
  assert (is_Some (exec reAnyHeading line)) as Hs by (rewrite E; eauto).
  apply anyHeading_iff in Hs as (n & Hn & Ht).
  apply (heading_line_no_list n); [lia | exact Ht].
Qed.

Lemma ul_line_shape (line : str) :
  kind (getListMeta line) = Some ul ->
  exists b c rest,
    exec reTask line = None
    /\ exec reUl line = Some [takeWhile isSpace line; [b]; [c]]
    /\ dropWhile isSpace line = b :: c :: rest
    /\ isBullet b = true /\ isSpace c = true.
Proof.
  rewrite kind_spec.
  destruct (test reTask line) eqn:Et; [discriminate|].
  destruct (test reUl line) eqn:Eu;
    [|destruct (test reOl line), (test reBq line); discriminate].
  intros _. apply test_false in Et.
  rewrite test_exec, exec_reUl in Eu. rewrite exec_reUl.
  destruct (dropWhile isSpace line) as [|b [|c rest]]; try discriminate.
  destruct (isBullet b) eqn:Hb; [|discriminate].
  destruct (isSpace c) eqn:Hc; [|discriminate].
  exists b, c, rest. repeat split; auto.
Qed.

Lemma bq_line_shape (line : str) :
  kind (getListMeta line) = Some bq ->
  exists c rest,
    exec reTask line = None /\ exec reUl line = None /\ exec reOl line = None
    /\ exec reBq line = Some [takeWhile isSpace line; [62]; [c]]
    /\ dropWhile isSpace line = 62 :: c :: rest /\ isSpace c = true.
Proof.
  rewrite kind_spec.
  destruct (test reTask line) eqn:Et; [discriminate|].
  destruct (test reUl line) eqn:Eu; [discriminate|].
  destruct (test reOl line) eqn:Eo; [discriminate|].
  destruct (test reBq line) eqn:Eb; [|discriminate].
  intros _. apply test_false in Et, Eu, Eo.
  rewrite test_exec, exec_reBq in Eb. rewrite exec_reBq.
  destruct (dropWhile isSpace line) as [|b [|c rest]]; try discriminate.
  destruct (isChar ">" b) eqn:Hb; [|discriminate].
  destruct (isSpace c) eqn:Hc; [|discriminate].
  apply N.eqb_eq in Hb. change (N_of_ascii ">") with 62 in Hb. subst b.
  exists c, rest. repeat split; auto.
Qed.

(** Except on ordered items, both markers are as long as the structural
    prefix of the line. *)
Lemma marker_length (line : str) :
  kind (getListMeta line) = Some ul \/ kind (getListMeta line) = Some task
  \/ kind (getListMeta line) = Some bq ->
  length (currentMarker (getListMeta line)) = getRemovedPrefixLength line
  /\ length (nextMarker (getListMeta line)) = getRemovedPrefixLength line
  /\ (2 <= getRemovedPrefixLength line)%nat.
Proof.
  intros Hk.
  assert (exec reAnyHeading line = None) as Hh.
  { apply not_heading_if_list. destruct Hk as [H|[H|H]]; rewrite H; discriminate. }
  unfold getRemovedPrefixLength. rewrite Hh.
  destruct Hk as [Hk|[Hk|Hk]].
  - destruct (ul_line_shape line Hk) as (b & c & rest & Ht & Hu & _).
    unfold getListMeta. rewrite Ht, Hu. unfold whole.
    cbn [currentMarker nextMarker group nth Nat.sub concat].
    rewrite !length_app. simpl. lia.
  - destruct (task_line_shape line Hk) as (b & c1 & x & c2 & rest & _ & _ & _ & _ & _ & He).
    unfold getListMeta. rewrite He. unfold whole.
    cbn [currentMarker nextMarker group nth Nat.sub concat].
    rewrite !length_app. destruct (search reChecked line); simpl; lia.
  - destruct (bq_line_shape line Hk) as (c & rest & Ht & Hu & Ho & Hb & _).
    unfold getListMeta. rewrite Ht, Hu, Ho, Hb. unfold whole.
    cbn [currentMarker nextMarker group nth Nat.sub concat].
    rewrite !length_app. simpl. lia.
Qed.

End Markers.

(** X3: on an unordered, task or quote line, Backspace with the caret
    inside the marker (and not the merge case) leaves on the line exactly
    what follows its structural prefix, keeps the line active and puts
    the pending caret at 0. *)
Theorem backspace_strips_whole_marker
    (opts : Options) (ed : Editor) (idx c : nat) (line : str) (shift : bool) :
  isSelecting ed = false ->
  lines ed !! idx = Some line ->
  kind (getListMeta line) = Some ul \/ kind (getListMeta line) = Some task
  \/ kind (getListMeta line) = Some bq ->
  (c <= length (currentMarker (getListMeta line)))%nat ->
  ~ (c = O /\ 0 < idx)%nat ->
  handleKeyDown opts ed {| key := Backspace; shiftKey := shift; caret := c |} idx
  = Some (edited ed (<[idx := drop (getRemovedPrefixLength line) line]> (lines ed))
                 0 idx)
  /\ (2 <= getRemovedPrefixLength line <= length line)%nat.
Proof.
  intros Hsel Hline Hk Hc Hnot.
  destruct (marker_length line Hk) as (Hcur & _ & Hp).
  split; [|split; [exact Hp | apply prefix_le_length]].
  apply backspace_in_marker_strips_prefix; auto; try lia.
  destruct Hk as [H|[H|H]]; rewrite H; discriminate.
Qed.

Lemma backspace_strips_whole_marker_witness :
  handleKeyDown defaultOptions (focused (45 :: 9 :: lit "[X] milk") 3)
    {| key := Backspace; shiftKey := false; caret := 3 |} 0
  = Some {| lines := [lit "milk"]; activeLineIndex := Some 0%nat;
            cursorPosition := Some 0%nat; isDirty := true; isSelecting := false |}.
Proof.
  apply (backspace_strips_whole_marker defaultOptions
           (focused (45 :: 9 :: lit "[X] milk") 3) 0 3 (45 :: 9 :: lit "[X] milk") false).
  - reflexivity.
  - reflexivity.
  - right. left. reflexivity.
  - vm_compute. lia.
  - intros [H _]. discriminate.
Defined.

(** ** Continuing and ending a list *)

Section Continuation.

Lemma search_skip (pre s : list N) :
  forallb (fun c => negb (isChar "[" c)) pre = true ->
  search reChecked (pre ++ s) = search reChecked s.
Proof.
  induction pre as [|c pre IH]; simpl app; intros H; [reflexivity|].
  simpl in H. apply andb_true_iff in H as [Hc Hpre].
  apply negb_true_iff in Hc.
  change (search reChecked (c :: pre ++ s))
    with (match exec reChecked (c :: pre ++ s) with
          | Some _ => true
          | None => search reChecked (pre ++ s)
          end).
  unfold reChecked at 1. rewrite exec_one_cons, Hc. now apply IH.
Qed.

Lemma spaces_not_bracket (ws : list N) :
  forallb isSpace ws = true -> forallb (fun c => negb (isChar "[" c)) ws = true.
Proof.
  induction ws as [|c ws IH]; simpl; [reflexivity|].
  intros H. apply andb_true_iff in H as [Hc Hws].
  rewrite (space_not_bracket c Hc). simpl. now apply IH.
Qed.

(** The markers the extractor builds, read as lines of their own. *)
Lemma task_marker_meta (ws : list N) (b : N) :
  forallb isSpace ws = true -> isBullet b = true ->
  getListMeta (ws ++ b :: lit " [ ] ")
  = {| kind := Some task; indent := ws;
       currentMarker := ws ++ b :: lit " [ ] ";
       nextMarker := ws ++ b :: lit " [ ] "; number := None |}.
Proof.
  intros Hws Hb. pose proof (bullet_not_space b Hb) as Hns.
  assert (search reChecked (ws ++ b :: lit " [ ] ") = false) as Hs.
  { change (ws ++ b :: lit " [ ] ") with (ws ++ [b] ++ lit " [ ] ").
    rewrite app_assoc, search_skip; [reflexivity|].
    rewrite forallb_app, (spaces_not_bracket ws Hws). simpl.
    now rewrite (bullet_not_bracket b Hb). }
  unfold getListMeta. rewrite exec_reIndent, exec_reTask, Hs.
  rewrite (dropWhile_app_stop isSpace ws b _ Hws Hns).
  rewrite (takeWhile_app_stop isSpace ws b _ Hws Hns).
  change (lit " [ ] ") with [32; 91; 32; 93; 32]. rewrite Hb.
  reflexivity.
Qed.

Lemma ul_marker_meta (ws : list N) (b : N) :
  forallb isSpace ws = true -> isBullet b = true ->
  getListMeta (ws ++ [b; 32])
  = {| kind := Some ul; indent := ws; currentMarker := ws ++ [b; 32];
       nextMarker := ws ++ [b; 32]; number := None |}.
Proof.
  intros Hws Hb. pose proof (bullet_not_space b Hb) as Hns.
  unfold getListMeta. rewrite exec_reIndent, exec_reTask, exec_reUl.
  rewrite (dropWhile_app_stop isSpace ws b _ Hws Hns).
  rewrite (takeWhile_app_stop isSpace ws b _ Hws Hns).
  rewrite Hb. change (isSpace 32) with true. cbn [andb group nth Nat.sub].
  reflexivity.
Qed.

Lemma bq_marker_meta (ws : list N) :
  forallb isSpace ws = true ->
  getListMeta (ws ++ [62; 32])
  = {| kind := Some bq; indent := ws; currentMarker := ws ++ [62; 32];
       nextMarker := ws ++ [62; 32]; number := None |}.
Proof.
  intros Hws.
  unfold getListMeta. rewrite exec_reIndent, exec_reTask, exec_reUl, exec_reOl, exec_reBq.
  rewrite (dropWhile_app_stop isSpace ws 62 _ Hws eq_refl).
  rewrite (takeWhile_app_stop isSpace ws 62 _ Hws eq_refl).
  reflexivity.
Qed.

Lemma ol_marker_meta (ws : list N) (m : N) :
  forallb isSpace ws = true -> m < 2 ^ 53 ->
  kind (getListMeta (ws ++ dec m ++ lit ". ")) = Some ol
  /\ indent (getListMeta (ws ++ dec m ++ lit ". ")) = ws
  /\ currentMarker (getListMeta (ws ++ dec m ++ lit ". ")) = ws ++ dec m ++ lit ". ".
Proof.
  intros Hws Hm.
  destruct (ol_marker_reads_back ws m Hws Hm) as [Hk Hn].
  split; [exact Hk|].
  destruct (dec_nonempty m) as (d & ds & Hdec).
  pose proof (dec_digits m) as Hdig.
  assert (isDigit d = true) as Hd.
  { rewrite Hdec in Hdig. simpl in Hdig. now apply andb_true_iff in Hdig as [? _]. }
  assert (takeWhile isSpace (ws ++ dec m ++ lit ". ") = ws) as Htake.
  { rewrite Hdec. simpl app.
    apply takeWhile_app_stop; [exact Hws | now apply digit_not_space]. }
  split; [now rewrite getListMeta_indent|].
  destruct (ol_line_shape _ Hk) as (ds' & c & rest & Ht & Hu & Ho & Hline).
  assert (number (getListMeta (ws ++ dec m ++ lit ". ")) = Some (parseInt ds')) as Hn'.
  { unfold getListMeta. now rewrite Ht, Hu, Ho. }
  rewrite Hn in Hn'. injection Hn' as Hn'.
  unfold getListMeta. rewrite Ht, Hu, Ho. cbn [currentMarker group nth Nat.sub].
  rewrite <- Hn', Htake, toString_safe by exact Hm. reflexivity.
Qed.

Lemma ol_markers (line : str) (n : N) :
  kind (getListMeta line) = Some ol ->
  number (getListMeta line) = Some (Finite n) ->
  n + 1 < 2 ^ 53 ->
  nextMarker (getListMeta line) = takeWhile isSpace line ++ dec (n + 1) ++ lit ". ".
Proof.
  intros Hk Hn Hsafe.
  destruct (ol_line_shape line Hk) as (ds & c & rest & Ht & Hu & Ho & Hline).
  assert (number (getListMeta line) = Some (parseInt ds)) as Hnum.
  { unfold getListMeta. now rewrite Ht, Hu, Ho. }
  rewrite Hnum in Hn. injection Hn as Hn.
  unfold getListMeta. rewrite Ht, Hu, Ho. cbn [nextMarker group nth Nat.sub].
  rewrite Hn. cbn [add1]. rewrite roundToDouble_safe by lia.
  rewrite toString_safe by lia. reflexivity.
Qed.

Lemma number_only_if_ordered (line : str) :
  kind (getListMeta line) <> Some ol -> number (getListMeta line) = None.
Proof.
  unfold getListMeta.
  destruct (exec reTask line), (exec reUl line), (exec reOl line), (exec reBq line);
    simpl; congruence.
Qed.

Lemma ordered_has_number (line : str) :
  kind (getListMeta line) = Some ol -> exists x, number (getListMeta line) = Some x.
Proof.
  unfold getListMeta.
  destruct (exec reTask line), (exec reUl line), (exec reOl line), (exec reBq line);
    simpl; try discriminate; eauto.
Qed.

End Continuation.

Lemma next_marker_meta_facts (line : str) (k : ListKind) :
  kind (getListMeta line) = Some k ->
  successorIsExact line ->
  kind (getListMeta (nextMarker (getListMeta line))) = Some k
  /\ indent (getListMeta (nextMarker (getListMeta line))) = indent (getListMeta line)
  /\ currentMarker (getListMeta (nextMarker (getListMeta line)))
     = nextMarker (getListMeta line).
Proof.
  intros Hk Hsafe. rewrite (getListMeta_indent line).
  pose proof (takeWhile_all isSpace line) as Hws.
  destruct k.
  - destruct (ul_line_shape line Hk) as (b & c & rest & Ht & Hu & _ & Hb & _).
    assert (nextMarker (getListMeta line) = takeWhile isSpace line ++ [b; 32]) as ->.
    { unfold getListMeta. rewrite Ht, Hu. reflexivity. }
    now rewrite (ul_marker_meta _ b Hws Hb).
  - unfold successorIsExact in Hsafe.
    destruct (ordered_has_number line Hk) as [x Hx]. rewrite Hx in Hsafe.
    destruct x as [n|]; [|contradiction].
    rewrite (ol_markers line n Hk Hx Hsafe).
    destruct (ol_marker_meta (takeWhile isSpace line) (n + 1) Hws Hsafe)
      as (H1 & H2 & H3).
    auto.
  - destruct (task_line_shape line Hk)
      as (b & c1 & x & c2 & rest & _ & Hb & _ & _ & _ & He).
    assert (nextMarker (getListMeta line) = takeWhile isSpace line ++ b :: lit " [ ] ")
      as ->.
    { unfold getListMeta. rewrite He. reflexivity. }
    now rewrite (task_marker_meta _ b Hws Hb).
  - destruct (bq_line_shape line Hk) as (c & rest & Ht & Hu & Ho & Hb & _).
    assert (nextMarker (getListMeta line) = takeWhile isSpace line ++ [62; 32]) as ->.
    { unfold getListMeta. rewrite Ht, Hu, Ho, Hb. reflexivity. }
    now rewrite (bq_marker_meta _ Hws).
Qed.

(** X4: the marker a list, task or quote line hands to its continuation
    is itself a line of the same kind and indentation whose current
    marker is the whole of it (for an ordered item: when the successor of
    its number is exact).  So a line that holds only this marker is an
    empty item. *)
Theorem next_marker_is_an_empty_item (line : str) (k : ListKind) :
  kind (getListMeta line) = Some k ->
  successorIsExact line ->
  kind (getListMeta (nextMarker (getListMeta line))) = Some k
  /\ indent (getListMeta (nextMarker (getListMeta line))) = indent (getListMeta line)
  /\ currentMarker (getListMeta (nextMarker (getListMeta line)))
     = nextMarker (getListMeta line).
Proof. exact (next_marker_meta_facts line k). Qed.

Lemma next_marker_is_an_empty_item_witness :
  kind (getListMeta (nextMarker (getListMeta (lit "  * [X] done")))) = Some task
  /\ currentMarker (getListMeta (nextMarker (getListMeta (lit "  * [X] done"))))
     = lit "  * [ ] ".
Proof.
  destruct (next_marker_is_an_empty_item (lit "  * [X] done") task) as (Hk & _ & Hc).
  - reflexivity.
  - exact I.
  - split; [exact Hk | exact Hc].
Defined.

(** ** Enter *)

Section EnterFacts.

Implicit Types (a rest : list (list N)) (x y line before : list N).

Lemma enter_array a (idx : nat) line before x :
  a !! idx = Some line ->
  splice (idx + 1) 0 [x] (<[idx := before]> a)
  = take idx a ++ before :: x :: drop (S idx) a.
Proof.
  intros H. destruct (lookup_split _ _ _ H) as [Hs Hl].
  rewrite Hs at 1. rewrite <- Hl at 1 2. now rewrite insert_middle, splice_insert_after.
Qed.

Lemma lookup_second a (idx : nat) before x rest :
  length (take idx a) = idx ->
  (take idx a ++ before :: x :: rest) !! (idx + 1)%nat = Some x.
Proof.
  intros Hl. replace (take idx a ++ before :: x :: rest)
    with ((take idx a ++ [before]) ++ x :: rest) by now rewrite <- app_assoc.
  apply list_lookup_middle. rewrite length_app, Hl. simpl. lia.
Qed.

Lemma lookup_first a (idx : nat) before rest :
  length (take idx a) = idx ->
  (take idx a ++ before :: rest) !! idx = Some before.
Proof. intros Hl. now apply list_lookup_middle. Qed.

Lemma insert_second a (idx : nat) before x y rest :
  length (take idx a) = idx ->
  <[(idx + 1)%nat := y]> (take idx a ++ before :: x :: rest)
  = take idx a ++ before :: y :: rest.
Proof.
  intros Hl. replace (take idx a ++ before :: x :: rest)
    with ((take idx a ++ [before]) ++ x :: rest) by now rewrite <- app_assoc.
  replace (idx + 1)%nat with (length (take idx a ++ [before]))
    by (rewrite length_app, Hl; simpl; lia).
  rewrite insert_middle. now rewrite <- app_assoc.
Qed.

Lemma merge_array a (idx : nat) before x rest :
  length (take idx a) = idx ->
  splice (idx + 1) 1 []
    (<[idx := before ++ x]> (take idx a ++ before :: x :: rest))
  = take idx a ++ (before ++ x) :: rest.
Proof.
  intros Hl. rewrite <- Hl at 2. rewrite insert_middle.
  replace (take idx a ++ (before ++ x) :: x :: rest)
    with ((take idx a ++ [before ++ x]) ++ x :: rest) by now rewrite <- app_assoc.
  replace (idx + 1)%nat with (length (take idx a ++ [before ++ x]))
    by (rewrite length_app, Hl; simpl; lia).
  rewrite splice_delete_one. now rewrite <- app_assoc.
Qed.

End EnterFacts.

Lemma enter_on_plain_line
    (opts : Options) (ed : Editor) (idx c : nat) (line : str) (shift : bool) :
  isSelecting ed = false ->
  lines ed !! idx = Some line ->
  kind (getListMeta line) = None ->
  handleKeyDown opts ed {| key := Enter; shiftKey := shift; caret := c |} idx
  = Some (edited ed
            (take idx (lines ed) ++ take c line :: drop c line :: drop (S idx) (lines ed))
            0 (idx + 1)).
Proof.
  intros Hsel Hline Hk. unfold handleKeyDown. rewrite Hsel. cbn [key caret].
  unfold onEnter. rewrite Hline. cbn [mbind option_bind]. rewrite Hk.
  cbn [isSomeB andb]. unfold sliceTo, sliceFrom.
  now rewrite (enter_array _ _ _ _ _ Hline).
Qed.

(** X5: Enter on a line that is no list, task or quote line splits it at
    the caret: the text before the caret stays, the text after it becomes
    a new line below, which is active with the pending caret at 0; no
    other line changes. *)
Theorem enter_splits_plain_line
    (opts : Options) (ed : Editor) (idx c : nat) (line : str) (shift : bool) :
  isSelecting ed = false ->
  lines ed !! idx = Some line ->
  kind (getListMeta line) = None ->
  handleKeyDown opts ed {| key := Enter; shiftKey := shift; caret := c |} idx
  = Some (edited ed
            (take idx (lines ed) ++ take c line :: drop c line :: drop (S idx) (lines ed))
            0 (idx + 1)).
Proof. exact (enter_on_plain_line opts ed idx c line shift). Qed.

Lemma enter_splits_plain_line_witness :
  handleKeyDown defaultOptions (focused (lit "# Title") 4)
    {| key := Enter; shiftKey := false; caret := 4 |} 0
  = Some {| lines := [lit "# Ti"; lit "tle"]; activeLineIndex := Some 1%nat;
            cursorPosition := Some 0%nat; isDirty := true; isSelecting := false |}.
Proof.
  apply (enter_splits_plain_line defaultOptions (focused (lit "# Title") 4) 0 4
           (lit "# Title") false); reflexivity.
Defined.

(** X6: on such a line Enter followed by Backspace on the new line undoes
    the split: the document is as before, the line is active again and
    the pending caret is where the line was split. *)
Theorem enter_then_backspace_restores
    (opts : Options) (ed : Editor) (idx c : nat) (line : str) :
  isSelecting ed = false ->
  lines ed !! idx = Some line ->
  kind (getListMeta line) = None ->
  exists ed1 ed2,
    handleKeyDown opts ed {| key := Enter; shiftKey := false; caret := c |} idx
      = Some ed1
    /\ pressOnActive opts Backspace ed1 = Some ed2
    /\ lines ed2 = lines ed
    /\ activeLineIndex ed2 = Some idx
    /\ cursorPosition ed2 = Some (Nat.min c (length line)).
Proof.
  intros Hsel Hline Hk.
  destruct (lookup_split _ _ _ Hline) as [Hs Hl].
  eexists. eexists.
  split; [exact (enter_on_plain_line opts ed idx c line false Hsel Hline Hk)|].
  unfold pressOnActive. cbn [activeLineIndex cursorPosition edited mbind option_bind].
  unfold handleKeyDown. cbn [isSelecting edited key caret]. rewrite Hsel.
  assert ((0 <? idx + 1)%nat = true) as -> by (apply Nat.ltb_lt; lia).
  cbn [Nat.eqb andb]. unfold onBackspaceMerge. cbn [lines edited].
  rewrite (lookup_second _ _ _ _ _ Hl).
  replace (idx + 1 - 1)%nat with idx by lia.
  rewrite (lookup_first _ _ _ _ Hl). cbn [mbind option_bind].
  rewrite (merge_array _ _ _ _ _ Hl), take_drop, <- Hs.
  repeat split. cbn [cursorPosition edited]. now rewrite length_take.
Qed.

Lemma enter_then_backspace_restores_witness :
  exists ed1 ed2,
    handleKeyDown defaultOptions (focused (lit "hello") 2)
      {| key := Enter; shiftKey := false; caret := 2 |} 0 = Some ed1
    /\ pressOnActive defaultOptions Backspace ed1 = Some ed2
    /\ lines ed2 = [lit "hello"]
    /\ cursorPosition ed2 = Some 2%nat.
Proof.
  destruct (enter_then_backspace_restores defaultOptions (focused (lit "hello") 2)
              0 2 (lit "hello"))
    as (ed1 & ed2 & H1 & H2 & Hl & _ & Hc); try reflexivity.
  exists ed1, ed2. repeat split; assumption.
Defined.

(** X7: Enter at the end of a list, task or quote item that has content
    makes an empty item below it, and Enter again on that item ends the
    list: the second line is left with the indentation of the first, is
    active, and the pending caret is at its end.  (For an ordered item:
    when the successor of its number is exact.) *)
Theorem enter_twice_ends_the_list
    (opts : Options) (ed : Editor) (idx : nat) (line : str) (k : ListKind) :
  isSelecting ed = false ->
  lines ed !! idx = Some line ->
  kind (getListMeta line) = Some k ->
  successorIsExact line ->
  continueListsOnEnter opts <> Some false ->
  trim (removeLiteral (currentMarker (getListMeta line)) line) <> [] ->
  exists ed1 ed2,
    handleKeyDown opts ed
      {| key := Enter; shiftKey := false; caret := length line |} idx = Some ed1
    /\ lines ed1
       = take idx (lines ed) ++ line :: nextMarker (getListMeta line)
           :: drop (S idx) (lines ed)
    /\ pressOnActive opts Enter ed1 = Some ed2
    /\ lines ed2
       = take idx (lines ed) ++ line :: takeWhile isSpace line :: drop (S idx) (lines ed)
    /\ activeLineIndex ed2 = Some (idx + 1)%nat
    /\ cursorPosition ed2 = Some (length (takeWhile isSpace line)).
Proof.
  intros Hsel Hline Hk Hsafe Hopt Hcontent.
  destruct (lookup_split _ _ _ Hline) as [Hs Hl].
  destruct (next_marker_meta_facts line k Hk Hsafe) as (Hk' & Hi' & Hc').
  assert (default true (continueListsOnEnter opts) = true) as Hcont.
  { destruct (continueListsOnEnter opts) as [[|]|]; try reflexivity. contradiction. }
  assert (handleKeyDown opts ed
            {| key := Enter; shiftKey := false; caret := length line |} idx
          = Some (edited ed
                    (take idx (lines ed) ++ line :: nextMarker (getListMeta line)
                       :: drop (S idx) (lines ed))
                    (length (nextMarker (getListMeta line))) (idx + 1))) as H1.
  { unfold handleKeyDown. rewrite Hsel. cbn [key caret].
    unfold onEnter. rewrite Hline. cbn [mbind option_bind]. rewrite Hk, Hcont.
    destruct (trim (removeLiteral (currentMarker (getListMeta line)) line))
      as [|t0 ts]; [contradiction|].
    cbn [isSomeB isEmpty andb]. unfold sliceTo, sliceFrom.
    rewrite (enter_array _ _ _ _ _ Hline).
    rewrite (take_ge line (length line)) by lia.
    rewrite drop_all, app_nil_r. reflexivity. }
  eexists. eexists. split; [exact H1|]. split; [reflexivity|].
  unfold pressOnActive. cbn [activeLineIndex cursorPosition edited mbind option_bind].
  cbn [lines edited]. rewrite (lookup_second _ _ _ _ _ Hl).
  cbn [mbind option_bind]. rewrite Nat.min_id.
  unfold handleKeyDown. cbn [isSelecting edited key caret]. rewrite Hsel.
  unfold onEnter. cbn [lines edited].
  rewrite (lookup_second _ _ _ _ _ Hl). cbn [mbind option_bind].
  rewrite Hk', Hc', Hi', getListMeta_indent.
  rewrite <- (app_nil_r (nextMarker (getListMeta line))) at 2.
  rewrite removeLiteral_app. change (trim []) with (@nil N).
  rewrite Nat.leb_refl. cbn [isSomeB isEmpty andb].
  rewrite (insert_second _ _ _ _ _ _ Hl).
  repeat split.
Qed.

Lemma enter_twice_ends_the_list_witness :
  exists ed1 ed2,
    handleKeyDown defaultOptions (focused (lit "> quote") 7)
      {| key := Enter; shiftKey := false; caret := 7 |} 0 = Some ed1
    /\ lines ed1 = [lit "> quote"; lit "> "]
    /\ pressOnActive defaultOptions Enter ed1 = Some ed2
    /\ lines ed2 = [lit "> quote"; []].
Proof.
  destruct (enter_twice_ends_the_list defaultOptions (focused (lit "> quote") 7)
              0 (lit "> quote") bq)
    as (ed1 & ed2 & H1 & Hl1 & H2 & Hl2 & _); try reflexivity; try discriminate.
  exists ed1, ed2. repeat split; assumption.
Defined.

(** ** Indentation *)

Section Indentation.

Lemma dropWhile_app_all (q : N -> bool) (ws s : list N) :
  forallb q ws = true -> dropWhile q (ws ++ s) = dropWhile q s.
Proof.
  induction ws as [|c ws IH]; simpl; [reflexivity|].
  intros H. apply andb_true_iff in H as [-> Hws]. now apply IH.
Qed.

Lemma takeWhile_app_all (q : N -> bool) (ws s : list N) :
  forallb q ws = true -> takeWhile q (ws ++ s) = ws ++ takeWhile q s.
Proof.
  induction ws as [|c ws IH]; simpl; [reflexivity|].
  intros H. apply andb_true_iff in H as [-> Hws]. now rewrite IH.
Qed.

Lemma spaces_are_space (n : nat) : forallb isSpace (spaces n) = true.
Proof. induction n; simpl; auto. Qed.

Lemma spaces_are_blank (n : nat) : forallb (isChar " ") (spaces n) = true.
Proof. induction n; simpl; auto. Qed.

Lemma test_under_indent (b : atom) (re : regex) (ws line : list N) :
  (1 <= lo b)%nat -> (forall x, isSpace x = true -> cls b x = false) ->
  forallb isSpace ws = true ->
  test (star isSpace :: b :: re) (ws ++ line) = test (star isSpace :: b :: re) line.
Proof.
  intros Hlo Hdis Hws. rewrite !test_exec.
  rewrite !exec_greedy by (reflexivity || assumption).
  change (cls (star isSpace)) with isSpace. change (lo (star isSpace)) with O.
  change (length (takeWhile isSpace (ws ++ line)) <? 0)%nat with false.
  change (length (takeWhile isSpace line) <? 0)%nat with false. cbv iota.
  rewrite (dropWhile_app_all isSpace ws line Hws).
  now destruct (exec (b :: re) (dropWhile isSpace line)).
Qed.

(** Leading white space does not change what kind of line a line is. *)
Lemma kind_under_indent (ws line : list N) :
  forallb isSpace ws = true ->
  kind (getListMeta (ws ++ line)) = kind (getListMeta line).
Proof.
  intros Hws. rewrite !kind_spec. unfold reTask, reUl, reOl, reBq.
  rewrite !(test_under_indent _ _ ws line) by
    (assumption || (simpl; lia) || exact space_not_bullet || exact space_not_digit
     || exact space_not_gt).
  reflexivity.
Qed.

Lemma test_at_least (n : nat) (line : list N) :
  test [atLeast n isSpace] (spaces n ++ line) = true.
Proof.
  apply test_true. rewrite exec_cons. cbv zeta.
  cbn [cls lo hi atLeast].
  rewrite (takeWhile_app_all isSpace _ line (spaces_are_space n)).
  assert ((length (spaces n ++ takeWhile isSpace line) <? n)%nat = false) as ->.
  { apply Nat.ltb_ge. rewrite length_app. unfold spaces. rewrite repeat_length. lia. }
  erewrite backoff_hit; [eauto|]. reflexivity.
Qed.

Lemma remove_exact_spaces (n : nat) (line : list N) :
  remove [exactly n (isChar " ")] (spaces n ++ line) = line.
Proof.
  unfold remove. rewrite exec_cons. cbv zeta. cbn [cls lo hi exactly].
  rewrite (takeWhile_app_all (isChar " ") _ line (spaces_are_blank n)).
  assert (Nat.min n (length (spaces n ++ takeWhile (isChar " ") line)) = n) as ->.
  { rewrite length_app. unfold spaces. rewrite repeat_length. lia. }
  rewrite Nat.ltb_irrefl.
  erewrite backoff_hit by reflexivity.
  unfold whole. cbn [concat]. rewrite app_nil_r.
  assert (take n (spaces n ++ line) = spaces n) as ->.
  { replace n with (length (spaces n)) at 1 by apply repeat_length.
    apply take_app_length. }
  replace (length (spaces n)) with (length (spaces n)) by reflexivity.
  apply drop_app_length.
Qed.

End Indentation.

(** X8: Tab on a list, task or quote line puts one indent unit of spaces
    in front of it and leaves it a line of the same kind; Shift+Tab with
    the caret Tab has set takes the unit off again, so the document and
    the pending caret are as before. *)
Theorem tab_then_shift_tab_restores
    (opts : Options) (ed : Editor) (idx c : nat) (line : str) :
  isSelecting ed = false ->
  lines ed !! idx = Some line ->
  kind (getListMeta line) <> None ->
  let n := default 2%nat (indentSize opts) in
  exists ed1 ed2,
    handleKeyDown opts ed {| key := Tab; shiftKey := false; caret := c |} idx = Some ed1
    /\ lines ed1 = <[idx := spaces n ++ line]> (lines ed)
    /\ kind (getListMeta (spaces n ++ line)) = kind (getListMeta line)
    /\ cursorPosition ed1 = Some (c + n)%nat
    /\ handleKeyDown opts ed1 {| key := Tab; shiftKey := true; caret := c + n |} idx
       = Some ed2
    /\ lines ed2 = lines ed
    /\ activeLineIndex ed2 = Some idx
    /\ cursorPosition ed2 = Some c.
Proof.
  intros Hsel Hline Hk n.
  pose proof (kind_under_indent (spaces n) line (spaces_are_space n)) as Hkind.
  pose proof (lookup_lt_Some _ _ _ Hline) as Hlt.
  assert (handleKeyDown opts ed {| key := Tab; shiftKey := false; caret := c |} idx
          = Some (edited ed (<[idx := spaces n ++ line]> (lines ed)) (c + n) idx)) as H1.
  { unfold handleKeyDown. rewrite Hsel. cbn [key]. rewrite Hline.
    cbn [mbind option_bind].
    destruct (kind (getListMeta line)); [|contradiction]. reflexivity. }
  eexists. eexists. split; [exact H1|].
  split; [reflexivity|]. split; [exact Hkind|]. split; [reflexivity|].
  unfold handleKeyDown. cbn [isSelecting edited key lines]. rewrite Hsel.
  rewrite list_lookup_insert_eq by exact Hlt. cbn [mbind option_bind].
  rewrite Hkind. destruct (kind (getListMeta line)); [|contradiction].
  cbn [isSomeB]. unfold onTab. cbn [shiftKey caret lines edited].
  fold n. rewrite test_at_least, remove_exact_spaces.
  rewrite list_insert_insert_eq, (list_insert_id _ _ _ Hline).
  split; [reflexivity|]. repeat split. cbn [cursorPosition edited]. f_equal. lia.
Qed.

Lemma tab_then_shift_tab_restores_witness :
  exists ed1 ed2,
    handleKeyDown defaultOptions (focused (lit "- item") 3)
      {| key := Tab; shiftKey := false; caret := 3 |} 0 = Some ed1
    /\ lines ed1 = [lit "  - item"]
    /\ handleKeyDown defaultOptions ed1 {| key := Tab; shiftKey := true; caret := 5 |} 0
       = Some ed2
    /\ lines ed2 = [lit "- item"]
    /\ cursorPosition ed2 = Some 3%nat.
Proof.
  destruct (tab_then_shift_tab_restores defaultOptions (focused (lit "- item") 3)
              0 3 (lit "- item"))
    as (ed1 & ed2 & H1 & Hl1 & _ & _ & H2 & Hl2 & _ & Hc);
    try reflexivity; try discriminate.
  exists ed1, ed2. repeat split; assumption.
Defined.

(** ** Arrow keys *)

(** X9: ArrowUp and ArrowDown never change the text or the dirty flag.
    Either nothing changes at all (ArrowUp on the first line, ArrowDown
    on the last) or the line above, respectively below, becomes active,
    a line of the document, with the caret column carried over. *)
Theorem arrows_stay_in_document
    (opts : Options) (ed ed' : Editor) (idx c : nat) (k : Key) (shift : bool) :
  k = ArrowUp \/ k = ArrowDown ->
  (idx < length (lines ed))%nat ->
  handleKeyDown opts ed {| key := k; shiftKey := shift; caret := c |} idx = Some ed' ->
  lines ed' = lines ed /\ isDirty ed' = isDirty ed
  /\ (ed' = ed
      \/ exists j, activeLineIndex ed' = Some j /\ (j < length (lines ed))%nat
                   /\ cursorPosition ed' = Some c
                   /\ ((k = ArrowUp /\ j + 1 = idx) \/ (k = ArrowDown /\ j = idx + 1))%nat).
Proof.
  intros Hk Hidx. unfold handleKeyDown.
  destruct (isSelecting ed); [intros [= <-]; auto|].
  destruct Hk as [-> | ->]; cbn [key]; intros [= <-]; unfold onArrows; cbn [key caret].
  - destruct (0 <? idx)%nat eqn:E; [|auto].
    apply Nat.ltb_lt in E. repeat split. right. exists (idx - 1)%nat.
    cbn [activeLineIndex cursorPosition]. repeat split; try lia. left. split; [reflexivity|lia].
  - destruct (idx + 1 <? length (lines ed))%nat eqn:E; [|auto].
    apply Nat.ltb_lt in E. repeat split. right. exists (idx + 1)%nat.
    cbn [activeLineIndex cursorPosition]. repeat split; try lia. right. split; [reflexivity|lia].
Qed.

Lemma arrows_stay_in_document_witness :
  lines (default (focused [] 0)
           (handleKeyDown defaultOptions (focused (lit "only") 2)
              {| key := ArrowDown; shiftKey := false; caret := 2 |} 0))
  = [lit "only"].
Proof.
  destruct (handleKeyDown defaultOptions (focused (lit "only") 2)
              {| key := ArrowDown; shiftKey := false; caret := 2 |} 0) as [ed'|] eqn:E;
    [|discriminate].
  destruct (arrows_stay_in_document defaultOptions (focused (lit "only") 2) ed' 0 2
              ArrowDown false) as (Hl & _).
  - now right.
  - simpl. lia.
  - exact E.
  - exact Hl.
Defined.

(** X10: ArrowDown on a line that is not the last, followed by ArrowUp
    on the line it made active, is back on the first line; the text is
    untouched.  The caret column that comes back is the smaller of the
    column it started from and the length of the line below, where the
    pending caret was applied: the same column when the line below is at
    least that long. *)
Theorem arrow_down_then_up_returns
    (opts : Options) (ed : Editor) (idx c : nat) (below : str) :
  isSelecting ed = false ->
  lines ed !! (idx + 1)%nat = Some below ->
  exists ed1 ed2,
    handleKeyDown opts ed {| key := ArrowDown; shiftKey := false; caret := c |} idx
      = Some ed1
    /\ activeLineIndex ed1 = Some (idx + 1)%nat
    /\ cursorPosition ed1 = Some c
    /\ pressOnActive opts ArrowUp ed1 = Some ed2
    /\ lines ed2 = lines ed
    /\ activeLineIndex ed2 = Some idx
    /\ cursorPosition ed2 = Some (Nat.min c (length below))
    /\ ((c <= length below)%nat -> cursorPosition ed2 = Some c).
Proof.
  intros Hsel Hbelow.
  assert ((idx + 1 <? length (lines ed))%nat = true) as Hb.
  { apply Nat.ltb_lt. now apply lookup_lt_Some in Hbelow. }
  eexists. eexists. split.
  { unfold handleKeyDown. rewrite Hsel. cbn [key]. unfold onArrows. cbn [key caret].
    rewrite Hb. reflexivity. }
  split; [reflexivity|]. split; [reflexivity|].
  unfold pressOnActive. cbn [activeLineIndex cursorPosition mbind option_bind lines].
  rewrite Hbelow. cbn [mbind option_bind].
  unfold handleKeyDown. cbn [isSelecting key]. rewrite Hsel.
  unfold onArrows. cbn [key caret lines].
  assert ((0 <? idx + 1)%nat = true) as -> by (apply Nat.ltb_lt; lia).
  split; [reflexivity|]. cbn [lines activeLineIndex cursorPosition].
  split; [reflexivity|]. split; [f_equal; lia|]. split; [reflexivity|].
  intros Hc. f_equal. lia.
Qed.

Lemma arrow_down_then_up_returns_witness :
  exists ed1 ed2,
    handleKeyDown defaultOptions
      {| lines := [lit "hello"; lit "b"]; activeLineIndex := Some 0%nat;
         cursorPosition := None; isDirty := false; isSelecting := false |}
      {| key := ArrowDown; shiftKey := false; caret := 5 |} 0 = Some ed1
    /\ pressOnActive defaultOptions ArrowUp ed1 = Some ed2
    /\ activeLineIndex ed2 = Some 0%nat
    /\ cursorPosition ed2 = Some 1%nat.
Proof.
  destruct (arrow_down_then_up_returns defaultOptions
              {| lines := [lit "hello"; lit "b"]; activeLineIndex := Some 0%nat;
                 cursorPosition := None; isDirty := false; isSelecting := false |}
              0 5 (lit "b"))
    as (ed1 & ed2 & H1 & _ & _ & H2 & _ & Ha & Hc & _).
  - reflexivity.
  - reflexivity.
  - exists ed1, ed2. repeat split; assumption.
Defined.

(** ** The offset mapper *)

Section Mapper.

Lemma countShown_le_length (l : list bool) : (countShown l <= length l)%nat.
Proof. induction l as [|[] l IH]; simpl; lia. Qed.

Lemma countShown_take_S (l : list bool) (k : nat) :
  l !! k = Some true -> countShown (take (S k) l) = S (countShown (take k l)).
Proof.
  revert k; induction l as [|b l IH]; intros [|k]; simpl; try discriminate.
  - now intros [= ->].
  - intros H. rewrite (IH k H). lia.
Qed.

Lemma countShown_take_mono (l : list bool) (a b : nat) :
  (a <= b)%nat -> (countShown (take a l) <= countShown (take b l))%nat.
Proof.
  revert a b; induction l as [|x l IH]; intros [|a] [|b] H; simpl; try lia.
  specialize (IH a b ltac:(lia)). lia.
Qed.

Lemma countShown_take_total (l : list bool) (k : nat) :
  (countShown (take k l) <= countShown l)%nat.
Proof.
  rewrite <- (take_drop k l) at 2. rewrite countShown_app. lia.
Qed.

(** Where the loop of the mapper stops there is a shown code unit. *)
Lemma mapLoop_shown (rest : str) : forall i dc d,
  (dc <= d)%nat ->
  forall j, mapLoop rest i dc d = Some j ->
  exists k, j = (i + k)%nat /\ shownFlags rest !! k = Some true
            /\ countShown (take k (shownFlags rest)) = (d - dc)%nat.
Proof.
  induction rest as [|c|c e t IH1 IH2] using pairs_ind; intros i dc d Hd j.
  - discriminate.
  - simpl. destruct (dc =? d)%nat eqn:E; [|discriminate].
    apply Nat.eqb_eq in E. intros [= <-]. exists O. simpl. repeat split; lia.
  - change (mapLoop (c :: e :: t) i dc d)
      with (if isChar "*" c && isChar "*" e then mapLoop t (i + 2) dc d
            else if (dc =? d)%nat then Some i
                 else mapLoop (e :: t) (i + 1) (dc + 1) d).
    change (shownFlags (c :: e :: t))
      with (if isChar "*" c && isChar "*" e then false :: false :: shownFlags t
            else true :: shownFlags (e :: t)).
    destruct (_ && _).
    + intros H. destruct (IH1 _ _ _ Hd _ H) as (k & -> & Hk & Hc).
      exists (S (S k)). repeat split; [lia | exact Hk | exact Hc].
    + destruct (dc =? d)%nat eqn:E.
      * apply Nat.eqb_eq in E. intros [= <-]. exists O. simpl. repeat split; lia.
      * apply Nat.eqb_neq in E. intros H.
        destruct (IH2 (i + 1)%nat (dc + 1)%nat d ltac:(lia) _ H) as (k & -> & Hk & Hc).
        exists (S k). repeat split; [lia | exact Hk |].
        change (take (S k) (true :: shownFlags (e :: t)))
          with (true :: take k (shownFlags (e :: t))).
        cbn [countShown]. rewrite Hc. lia.
Qed.

Lemma mapLoop_plain (rest : str) : forall i dc d,
  forallb notStar rest = true -> (dc <= d)%nat ->
  mapLoop rest i dc d
  = if (d - dc <? length rest)%nat then Some (i + (d - dc))%nat else None.
Proof.
  induction rest as [|c t IH]; intros i dc d Hp Hd; [reflexivity|].
  simpl in Hp. apply andb_true_iff in Hp as [Hc Ht].
  unfold notStar in Hc. apply negb_true_iff in Hc.
  assert (mapLoop (c :: t) i dc d
          = if (dc =? d)%nat then Some i else mapLoop t (i + 1) (dc + 1) d) as ->.
  { simpl. rewrite Hc. destruct t; reflexivity. }
  destruct (dc =? d)%nat eqn:E.
  - apply Nat.eqb_eq in E. subst d. rewrite Nat.sub_diag. simpl. f_equal. lia.
  - apply Nat.eqb_neq in E. rewrite IH by (assumption || lia).
    replace (d - dc)%nat with (S (d - (dc + 1))) by lia. cbn [length].
    change (S (d - (dc + 1)) <? S (length t))%nat
      with (d - (dc + 1) <? length t)%nat.
    destruct (_ <? _)%nat; [f_equal; lia | reflexivity].
Qed.

End Mapper.

Lemma mapped_index_bounds (L : str) (d : nat) :
  (getRemovedPrefixLength L <= mapDisplayOffsetToSourceIndex L d <= length L)%nat.
Proof.
  pose proof (prefix_le_length L) as Hp.
  unfold mapDisplayOffsetToSourceIndex, sliceFrom.
  pose proof (mapLoop_spec (drop (getRemovedPrefixLength L) L) O O d ltac:(lia)) as H.
  destruct (mapLoop _ 0 0 d) as [j|]; [|lia].
  destruct H as (k & -> & Hk & _). rewrite length_drop in Hk. lia.
Qed.

(** X11: the source index the mapper returns is never inside the
    structural prefix and never past the end of the line. *)
Theorem mapped_index_in_range (L : str) (d : nat) :
  (getRemovedPrefixLength L <= mapDisplayOffsetToSourceIndex L d <= length L)%nat.
Proof. exact (mapped_index_bounds L d). Qed.


Lemma mapped_index_order (L : str) (d1 d2 : nat) :
  (d1 <= d2)%nat ->
  (mapDisplayOffsetToSourceIndex L d1 <= mapDisplayOffsetToSourceIndex L d2)%nat.
Proof.
  intros Hd. pose proof (mapped_index_bounds L d1) as Hb1.
  unfold mapDisplayOffsetToSourceIndex, sliceFrom in *.
  set (P := getRemovedPrefixLength L) in *. set (content := drop P L) in *.
  pose proof (mapLoop_spec content O O d1 ltac:(lia)) as H1.
  destruct (mapLoop content 0 0 d2) as [j2|] eqn:E2; [|lia].
  destruct (mapLoop_shown content O O d2 ltac:(lia) _ E2) as (k2 & -> & Hs2 & Hc2).
  pose proof (countShown_take_S _ _ Hs2) as HS.
  pose proof (countShown_take_total (shownFlags content) (S k2)) as Ht.
  destruct (mapLoop content 0 0 d1) as [j1|].
  - destruct H1 as (k1 & -> & _ & Hc1).
    destruct (Nat.le_gt_cases k1 k2) as [Hle|Hgt]; [lia|].
    pose proof (countShown_take_mono (shownFlags content) (S k2) k1 ltac:(lia)). lia.
  - lia.
Qed.

(** X12: the mapper is monotone: a larger display offset never maps to a
    smaller source index. *)
Theorem mapped_index_monotone (L : str) (d1 d2 : nat) :
  (d1 <= d2)%nat ->
  (mapDisplayOffsetToSourceIndex L d1 <= mapDisplayOffsetToSourceIndex L d2)%nat.
Proof. exact (mapped_index_order L d1 d2). Qed.

Lemma mapped_index_monotone_witness :
  (mapDisplayOffsetToSourceIndex (lit "# a**b**") 1
   <= mapDisplayOffsetToSourceIndex (lit "# a**b**") 2)%nat.
Proof. apply (mapped_index_monotone (lit "# a**b**") 1 2). lia. Defined.


(** X13: an index the mapper returns inside the line is that of a shown
    code unit: it is not in the structural prefix and not one of the two
    stars of an emphasis marker. *)
Theorem mapped_index_is_shown (L : str) (d : nat) :
  (mapDisplayOffsetToSourceIndex L d < length L)%nat ->
  (repeat false (getRemovedPrefixLength L)
     ++ shownFlags (drop (getRemovedPrefixLength L) L))
    !! mapDisplayOffsetToSourceIndex L d = Some true.
Proof.
  unfold mapDisplayOffsetToSourceIndex, sliceFrom.
  set (P := getRemovedPrefixLength L). set (content := drop P L).
  destruct (mapLoop content 0 0 d) as [j|] eqn:E; [|lia].
  intros _. destruct (mapLoop_shown content O O d ltac:(lia) _ E) as (k & -> & Hs & _).
  rewrite lookup_app_r; rewrite repeat_length; [|lia].
  now replace (P + (0 + k) - P)%nat with k by lia.
Qed.

Lemma mapped_index_is_shown_witness :
  (repeat false (getRemovedPrefixLength (lit "- **a**b"))
     ++ shownFlags (drop (getRemovedPrefixLength (lit "- **a**b")) (lit "- **a**b")))
    !! mapDisplayOffsetToSourceIndex (lit "- **a**b") 1 = Some true
  /\ mapDisplayOffsetToSourceIndex (lit "- **a**b") 1 = 7%nat.
Proof.
  split; [|reflexivity].
  apply (mapped_index_is_shown (lit "- **a**b") 1). vm_compute. lia.
Defined.

(** X14: on a line whose content has no star the mapper adds the length
    of the structural prefix to the display offset, and stops at the end
    of the line. *)
Theorem mapped_index_without_emphasis (L : str) (d : nat) :
  forallb notStar (drop (getRemovedPrefixLength L) L) = true ->
  mapDisplayOffsetToSourceIndex L d = Nat.min (getRemovedPrefixLength L + d) (length L).
Proof.
  intros Hp. pose proof (prefix_le_length L) as Hle.
  unfold mapDisplayOffsetToSourceIndex, sliceFrom.
  rewrite (mapLoop_plain _ O O d Hp) by lia. rewrite length_drop, Nat.sub_0_r.
  destruct (d <? length L - getRemovedPrefixLength L)%nat eqn:E.
  - apply Nat.ltb_lt in E. lia.
  - apply Nat.ltb_ge in E. lia.
Qed.

Lemma mapped_index_without_emphasis_witness :
  mapDisplayOffsetToSourceIndex (lit "12. ab") 1 = 5%nat
  /\ mapDisplayOffsetToSourceIndex (lit "12. ab") 9 = 6%nat.
Proof.
  split.
  - apply (mapped_index_without_emphasis (lit "12. ab") 1). reflexivity.
  - apply (mapped_index_without_emphasis (lit "12. ab") 9). reflexivity.
Defined.

(** X15: the display length is never more than what is left of the line
    after its structural prefix; on paragraph and quote lines it is the
    length of that rest without its emphasis markers. *)
Theorem display_length_bounds (L : str) :
  (getDisplayContentLength L + getRemovedPrefixLength L <= length L)%nat
  /\ (getMarkdownType L = p \/ getMarkdownType L = blockquote ->
      getDisplayContentLength L
      = length (removeStars (drop (getRemovedPrefixLength L) L))).
Proof.
  split.
  - pose proof (display_length_le L) as H. pose proof (prefix_le_length L) as Hp.
    pose proof (countShown_le_length
                  (shownFlags (drop (getRemovedPrefixLength L) L))) as Hc.
    rewrite shownFlags_length, length_drop in Hc. lia.
  - intros Ht.
    assert (exec reAnyHeading L = None /\ exec reTask L = None /\ exec reUl L = None
            /\ exec reOl L = None) as (Hh & Hk & Hu & Ho).
    { destruct Ht as [Ht|Ht].
      - apply paragraph_prefix_iff in Ht. apply prefix_zero_iff in Ht. tauto.
      - apply blockquote_kind in Ht.
        assert (exec reAnyHeading L = None) as Hh
          by (apply not_heading_if_list; rewrite Ht; discriminate).
        destruct (bq_line_shape L Ht) as (c & rest & H1 & H2 & H3 & _). auto. }
    unfold getDisplayContentLength, getRemovedPrefixLength.
    rewrite (remove_none _ _ Hh), (remove_none _ _ Hk), (remove_none _ _ Hu),
      (remove_none _ _ Ho), Hh, Hk, Hu, Ho.
    unfold remove. destruct (exec reBq L); reflexivity.
Qed.

Lemma display_length_bounds_witness :
  getDisplayContentLength (lit "> a **b**") = 3%nat
  /\ getRemovedPrefixLength (lit "> a **b**") = 2%nat.
Proof.
  split; [|reflexivity].
  rewrite (proj2 (display_length_bounds (lit "> a **b**")) (or_intror eq_refl)).
  reflexivity.
Defined.

(** ** Splitting and joining the document *)

Section SplitJoin.

Lemma splitLines_cons (c : N) (t : list N) :
  splitLines (c :: t)
  = if c =? 10 then [] :: splitLines t
    else match splitLines t with
         | l :: ls => (c :: l) :: ls
         | [] => [[c]]
         end.
Proof. reflexivity. Qed.

Lemma joinWith_cons (sep : N) (l : list N) (m : list N) (rest : list (list N)) :
  joinWith sep (l :: m :: rest) = l ++ sep :: joinWith sep (m :: rest).
Proof. reflexivity. Qed.

Lemma join_split (s : list N) : joinLines (splitLines s) = s.
Proof.
  unfold joinLines. induction s as [|c t IH]; [reflexivity|].
  rewrite splitLines_cons. destruct (c =? 10) eqn:E.
  - apply N.eqb_eq in E. subst c.
    destruct (splitLines t) as [|l ls] eqn:Et; [now destruct (splitLines_nonempty t)|].
    rewrite joinWith_cons, IH. reflexivity.
  - destruct (splitLines t) as [|l ls] eqn:Et; [now destruct (splitLines_nonempty t)|].
    destruct ls as [|m ls].
    + simpl in *. now rewrite IH.
    + rewrite joinWith_cons in IH. rewrite joinWith_cons, <- IH. reflexivity.
Qed.

Lemma splitLines_at_lf (a r : list N) :
  splitLines (a ++ 10 :: r) = splitLines a ++ splitLines r.
Proof.
  induction a as [|c a IH]; [reflexivity|].
  simpl app. rewrite !splitLines_cons, IH.
  destruct (c =? 10); [reflexivity|].
  destruct (splitLines a) as [|l ls] eqn:Ea; [now destruct (splitLines_nonempty a)|].
  reflexivity.
Qed.

Lemma splitLines_single (l : list N) : includesLf l = false -> splitLines l = [l].
Proof.
  unfold includesLf. induction l as [|c l IH]; [reflexivity|].
  cbn [existsb]. intros H. apply orb_false_iff in H as [Hc Hl].
  rewrite N.eqb_sym in Hc. rewrite splitLines_cons, Hc, (IH Hl). reflexivity.
Qed.

Lemma split_join (a : list (list N)) :
  a <> [] -> splitLines (joinLines a) = concat (List.map splitLines a).
Proof.
  unfold joinLines. induction a as [|l rest IH]; [congruence|]. intros _.
  destruct rest as [|m rest].
  - simpl. now rewrite app_nil_r.
  - rewrite joinWith_cons, splitLines_at_lf, IH by discriminate. reflexivity.
Qed.

Lemma split_join_single (a : list (list N)) :
  a <> [] -> singleLines a -> splitLines (joinLines a) = a.
Proof.
  intros Hne Hs. rewrite split_join by exact Hne.
  clear Hne. induction Hs as [|l rest Hl Hrest IH]; [reflexivity|].
  simpl. now rewrite (splitLines_single l Hl), IH.
Qed.

Lemma splitLines_are_single (s : list N) : singleLines (splitLines s).
Proof.
  unfold singleLines. induction s as [|c t IH]; [repeat constructor|].
  rewrite splitLines_cons. destruct (c =? 10) eqn:E.
  - constructor; [reflexivity | exact IH].
  - destruct (splitLines t) as [|l ls].
    + repeat constructor. unfold includesLf. cbn [existsb].
      now rewrite N.eqb_sym, E.
    + inversion IH as [|? ? Hl Hls]; subst. constructor; [|exact Hls].
      unfold includesLf in *. cbn [existsb]. now rewrite N.eqb_sym, E, Hl.
Qed.

Lemma imap_replace (a : list (list N)) (idx : nat) (value : list N) :
  imap (fun i l => if (i =? idx)%nat then value else l) a = <[idx := value]> a.
Proof.
  apply list_eq. intros i. rewrite list_lookup_imap.
  destruct (decide (i = idx)) as [->|Hne].
  - rewrite Nat.eqb_refl. destruct (a !! idx) as [l|] eqn:E.
    + rewrite list_lookup_insert_eq by (now apply lookup_lt_Some in E). reflexivity.
    + rewrite list_insert_ge by (now apply lookup_ge_None). now rewrite E.
  - rewrite list_lookup_insert_ne by congruence.
    apply Nat.eqb_neq in Hne. rewrite Hne. now destruct (a !! i).
Qed.

End SplitJoin.

(** X16: in the extension API, [getValue] on the document that
    [setValue(s)] makes is [s]: splitting a text into lines and joining
    the lines loses nothing.  The document [setValue] makes has at least
    one line and none of its lines holds a line feed. *)
Theorem set_value_then_get_value (ed : Editor) (s : str) :
  apiCall ed (setValue s) = Some (withLines ed (splitLines s))
  /\ getValue (withLines ed (splitLines s)) = s
  /\ (1 <= length (splitLines s))%nat
  /\ singleLines (splitLines s).
Proof.
  split; [reflexivity|]. split; [apply join_split|].
  split; [|apply splitLines_are_single].
  pose proof (splitLines_nonempty s). destruct (splitLines s); simpl; [congruence|lia].
Qed.

(** X17: [setValue(getValue())] on a document that is not empty splits
    every line at its line feeds; a document whose lines hold no line feed
    is left as it is. *)
Theorem get_value_then_set_value (ed : Editor) :
  lines ed <> [] ->
  (lines <$> apiCall ed (setValue (getValue ed)))
  = Some (concat (List.map splitLines (lines ed)))
  /\ (singleLines (lines ed) -> apiCall ed (setValue (getValue ed)) = Some ed).
Proof.
  intros Hne. cbn. unfold getValue. split.
  - now rewrite split_join.
  - intros Hs. rewrite split_join_single by assumption. now destruct ed.
Qed.

Lemma get_value_then_set_value_witness :
  (lines <$> apiCall (focused (lit "a" ++ 10 :: lit "b") 0)
               (setValue (getValue (focused (lit "a" ++ 10 :: lit "b") 0))))
  = Some [lit "a"; lit "b"].
Proof.
  destruct (get_value_then_set_value (focused (lit "a" ++ 10 :: lit "b") 0)) as [H _].
  - discriminate.
  - exact H.
Defined.

(** X18: when the text of a line is edited, the text handed to
    [onChange] is the text of the new document: the old lines with the
    edited one replaced, joined by line feeds; the document is marked
    dirty and keeps its length. *)
Theorem line_change_notifies_new_text (ed : Editor) (idx : nat) (value : str) :
  (idx < length (lines ed))%nat ->
  exists ed',
    handleLineChange ed idx value = Some (ed', getValue ed')
    /\ lines ed' = <[idx := value]> (lines ed)
    /\ length (lines ed') = length (lines ed)
    /\ isDirty ed' = true.
Proof.
  intros Hidx. unfold handleLineChange. apply Nat.ltb_lt in Hidx. rewrite Hidx.
  exists {| lines := <[idx := value]> (lines ed);
            activeLineIndex := activeLineIndex ed;
            cursorPosition := cursorPosition ed; isDirty := true;
            isSelecting := isSelecting ed |}.
  unfold getValue. cbn [lines isDirty]. rewrite imap_replace, length_insert.
  repeat split.
Qed.

Lemma line_change_notifies_new_text_witness :
  exists ed',
    handleLineChange (focused (lit "ab") 2) 0 (lit "abc") = Some (ed', lit "abc").
Proof.
  destruct (line_change_notifies_new_text (focused (lit "ab") 2) 0 (lit "abc"))
    as (ed' & H & Hl & _).
  - simpl. lia.
  - exists ed'. rewrite H. unfold getValue. now rewrite Hl.
Defined.

(** X19: in the extension API, [insertLine(i, s)] with an index inside
    the document (or just past its end) puts [s] at that index, and
    [deleteLines(i, 1)] after it gives the document back. *)
Theorem insert_then_delete_line (ed : Editor) (i : nat) (s : str) :
  (i <= length (lines ed))%nat ->
  exists ed1 ed2,
    apiCall ed (insertLine (Z.of_nat i) s) = Some ed1
    /\ lines ed1 = take i (lines ed) ++ s :: drop i (lines ed)
    /\ apiCall ed1 (deleteLines (Z.of_nat i) 1) = Some ed2
    /\ lines ed2 = lines ed.
Proof.
  intros Hi.
  assert (spliceZ (Z.of_nat i) 0 [s] (lines ed)
          = take i (lines ed) ++ s :: drop i (lines ed)) as H1.
  { unfold spliceZ.
    assert ((Z.of_nat i <? 0)%Z = false) as -> by (apply Z.ltb_ge; lia).
    rewrite Z.min_l by lia. rewrite Nat2Z.id.
    replace (Z.to_nat (Z.min (Z.max 0 0) (Z.of_nat (length (lines ed)) - Z.of_nat i)))
      with O by lia.
    unfold splice. now rewrite Nat.add_0_r. }
  eexists. eexists. split; [reflexivity|]. cbn [lines withLines].
  split; [exact H1|]. split; [reflexivity|]. cbn [lines withLines]. rewrite H1.
  unfold spliceZ.
  assert ((Z.of_nat i <? 0)%Z = false) as -> by (apply Z.ltb_ge; lia).
  assert (length (take i (lines ed) ++ s :: drop i (lines ed)) = S (length (lines ed)))
    as Hlen.
  { rewrite length_app, length_take. simpl. rewrite length_drop. lia. }
  rewrite Hlen, Z.min_l by lia. rewrite Nat2Z.id.
  replace (Z.to_nat (Z.min (Z.max 1 0)
                       (Z.of_nat (S (length (lines ed))) - Z.of_nat i)))
    with 1%nat by lia.
  unfold splice. simpl app.
  assert (length (take i (lines ed)) = i) as Ht by (rewrite length_take; lia).
  rewrite take_app_length' by (symmetry; exact Ht).
  replace (i + 1)%nat with (length (take i (lines ed) ++ [s]))
    by (rewrite length_app, Ht; simpl; lia).
  replace (take i (lines ed) ++ s :: drop i (lines ed))
    with ((take i (lines ed) ++ [s]) ++ drop i (lines ed)) by now rewrite <- app_assoc.
  rewrite drop_app_length. apply take_drop.
Qed.

Lemma insert_then_delete_line_witness :
  exists ed1 ed2,
    apiCall (focused (lit "a") 0) (insertLine 1 (lit "b")) = Some ed1
    /\ lines ed1 = [lit "a"; lit "b"]
    /\ apiCall ed1 (deleteLines 1 1) = Some ed2
    /\ lines ed2 = [lit "a"].
Proof.
  destruct (insert_then_delete_line (focused (lit "a") 0) 1 (lit "b"))
    as (ed1 & ed2 & H1 & Hl1 & H2 & Hl2).
  - simpl. lia.
  - exists ed1, ed2. repeat split; assumption.
Defined.

(** ** Paste *)

Section Paste.

Lemma includesLf_app (a b : list N) :
  includesLf (a ++ b) = includesLf a || includesLf b.
Proof. unfold includesLf. apply existsb_app. Qed.

Lemma includesLf_take (n : nat) (l : list N) :
  includesLf l = false -> includesLf (take n l) = false.
Proof.
  intros H. rewrite <- (take_drop n l), includesLf_app in H.
  now apply orb_false_iff in H as [? _].
Qed.

Lemma includesLf_drop (n : nat) (l : list N) :
  includesLf l = false -> includesLf (drop n l) = false.
Proof.
  intros H. rewrite <- (take_drop n l), includesLf_app in H.
  now apply orb_false_iff in H as [_ ?].
Qed.

Lemma splitLines_prepend (a s : list N) :
  includesLf a = false ->
  splitLines (a ++ s)
  = match splitLines s with
    | hd :: tl => (a ++ hd) :: tl
    | [] => [a]
    end.
Proof.
  unfold includesLf. induction a as [|c a IH]; intros Ha.
  - simpl. pose proof (splitLines_nonempty s). now destruct (splitLines s).
  - cbn [existsb] in Ha. apply orb_false_iff in Ha as [Hc Ha].
    rewrite N.eqb_sym in Hc. simpl app. rewrite splitLines_cons, Hc, (IH Ha).
    destruct (splitLines s); reflexivity.
Qed.

Lemma splitLines_append (s b : list N) :
  includesLf b = false ->
  splitLines (s ++ b)
  = take (length (splitLines s) - 1) (splitLines s)
      ++ [nth (length (splitLines s) - 1) (splitLines s) [] ++ b].
Proof.
  intros Hb. induction s as [|c t IH].
  - simpl. now apply splitLines_single.
  - simpl app. rewrite !splitLines_cons, IH.
    destruct (splitLines t) as [|l ls] eqn:Et; [now destruct (splitLines_nonempty t)|].
    replace (length (l :: ls) - 1)%nat with (length ls) by (simpl; lia).
    destruct (c =? 10).
    + replace (length ([] :: l :: ls) - 1)%nat with (S (length ls)) by (simpl; lia).
      reflexivity.
    + replace (length ((c :: l) :: ls) - 1)%nat with (length ls) by (simpl; lia).
      destruct ls as [|m ls]; reflexivity.
Qed.

Lemma crlfToLf_keeps_lf (t : list N) : includesLf (crlfToLf t) = includesLf t.
Proof.
  unfold includesLf.
  induction t as [|c|c d t IH1 IH2] using pairs_ind; try reflexivity.
  change (crlfToLf (c :: d :: t))
    with (if (c =? 13) && (d =? 10) then 10 :: crlfToLf t else c :: crlfToLf (d :: t)).
  destruct ((c =? 13) && (d =? 10)) eqn:E.
  - apply andb_true_iff in E as [Ec Ed]. apply N.eqb_eq in Ec, Ed. subst c d.
    reflexivity.
  - cbn [existsb] in *. now rewrite IH2.
Qed.

Lemma splitLines_two (s : list N) :
  includesLf s = true -> (2 <= length (splitLines s))%nat.
Proof.
  unfold includesLf. induction s as [|c t IH]; [discriminate|].
  cbn [existsb]. rewrite splitLines_cons, N.eqb_sym.
  pose proof (splitLines_nonempty t) as Hne.
  destruct (c =? 10).
  - intros _. destruct (splitLines t); simpl; [congruence | lia].
  - simpl. intros H. specialize (IH H).
    destruct (splitLines t) as [|l ls]; simpl in *; lia.
Qed.

End Paste.

(** X20: with line splitting on and no multi-line selection, pasting a
    text that holds a line feed into a line that holds none replaces that
    line by the lines of: the text before the caret, the clipboard text
    with CR LF turned into LF, the text after the caret.  The last of the
    pasted lines is active and the pending caret is the length of the
    last pasted segment; no other line changes. *)
Theorem paste_resplits_the_line
    (opts : Options) (ed : Editor) (selection text line : str) (c idx : nat) :
  pasteSplitLines opts <> Some false ->
  includesLf selection = false ->
  includesLf text = true ->
  lines ed !! idx = Some line ->
  includesLf line = false ->
  let pasted := splitLines (crlfToLf text) in
  exists ed',
    handlePaste opts ed selection text c idx = Some ed'
    /\ lines ed'
       = take idx (lines ed)
           ++ splitLines (take c line ++ crlfToLf text ++ drop c line)
           ++ drop (S idx) (lines ed)
    /\ length (lines ed') = (length (lines ed) + length pasted - 1)%nat
    /\ activeLineIndex ed' = Some (idx + length pasted - 1)%nat
    /\ cursorPosition ed' = Some (length (nth (length pasted - 1) pasted [])).
Proof.
  intros Hopt Hsel Htext Hline Hlf pasted.
  destruct (lookup_split _ _ _ Hline) as [Hs Hl].
  assert (2 <= length pasted)%nat as Hlen.
  { apply splitLines_two. now rewrite crlfToLf_keeps_lf. }
  assert (splitLines (take c line ++ crlfToLf text ++ drop c line)
          = (take c line ++ nth 0 pasted [])
              :: take (length pasted - 2) (drop 1 pasted)
              ++ [nth (length pasted - 1) pasted [] ++ drop c line]) as Hsplit.
  { rewrite splitLines_prepend by now apply includesLf_take.
    rewrite splitLines_append by now apply includesLf_drop.
    fold pasted. destruct pasted as [|p0 [|p1 rest]]; simpl in Hlen; try lia.
    replace (length (p0 :: p1 :: rest) - 1)%nat with (S (length rest)) by (simpl; lia).
    replace (length (p0 :: p1 :: rest) - 2)%nat with (length rest) by (simpl; lia).
    reflexivity. }
  unfold handlePaste. rewrite Hsel, Htext.
  assert (default true (pasteSplitLines opts) = true) as ->.
  { destruct (pasteSplitLines opts) as [[|]|]; try reflexivity. contradiction. }
  cbn [negb orb]. rewrite Hline. cbn [mbind option_bind]. fold pasted.
  assert ((1 <? length pasted)%nat = true) as -> by (apply Nat.ltb_lt; lia).
  unfold sliceTo, sliceFrom.
  eexists. split; [reflexivity|]. cbn [lines activeLineIndex cursorPosition edited].
  rewrite Hsplit.
  assert (splice (idx + 1) 0
            (take (length pasted - 2) (drop 1 pasted)
               ++ [nth (length pasted - 1) pasted [] ++ drop c line])
            (<[idx := take c line ++ nth 0 pasted []]> (lines ed))
          = take idx (lines ed)
              ++ ((take c line ++ nth 0 pasted [])
                    :: take (length pasted - 2) (drop 1 pasted)
                    ++ [nth (length pasted - 1) pasted [] ++ drop c line])
              ++ drop (S idx) (lines ed)) as Hnext.
  { rewrite Hs at 1. rewrite <- Hl at 1 2.
    rewrite insert_middle, splice_insert_after. simpl. now rewrite <- app_assoc. }
  rewrite Hnext. repeat split.
  apply lookup_lt_Some in Hline.
  rewrite !length_app, Hl. cbn [length]. rewrite length_app, length_take, !length_drop.
  cbn [length]. lia.
Qed.

Lemma paste_resplits_the_line_witness :
  exists ed',
    handlePaste defaultOptions (focused (lit "ab") 1) []
      (lit "x" ++ [13; 10] ++ lit "y") 1 0 = Some ed'
    /\ lines ed' = [lit "ax"; lit "yb"].
Proof.
  destruct (paste_resplits_the_line defaultOptions (focused (lit "ab") 1) []
              (lit "x" ++ [13; 10] ++ lit "y") (lit "ab") 1 0)
    as (ed' & H & Hl & _); try reflexivity; try discriminate.
  exists ed'. split; [exact H | exact Hl].
Defined.

(** ** Deleting a selection *)

Lemma guard_keeps (next : list (list N)) :
  next <> [] -> (if (length next =? 0)%nat then [[]] else next) = next.
Proof. destruct next; [congruence | reflexivity]. Qed.

Lemma splice_one_nonempty (start n : nat) (x : list N) (a : list (list N)) :
  splice start n [x] a <> [].
Proof. unfold splice. destruct (take start a); discriminate. Qed.

(** X21: deleting a selection does not depend on the direction it was
    dragged in: anchor and focus may be swapped. *)
Theorem selection_direction_is_irrelevant
    (ed : Editor) (aIdx aOff fIdx fOff : nat) :
  deleteCurrentSelection ed aIdx aOff fIdx fOff
  = deleteCurrentSelection ed fIdx fOff aIdx aOff.
Proof.
  unfold deleteCurrentSelection. cbv zeta.
  destruct (Nat.lt_trichotomy aIdx fIdx) as [H|[H|H]].
  - assert ((fIdx <? aIdx)%nat = false) as -> by (apply Nat.ltb_ge; lia).
    assert ((aIdx =? fIdx)%nat = false) as -> by (apply Nat.eqb_neq; lia).
    assert ((aIdx <? fIdx)%nat = true) as -> by (apply Nat.ltb_lt; lia).
    reflexivity.
  - subst fIdx. rewrite (Nat.ltb_irrefl aIdx), (Nat.eqb_refl aIdx). cbn [orb andb].
    destruct (Nat.lt_trichotomy aOff fOff) as [H|[H|H]].
    + assert ((fOff <? aOff)%nat = false) as -> by (apply Nat.ltb_ge; lia).
      assert ((aOff <? fOff)%nat = true) as -> by (apply Nat.ltb_lt; lia).
      reflexivity.
    + subst fOff. reflexivity.
    + assert ((fOff <? aOff)%nat = true) as -> by (apply Nat.ltb_lt; lia).
      assert ((aOff <? fOff)%nat = false) as -> by (apply Nat.ltb_ge; lia).
      reflexivity.
  - assert ((fIdx <? aIdx)%nat = true) as -> by (apply Nat.ltb_lt; lia).
    assert ((fIdx =? aIdx)%nat = false) as -> by (apply Nat.eqb_neq; lia).
    assert ((aIdx <? fIdx)%nat = false) as -> by (apply Nat.ltb_ge; lia).
    reflexivity.
Qed.

(** X22: deleting a selection that runs from line s to a later line e
    replaces the lines s to e by one line: the start line up to the start
    cut followed by the end line from the end cut on.  The lines before s
    and after e are untouched, the document is e - s lines shorter, line s
    is active.  When the selection covers all that is shown of both lines
    the one line left is empty. *)
Theorem delete_across_lines
    (ed : Editor) (s sd e edisp : nat) (sl el : str) :
  (s < e)%nat ->
  lines ed !! s = Some sl ->
  lines ed !! e = Some el ->
  let sc := if (sd =? 0)%nat then O else mapDisplayOffsetToSourceIndex sl sd in
  let ec := if (edisp =? getDisplayContentLength el)%nat then length el
            else mapDisplayOffsetToSourceIndex el edisp in
  exists ed',
    deleteCurrentSelection ed s sd e edisp = Some ed'
    /\ lines ed' = take s (lines ed) ++ (take sc sl ++ drop ec el) :: drop (S e) (lines ed)
    /\ (length (lines ed') + (e - s) = length (lines ed))%nat
    /\ activeLineIndex ed' = Some s
    /\ cursorPosition ed' = Some (mapDisplayOffsetToSourceIndex sl sd)
    /\ (sd = O -> edisp = getDisplayContentLength el ->
        lines ed' = take s (lines ed) ++ [] :: drop (S e) (lines ed)).
Proof.
  intros Hse Hs He sc ec.
  pose proof (lookup_lt_Some _ _ _ Hs) as Hls.
  pose proof (lookup_lt_Some _ _ _ He) as Hle.
  unfold deleteCurrentSelection. cbv zeta.
  assert ((e <? s)%nat = false) as -> by (apply Nat.ltb_ge; lia).
  assert ((s =? e)%nat = false) as Hne by (apply Nat.eqb_neq; lia).
  rewrite Hne. cbn [orb andb]. rewrite Hs, He. cbn [mbind option_bind].
  rewrite Hne.
  rewrite guard_keeps by apply splice_one_nonempty.
  eexists. split; [reflexivity|]. cbn [lines activeLineIndex cursorPosition edited].
  assert (splice s (e - s + 1)
            [sliceTo sc sl ++ sliceFrom ec el] (lines ed)
          = take s (lines ed) ++ (take sc sl ++ drop ec el) :: drop (S e) (lines ed))
    as Hnext.
  { unfold splice, sliceTo, sliceFrom. simpl app. do 3 f_equal. lia. }
  split; [exact Hnext|].
  split.
  { change (length (splice s (e - s + 1) [sliceTo sc sl ++ sliceFrom ec el] (lines ed))
            + (e - s) = length (lines ed))%nat.
    rewrite Hnext, length_app, length_take. cbn [length]. rewrite length_drop. lia. }
  split; [f_equal; lia|]. split; [reflexivity|].
  intros Hsd Hed.
  change (splice s (e - s + 1) [sliceTo sc sl ++ sliceFrom ec el] (lines ed)
          = take s (lines ed) ++ [] :: drop (S e) (lines ed)).
  rewrite Hnext. subst sc ec. rewrite Hsd, Hed, !Nat.eqb_refl.
  now rewrite take_0, drop_all.
Qed.

Lemma delete_across_lines_witness :
  exists ed',
    deleteCurrentSelection
      {| lines := [lit "# A"; lit "- b"; lit "end tail"; lit "rest"];
         activeLineIndex := None; cursorPosition := None; isDirty := false;
         isSelecting := false |} 0 0 2 8 = Some ed'
    /\ lines ed' = [[]; lit "rest"].
Proof.
  destruct (delete_across_lines
              {| lines := [lit "# A"; lit "- b"; lit "end tail"; lit "rest"];
                 activeLineIndex := None; cursorPosition := None; isDirty := false;
                 isSelecting := false |} 0 0 2 8 (lit "# A") (lit "end tail"))
    as (ed' & H & _ & _ & _ & _ & Hall); try reflexivity; [lia|].
  exists ed'. split; [exact H|]. apply Hall; reflexivity.
Defined.

(** X23: deleting a selection that covers all that is shown of one line
    removes the line; when it was the only line, one empty line is left.
    No other line changes. *)
Theorem delete_whole_line (ed : Editor) (i : nat) (l : str) :
  lines ed !! i = Some l ->
  exists ed',
    deleteCurrentSelection ed i 0 i (getDisplayContentLength l) = Some ed'
    /\ lines ed'
       = (if (length (lines ed) =? 1)%nat then [[]]
          else take i (lines ed) ++ drop (S i) (lines ed))
    /\ (1 <= length (lines ed'))%nat.
Proof.
  intros Hl. pose proof (lookup_lt_Some _ _ _ Hl) as Hlt.
  assert (splice i 1 [] (lines ed) = take i (lines ed) ++ drop (S i) (lines ed)) as Hnext.
  { unfold splice. simpl app. do 2 f_equal. lia. }
  assert (length (take i (lines ed) ++ drop (S i) (lines ed)) = length (lines ed) - 1)%nat
    as Hlen by (rewrite length_app, length_take, length_drop; lia).
  assert (deleteCurrentSelection ed i 0 i (getDisplayContentLength l)
          = Some (edited ed
                    (if (length (splice i 1 [] (lines ed)) =? 0)%nat then [[]]
                     else splice i 1 [] (lines ed))
                    (mapDisplayOffsetToSourceIndex l 0)
                    (Nat.min i (length (lines ed) - 1)))) as H.
  { unfold deleteCurrentSelection. cbv zeta.
    rewrite (Nat.ltb_irrefl i), (Nat.eqb_refl i). cbn [orb andb Nat.ltb Nat.leb].
    rewrite Hl. cbn [mbind option_bind].
    rewrite (Nat.eqb_refl i), (Nat.eqb_refl (getDisplayContentLength l)).
    reflexivity. }
  eexists. split; [exact H|]. cbn [lines edited]. rewrite Hnext, Hlen.
  destruct (length (lines ed) =? 1)%nat eqn:E.
  - apply Nat.eqb_eq in E. rewrite E. simpl. split; [reflexivity | lia].
  - apply Nat.eqb_neq in E.
    assert ((length (lines ed) - 1 =? 0)%nat = false) as -> by (apply Nat.eqb_neq; lia).
    split; [reflexivity | lia].
Qed.

Lemma delete_whole_line_witness :
  exists ed',
    deleteCurrentSelection (focused (lit "- **x**") 0) 0 0 0 1 = Some ed'
    /\ lines ed' = [[]].
Proof.
  destruct (delete_whole_line (focused (lit "- **x**") 0) 0 (lit "- **x**"))
    as (ed' & H & Hl & _); [reflexivity|].
  exists ed'. split; [exact H | exact Hl].
Defined.

(** X24: deleting a selection inside one line, from display offset sd to
    a later display offset, that does not cover all that is shown, cuts
    out the code units between the two cuts and nothing else: the cuts
    are in order and inside the line, so the line gets shorter by their
    distance and the document keeps its length. *)
Theorem delete_inside_line (ed : Editor) (i sd edisp : nat) (l : str) :
  lines ed !! i = Some l ->
  (sd <= edisp)%nat ->
  ~ (sd = O /\ edisp = getDisplayContentLength l) ->
  let sc := if (sd =? 0)%nat then O else mapDisplayOffsetToSourceIndex l sd in
  let ec := if (edisp =? getDisplayContentLength l)%nat then length l
            else mapDisplayOffsetToSourceIndex l edisp in
  exists ed',
    deleteCurrentSelection ed i sd i edisp = Some ed'
    /\ lines ed' = <[i := take sc l ++ drop ec l]> (lines ed)
    /\ (sc <= ec <= length l)%nat
    /\ (length (take sc l ++ drop ec l) + (ec - sc) = length l)%nat
    /\ length (lines ed') = length (lines ed).
Proof.
  intros Hl Hd Hnot sc ec. pose proof (lookup_lt_Some _ _ _ Hl) as Hlt.
  assert (sc <= ec <= length l)%nat as Hcuts.
  { subst sc ec. pose proof (mapped_index_bounds l sd).
    pose proof (mapped_index_bounds l edisp).
    pose proof (mapped_index_order l sd edisp Hd).
    destruct (sd =? 0)%nat, (edisp =? getDisplayContentLength l)%nat; lia. }
  assert ((sd =? 0)%nat && (edisp =? getDisplayContentLength l)%nat = false) as Hpart.
  { destruct (sd =? 0)%nat eqn:E1, (edisp =? getDisplayContentLength l)%nat eqn:E2;
      try reflexivity.
    apply Nat.eqb_eq in E1, E2. exfalso. apply Hnot. now split. }
  assert (deleteCurrentSelection ed i sd i edisp
          = Some (edited ed (<[i := take sc l ++ drop ec l]> (lines ed))
                    (mapDisplayOffsetToSourceIndex l sd)
                    (Nat.min i (length (lines ed) - 1)))) as H.
  { unfold deleteCurrentSelection. cbv zeta.
    rewrite (Nat.ltb_irrefl i), (Nat.eqb_refl i).
    assert ((edisp <? sd)%nat = false) as -> by (apply Nat.ltb_ge; lia).
    cbn [orb andb]. rewrite Hl. cbn [mbind option_bind].
    rewrite (Nat.eqb_refl i), Hpart.
    rewrite guard_keeps; [reflexivity|].
    intros Hnil. apply (f_equal (@length (list N))) in Hnil.
    rewrite length_insert in Hnil. simpl in Hnil. lia. }
  eexists. split; [exact H|]. cbn [lines edited].
  split; [reflexivity|]. split; [exact Hcuts|].
  split; [rewrite length_app, length_take, length_drop; lia | apply length_insert].
Qed.

Lemma delete_inside_line_witness :
  exists ed',
    deleteCurrentSelection (focused (lit "- a**bc**d") 0) 0 1 0 3 = Some ed'
    /\ lines ed' = [lit "- a**d"].
Proof.
  destruct (delete_inside_line (focused (lit "- a**bc**d") 0) 0 1 3 (lit "- a**bc**d"))
    as (ed' & H & Hl & _); try reflexivity.
  - lia.
  - intros [H _]. discriminate.
  - exists ed'. split; [exact H | exact Hl].
Defined.

(** ** Bold text *)

Lemma removeStars_plain (c : N) (s : list N) :
  notStar c = true -> removeStars (c :: s) = c :: removeStars s.
Proof.
  intros Hc. unfold notStar, isChar in Hc. apply negb_true_iff in Hc.
  change (N_of_ascii "*") with 42 in Hc.
  destruct s as [|d t]; [reflexivity|].
  change (removeStars (c :: d :: t))
    with (if (c =? 42) && (d =? 42) then removeStars t else c :: removeStars (d :: t)).
  now rewrite Hc.
Qed.

Lemma removeStars_plain_prefix (a s : list N) :
  starFree a -> removeStars (a ++ s) = a ++ removeStars s.
Proof.
  unfold starFree. induction a as [|c a IH]; [reflexivity|].
  cbn [forallb]. intros H. apply andb_true_iff in H as [Hc Ha].
  change ((c :: a) ++ s) with (c :: (a ++ s)).
  rewrite (removeStars_plain c _ Hc), (IH Ha). reflexivity.
Qed.

Lemma removeStars_pair (s : list N) : removeStars (lit "**" ++ s) = removeStars s.
Proof. reflexivity. Qed.

Lemma notStar_not_star (x : N) : notStar x = true -> isChar "*" x = false.
Proof. unfold notStar. now intros H%negb_true_iff. Qed.

Lemma bold_needs_star (c : N) (t : list N) :
  notStar c = true -> exec reBold (c :: t) = None.
Proof.
  intros Hc. unfold reBold. rewrite exec_one_cons.
  now rewrite (notStar_not_star c Hc).
Qed.

Lemma splitBold_eq (s : list N) (skip : nat) (cur : list N) :
  splitBold s skip cur =
  match s with
  | [] => [cur]
  | c :: t =>
      match skip with
      | S k => splitBold t k cur
      | O =>
          match exec reBold s with
          | Some m => cur :: whole m :: splitBold t (length (whole m) - 1) []
          | None => splitBold t 0 (cur ++ [c])
          end
      end
  end.
Proof. destruct s; reflexivity. Qed.

(** Splitting loses nothing: the pieces, put together, are the text. *)
Lemma split_lossless (s : list N) : forall skip cur,
  concat (splitBold s skip cur) = cur ++ drop skip s.
Proof.
  induction s as [|c t IH]; intros skip cur.
  - rewrite splitBold_eq. cbn [concat]. now rewrite drop_nil, app_nil_r.
  - rewrite splitBold_eq. destruct skip as [|k].
    + destruct (exec reBold (c :: t)) as [m|] eqn:E.
      * cbn [concat]. rewrite IH. cbn [app].
        pose proof (exec_prefix _ _ _ E) as Hp.
        destruct (exec_sound _ _ _ E) as [Hf _].
        assert (1 <= length (whole m))%nat as Hlen.
        { unfold reBold in Hf. inversion Hf as [|a g ? gs Hg _]; subst.
          destruct Hg as (_ & Hl & _). cbn [lo one] in Hl.
          unfold whole. cbn [concat]. rewrite length_app. lia. }
        change (drop 0 (c :: t)) with (c :: t).
        assert (drop (length (whole m) - 1) t = drop (length (whole m)) (c :: t)) as ->.
        { destruct (length (whole m)) as [|k]; [lia|].
          cbn [drop]. now rewrite Nat.sub_succ, Nat.sub_0_r. }
        cbn [app]. rewrite <- Hp. reflexivity.
      * rewrite IH. now rewrite <- app_assoc.
    + rewrite IH. reflexivity.
Qed.

Lemma split_plain (s : list N) :
  starFree s -> forall cur, splitBold s 0 cur = [cur ++ s].
Proof.
  unfold starFree. induction s as [|c t IH]; intros H cur.
  - rewrite splitBold_eq. now rewrite app_nil_r.
  - cbn [forallb] in H. apply andb_true_iff in H as [Hc Ht].
    rewrite splitBold_eq, (bold_needs_star c t Hc), (IH Ht).
    now rewrite <- app_assoc.
Qed.

Lemma split_plain_prefix (a s : list N) :
  starFree a -> forall cur, splitBold (a ++ s) 0 cur = splitBold s 0 (cur ++ a).
Proof.
  unfold starFree. induction a as [|c a IH]; intros H cur.
  - now rewrite app_nil_r.
  - cbn [forallb] in H. apply andb_true_iff in H as [Hc Ha].
    change ((c :: a) ++ s) with (c :: (a ++ s)).
    rewrite splitBold_eq, (bold_needs_star c _ Hc), (IH Ha).
    now rewrite <- app_assoc.
Qed.

Lemma split_skip (x s cur : list N) :
  splitBold (x ++ s) (length x) cur = splitBold s 0 cur.
Proof.
  induction x as [|c x IH]; [reflexivity|].
  change ((c :: x) ++ s) with (c :: (x ++ s)).
  rewrite splitBold_eq. exact IH.
Qed.

Lemma run_then_star (b r : list N) :
  starFree b ->
  takeWhile notStar (b ++ 42 :: r) = b /\ dropWhile notStar (b ++ 42 :: r) = 42 :: r.
Proof.
  intros Hb. split.
  - rewrite (takeWhile_app_all notStar b _ Hb).
    change (takeWhile notStar (42 :: r)) with (@nil N). apply app_nil_r.
  - now rewrite (dropWhile_app_all notStar b _ Hb).
Qed.

Lemma exec_bold_run (b r : list N) :
  starFree b -> b <> [] ->
  exec reBold (lit "**" ++ b ++ lit "**" ++ r) = Some [[42]; [42]; b; [42]; [42]].
Proof.
  intros Hb Hne. unfold reBold.
  change (lit "**" ++ b ++ lit "**" ++ r) with (42 :: 42 :: b ++ 42 :: 42 :: r).
  rewrite exec_one_cons. change (isChar "*" 42) with true. cbv iota.
  rewrite exec_one_cons. change (isChar "*" 42) with true. cbv iota.
  rewrite exec_greedy;
    [| reflexivity | cbn; lia | intros x Hx; now apply notStar_not_star].
  change (cls (plus notStar)) with notStar. change (lo (plus notStar)) with 1%nat.
  destruct (run_then_star b (42 :: r) Hb) as [-> ->].
  assert ((length b <? 1)%nat = false) as ->.
  { apply Nat.ltb_ge. destruct b; [congruence | simpl; lia]. }
  rewrite exec_one_cons. change (isChar "*" 42) with true. cbv iota.
  rewrite exec_one_cons. change (isChar "*" 42) with true. cbv iota.
  reflexivity.
Qed.

Lemma split_bold_run (b r cur : list N) :
  starFree b -> b <> [] ->
  splitBold (lit "**" ++ b ++ lit "**" ++ r) 0 cur
  = cur :: (lit "**" ++ b ++ lit "**") :: splitBold r 0 [].
Proof.
  intros Hb Hne. pose proof (exec_bold_run b r Hb Hne) as E.
  rewrite splitBold_eq.
  change (lit "**" ++ b ++ lit "**" ++ r) with (42 :: 42 :: b ++ 42 :: 42 :: r) in *.
  rewrite E.
  assert (whole [[42]; [42]; b; [42]; [42]] = lit "**" ++ b ++ lit "**") as ->.
  { reflexivity. }
  f_equal. f_equal.
  assert (42 :: b ++ 42 :: 42 :: r = (42 :: b ++ lit "**") ++ r) as ->.
  { cbn [app]. now rewrite <- app_assoc. }
  replace (length (lit "**" ++ b ++ lit "**") - 1)%nat
    with (length (42 :: b ++ lit "**")) by (simpl; lia).
  apply split_skip.
Qed.

Lemma emphasised_cons (first b a : list N) (rs : list (list N * list N)) :
  emphasised first ((b, a) :: rs)
  = first ++ lit "**" ++ b ++ lit "**" ++ emphasised a rs.
Proof.
  unfold emphasised. cbn [List.map concat fst snd].
  now rewrite <- !app_assoc.
Qed.

Lemma split_emphasised (runs : list (list N * list N)) : forall first cur,
  wellPaired first runs ->
  splitBold (emphasised first runs) 0 cur
  = (cur ++ first)
      :: flat_map (fun r => [lit "**" ++ fst r ++ lit "**"; snd r]) runs.
Proof.
  induction runs as [|[b a] rs IH]; intros first cur [Hf Hr].
  - unfold emphasised. cbn [List.map concat flat_map]. rewrite app_nil_r.
    now apply split_plain.
  - inversion Hr as [|? ? (Hb & Hne & Ha) Hrs]; subst. cbn [fst snd] in *.
    rewrite emphasised_cons, (split_plain_prefix first _ Hf).
    rewrite (split_bold_run b _ _ Hb Hne).
    rewrite (IH a [] (conj Ha Hrs)). reflexivity.
Qed.

Lemma plain_has_no_marker (a : list N) :
  starFree a -> startsWith (lit "**") a = false.
Proof.
  unfold starFree. destruct a as [|c a]; [reflexivity|].
  cbn [forallb]. intros H. apply andb_true_iff in H as [Hc _].
  apply notStar_not_star in Hc. unfold isChar in Hc.
  change (N_of_ascii "*") with 42 in Hc.
  change (startsWith (lit "**") (c :: a)) with ((42 =? c) && startsWith [42] a).
  now rewrite N.eqb_sym, Hc.
Qed.

Lemma marked_run (b : list N) :
  startsWith (lit "**") (lit "**" ++ b ++ lit "**")
  && endsWith (lit "**") (lit "**" ++ b ++ lit "**") = true
  /\ sliceInner (lit "**" ++ b ++ lit "**") = b.
Proof.
  split.
  - unfold endsWith. rewrite !rev_app_distr. reflexivity.
  - unfold sliceInner.
    replace (length (lit "**" ++ b ++ lit "**") - 4)%nat with (length b)
      by (rewrite !length_app; simpl; lia).
    change (drop 2 (lit "**" ++ b ++ lit "**")) with (b ++ lit "**").
    now rewrite take_app_length.
Qed.

Lemma parse_emphasised (first : list N) (runs : list (list N * list N)) :
  wellPaired first runs ->
  parseBold (emphasised first runs) = piecesOf first runs.
Proof.
  intros H. unfold parseBold, piecesOf.
  rewrite (split_emphasised runs first [] H). cbn [app List.map].
  destruct H as [Hf Hr]. rewrite (plain_has_no_marker first Hf). cbn [andb].
  f_equal. induction Hr as [|[b a] rs (Hb & Hne & Ha) Hrs IH]; [reflexivity|].
  cbn [flat_map fst snd app List.map]. cbn [fst snd] in *.
  destruct (marked_run b) as [-> ->].
  rewrite (plain_has_no_marker a Ha). cbn [andb]. now rewrite IH.
Qed.

Lemma text_of_pieces (first : list N) (runs : list (list N * list N)) :
  textContent (piecesOf first runs)
  = first ++ concat (List.map (fun r => fst r ++ snd r) runs).
Proof.
  unfold textContent, piecesOf. cbn [List.map concat]. f_equal.
  induction runs as [|[b a] rs IH]; [reflexivity|].
  cbn [flat_map fst snd app List.map concat]. now rewrite IH, <- app_assoc.
Qed.

Lemma removeStars_emphasised (runs : list (list N * list N)) : forall first,
  wellPaired first runs ->
  removeStars (emphasised first runs)
  = first ++ concat (List.map (fun r => fst r ++ snd r) runs).
Proof.
  induction runs as [|[b a] rs IH]; intros first [Hf Hr].
  - unfold emphasised. cbn [List.map concat]. rewrite !app_nil_r.
    rewrite <- (app_nil_r first) at 1.
    rewrite (removeStars_plain_prefix first [] Hf). apply app_nil_r.
  - inversion Hr as [|? ? (Hb & Hne & Ha) Hrs]; subst. cbn [fst snd] in *.
    rewrite emphasised_cons, (removeStars_plain_prefix first _ Hf).
    rewrite removeStars_pair, (removeStars_plain_prefix b _ Hb).
    rewrite removeStars_pair, (IH a (conj Ha Hrs)).
    cbn [List.map concat fst snd]. now rewrite <- app_assoc.
Qed.

(** X25.  Text whose pairs of stars enclose non-empty runs without a
    star is rendered piece by piece: the text before the first pair as
    plain text, every enclosed run as a strong element without its stars,
    the text after it as plain text; the text content of the result is the
    text with its pairs of stars removed. *)
Theorem paired_stars_render_strong (first : list N) (runs : list (list N * list N)) :
  wellPaired first runs ->
  parseBold (emphasised first runs) = piecesOf first runs
  /\ textContent (parseBold (emphasised first runs))
     = removeStars (emphasised first runs).
Proof.
  intros H. split; [now apply parse_emphasised|].
  now rewrite (parse_emphasised first runs H), text_of_pieces,
    (removeStars_emphasised runs first H).
Qed.

Lemma paired_stars_render_strong_witness :
  parseBold (lit "a **b** c**d**")
  = [Plain (lit "a "); Strong (lit "b"); Plain (lit " c"); Strong (lit "d"); Plain []]
  /\ textContent (parseBold (lit "a **b** c**d**")) = lit "a b cd".
Proof.
  apply (paired_stars_render_strong (lit "a ") [(lit "b", lit " c"); (lit "d", [])]).
  split; [reflexivity|].
  repeat constructor; discriminate.
Defined.

Lemma run_whole (q : N -> bool) (s : list N) :
  forallb q s = true -> takeWhile q s = s /\ dropWhile q s = [].
Proof.
  induction s as [|c s IH]; [now split|].
  cbn [forallb takeWhile dropWhile]. intros H.
  apply andb_true_iff in H as [-> Hs]. destruct (IH Hs) as [-> ->]. now split.
Qed.

Lemma exec_bold_unclosed (b : list N) :
  starFree b -> exec reBold (42 :: 42 :: b) = None.
Proof.
  intros Hb. unfold reBold.
  rewrite exec_one_cons. change (isChar "*" 42) with true. cbv iota.
  rewrite exec_one_cons. change (isChar "*" 42) with true. cbv iota.
  rewrite exec_greedy;
    [| reflexivity | cbn; lia | intros x Hx; now apply notStar_not_star].
  change (cls (plus notStar)) with notStar.
  destruct (run_whole notStar b Hb) as [-> ->].
  destruct (length b <? lo (plus notStar))%nat; reflexivity.
Qed.

Lemma exec_bold_single (b : list N) :
  starFree b -> exec reBold (42 :: b) = None.
Proof.
  intros Hb. unfold reBold.
  rewrite exec_one_cons. change (isChar "*" 42) with true. cbv iota.
  destruct b as [|c b]; [reflexivity|].
  unfold starFree in Hb. cbn [forallb] in Hb. apply andb_true_iff in Hb as [Hc _].
  now rewrite exec_one_cons, (notStar_not_star c Hc).
Qed.

Lemma split_unpaired (a b : list N) :
  starFree a -> starFree b ->
  splitBold (a ++ lit "**" ++ b) 0 [] = [a ++ lit "**" ++ b].
Proof.
  intros Ha Hb. rewrite (split_plain_prefix a _ Ha).
  change (lit "**" ++ b) with (42 :: 42 :: b).
  rewrite splitBold_eq, (exec_bold_unclosed b Hb).
  rewrite splitBold_eq, (exec_bold_single b Hb).
  rewrite (split_plain b Hb). cbn [app]. now rewrite <- !app_assoc.
Qed.

Lemma starFree_rev (b : list N) : starFree b -> starFree (rev b).
Proof.
  unfold starFree. rewrite !forallb_forall. intros H x Hx.
  apply H. now apply in_rev.
Qed.

Lemma no_marker_at_plain (c : N) (s : list N) :
  notStar c = true -> startsWith (lit "**") (c :: s) = false.
Proof.
  intros Hc. apply notStar_not_star in Hc. unfold isChar in Hc.
  change (N_of_ascii "*") with 42 in Hc.
  change (startsWith (lit "**") (c :: s)) with ((42 =? c) && startsWith [42] s).
  now rewrite N.eqb_sym, Hc.
Qed.

Lemma unpaired_is_plain (a b : list N) :
  starFree a -> starFree b -> a ++ b <> [] ->
  startsWith (lit "**") (a ++ lit "**" ++ b)
  && endsWith (lit "**") (a ++ lit "**" ++ b) = false.
Proof.
  intros Ha Hb Hne. destruct a as [|c a].
  - apply andb_false_iff. right. unfold endsWith.
    cbn [app] in *. change (42 :: 42 :: b) with (lit "**" ++ b).
    rewrite rev_app_distr.
    pose proof (starFree_rev b Hb) as Hr.
    destruct (rev b) as [|x r] eqn:E.
    + apply (f_equal (@rev N)) in E. rewrite rev_involutive in E. now subst b.
    + unfold starFree in Hr. cbn [forallb] in Hr.
      apply andb_true_iff in Hr as [Hx _].
      change (rev (lit "**")) with (lit "**").
      change ((x :: r) ++ lit "**") with (x :: (r ++ lit "**")).
      now apply no_marker_at_plain.
  - apply andb_false_iff. left.
    unfold starFree in Ha. cbn [forallb] in Ha. apply andb_true_iff in Ha as [Hc _].
    change ((c :: a) ++ lit "**" ++ b) with (c :: (a ++ lit "**" ++ b)).
    now apply no_marker_at_plain.
Qed.

(** X26.  A pair of stars without a partner stays in the rendered text:
    text with one pair of stars and no other star is rendered as one plain
    piece, stars included, while the display length of the editor counts
    the text without them. *)
Theorem unpaired_stars_stay_visible (a b : list N) :
  starFree a -> starFree b -> a ++ b <> [] ->
  parseBold (a ++ lit "**" ++ b) = [Plain (a ++ lit "**" ++ b)]
  /\ removeStars (a ++ lit "**" ++ b) = a ++ b.
Proof.
  intros Ha Hb Hne. split.
  - unfold parseBold. rewrite (split_unpaired a b Ha Hb). cbn [List.map].
    now rewrite (unpaired_is_plain a b Ha Hb Hne).
  - rewrite (removeStars_plain_prefix a _ Ha), removeStars_pair.
    rewrite <- (app_nil_r b) at 1.
    rewrite (removeStars_plain_prefix b [] Hb). cbn [removeStars].
    now rewrite app_nil_r.
Qed.

Lemma unpaired_stars_stay_visible_witness :
  parseBold (lit "2 ** 3") = [Plain (lit "2 ** 3")]
  /\ removeStars (lit "2 ** 3") = lit "2  3".
Proof.
  apply (unpaired_stars_stay_visible (lit "2 ") (lit " 3")); try reflexivity.
  discriminate.
Defined.

Lemma inner_drops_only_stars (part : list N) :
  startsWith (lit "**") part && endsWith (lit "**") part = true ->
  List.filter notStar (sliceInner part) = List.filter notStar part.
Proof.
  intros H. apply andb_true_iff in H as [Hs He].
  destruct part as [|c [|d q]]; try discriminate.
  { simpl in Hs. now rewrite andb_false_r in Hs. }
  change (startsWith (lit "**") (c :: d :: q)) with ((42 =? c) && ((42 =? d) && true)) in Hs.
  apply andb_true_iff in Hs as [Hc Hd]. apply andb_true_iff in Hd as [Hd _].
  apply N.eqb_eq in Hc, Hd. subst c d.
  unfold endsWith in He. change (rev (lit "**")) with (lit "**") in He.
  change (42 :: 42 :: q) with (lit "**" ++ q) in He.
  rewrite rev_app_distr in He. change (rev (lit "**")) with (lit "**") in He.
  unfold sliceInner. cbn [length drop].
  rewrite <- (rev_involutive q). destruct (rev q) as [|x [|y r]].
  - reflexivity.
  - change (startsWith (lit "**") ([x] ++ lit "**")) with ((42 =? x) && true) in He.
    apply andb_true_iff in He as [Hx _]. apply N.eqb_eq in Hx. subst x.
    reflexivity.
  - change (startsWith (lit "**") ((x :: y :: r) ++ lit "**"))
      with ((42 =? x) && ((42 =? y) && true)) in He.
    apply andb_true_iff in He as [Hx Hy]. apply andb_true_iff in Hy as [Hy _].
    apply N.eqb_eq in Hx, Hy. subst x y.
    change (rev (42 :: 42 :: r)) with ((rev r ++ [42]) ++ [42]).
    rewrite <- app_assoc. cbn [app].
    replace (S (S (length (rev r ++ [42%N; 42%N]))) - 4)%nat with (length (rev r))
      by (rewrite length_app; simpl; lia).
    rewrite drop_0, take_app_length.
    change (List.filter notStar (42 :: 42 :: rev r ++ [42; 42]))
      with (List.filter notStar (rev r ++ [42; 42])).
    rewrite List.filter_app. change (List.filter notStar [42; 42]) with (@nil N).
    now rewrite app_nil_r.
Qed.

Lemma pieces_drop_only_stars (parts : list (list N)) :
  List.filter notStar
    (textContent
       (List.map
          (fun part =>
             if startsWith (lit "**") part && endsWith (lit "**") part
             then Strong (sliceInner part)
             else Plain part)
          parts))
  = List.filter notStar (concat parts).
Proof.
  unfold textContent. induction parts as [|part ps IH]; [reflexivity|].
  cbn [List.map concat]. rewrite !List.filter_app, IH. f_equal.
  destruct (startsWith (lit "**") part && endsWith (lit "**") part) eqn:E;
    [now apply inner_drops_only_stars | reflexivity].
Qed.

(** X27.  Rendering never loses, adds or reorders anything but stars:
    for every text, the text content of the rendered pieces and the text
    itself are the same once the stars are taken out of both. *)
Theorem rendering_drops_only_stars (text : list N) :
  List.filter notStar (textContent (parseBold text)) = List.filter notStar text.
Proof.
  unfold parseBold. rewrite pieces_drop_only_stars, split_lossless.
  reflexivity.
Qed.

Lemma exec_hashes_value (lo : nat) (hi : option nat) (n : nat) (c : N) (rest : list N) :
  (1 <= lo)%nat -> (lo <= n)%nat ->
  match hi with Some h => (n <= h)%nat | None => True end ->
  isSpace c = true ->
  exec [Atom (isChar "#") lo hi; one isSpace] (repeat 35 n ++ c :: rest)
  = Some [repeat 35 n; [c]].
Proof.
  intros Hlo Hn Hh Hc.
  rewrite exec_cons. cbv zeta. cbn [cls Regex.lo Regex.hi].
  rewrite (hashes_run n c rest Hc), repeat_length.
  assert (match hi with Some h => Nat.min h n | None => n end = n) as ->.
  { destruct hi; lia. }
  apply Nat.ltb_ge in Hn as Hn'. rewrite Hn'.
  erewrite backoff_hit.
  2:{ replace n with (length (repeat 35 n)) at 1 by apply repeat_length.
      rewrite drop_app_length, exec_one_cons, Hc. reflexivity. }
  f_equal. f_equal.
  replace n with (length (repeat 35 n)) at 1 by apply repeat_length.
  now rewrite take_app_length.
Qed.

(** The renderer strips any run of hashes, the display length one of at
    most four: they strip the same from a line that does not begin with
    five hashes or more and a white space. *)
Lemma hashes_removed_alike (line : list N) :
  (forall n c rest, line = repeat 35 n ++ c :: rest -> isSpace c = true -> (n <= 4)%nat) ->
  remove reHashes line = remove reAnyHeading line.
Proof.
  intros Hfew. unfold reHashes, reAnyHeading, plus, between.
  destruct (exec [Atom (isChar "#") 1 None; one isSpace] line) as [gs|] eqn:E.
  - destruct (proj1 (exec_hashes 1 None line ltac:(lia)) (ex_intro _ gs E))
      as (n & c & rest & Hn & _ & HL & Hc).
    pose proof (Hfew n c rest HL Hc) as H4. subst line.
    unfold remove.
    rewrite (exec_hashes_value 1 None n c rest), (exec_hashes_value 1 (Some 4%nat) n c rest);
      auto; lia.
  - destruct (exec [Atom (isChar "#") 1 (Some 4%nat); one isSpace] line) as [gs|] eqn:E'.
    + destruct (proj1 (exec_hashes 1 (Some 4%nat) line ltac:(lia)) (ex_intro _ gs E'))
        as (n & c & rest & Hn & _ & HL & Hc).
      assert (is_Some (exec [Atom (isChar "#") 1 None; one isSpace] line)) as [? E2].
      { apply (exec_hashes 1 None line); [lia|]. exists n, c, rest. repeat split; auto. }
      congruence.
    + unfold remove. now rewrite E, E'.
Qed.

(** X28.  What is rendered is what display offsets count: for a line
    that is not blank and does not begin with five hashes or more and a
    white space, and whose content after the structural prefixes has its
    pairs of stars around non-empty runs, the text content of the rendered
    line has exactly the display length of the line. *)
Theorem rendered_text_has_display_length
    (line first : list N) (runs : list (list N * list N)) :
  isEmpty (trim line) = false ->
  (forall n c rest, line = repeat 35 n ++ c :: rest -> isSpace c = true -> (n <= 4)%nat) ->
  remove reBq (remove reOl (remove reUl (remove reTask (remove reAnyHeading line))))
    = emphasised first runs ->
  wellPaired first runs ->
  length (textContent (defaultRendered line)) = getDisplayContentLength line.
Proof.
  intros Hblank Hfew Hcontent Hpairs.
  unfold defaultRendered, getDisplayContentLength. rewrite Hblank.
  rewrite (hashes_removed_alike line Hfew), Hcontent.
  now rewrite (parse_emphasised first runs Hpairs), text_of_pieces,
    (removeStars_emphasised runs first Hpairs).
Qed.

Lemma rendered_text_has_display_length_witness :
  length (textContent (defaultRendered (lit "## - a **b** c")))
  = getDisplayContentLength (lit "## - a **b** c").
Proof.
  apply (rendered_text_has_display_length (lit "## - a **b** c")
           (lit "a ") [(lit "b", lit " c")]).
  - reflexivity.
  - intros n c rest H Hc.
    destruct n as [|[|[|[|[|n]]]]]; try lia. discriminate.
  - reflexivity.
  - split; [reflexivity|]. repeat constructor; discriminate.
Defined.

(** ** Lines without line feed *)

Lemma includesLf_rev (s : list N) : includesLf (rev s) = includesLf s.
Proof.
  induction s as [|c s IH]; [reflexivity|].
  cbn [rev]. rewrite includesLf_app, IH. unfold includesLf. cbn [existsb].
  rewrite orb_false_r. apply orb_comm.
Qed.

Lemma includesLf_dropWhile (q : N -> bool) (s : list N) :
  includesLf s = false -> includesLf (dropWhile q s) = false.
Proof.
  intros H. rewrite <- (takeWhile_dropWhile q s), includesLf_app in H.
  now apply orb_false_iff in H as [_ ?].
Qed.

Lemma digitsRev_single (fuel : nat) : forall n, includesLf (digitsRev fuel n) = false.
Proof.
  induction fuel as [|f IH]; intros n; [reflexivity|].
  cbn [digitsRev]. unfold includesLf. cbn [existsb].
  assert ((10 =? 48 + n mod 10) = false) as ->.
  { apply N.eqb_neq. generalize (n mod 10). intros m. lia. }
  destruct (n / 10 =? 0); [reflexivity | apply IH].
Qed.

Lemma dec_single (n : N) : includesLf (dec n) = false.
Proof. unfold dec. rewrite includesLf_rev. apply digitsRev_single. Qed.

Lemma toString_single (x : Number) : includesLf (toString x) = false.
Proof.
  destruct x as [n|]; [|reflexivity]. unfold toString. cbv zeta.
  set (v := shortest _ _ _ _).
  destruct (v <? 10 ^ 21); [apply dec_single|].
  assert (includesLf (stripTrailingZeros (dec v)) = false) as Hs.
  { unfold stripTrailingZeros. rewrite includesLf_rev.
    apply includesLf_dropWhile. rewrite includesLf_rev. apply dec_single. }
  destruct (stripTrailingZeros (dec v)) as [|d [|d' more]]; [apply dec_single| |].
  - change (d :: lit "e+" ++ dec (N.of_nat (length (dec v) - 1)))
      with ([d] ++ lit "e+" ++ dec (N.of_nat (length (dec v) - 1))).
    rewrite !includesLf_app, Hs, dec_single. reflexivity.
  - change (d :: lit "." ++ (d' :: more) ++ lit "e+" ++ dec (N.of_nat (length (dec v) - 1)))
      with ([d] ++ lit "." ++ (d' :: more) ++ lit "e+" ++ dec (N.of_nat (length (dec v) - 1))).
    change (d :: d' :: more) with ([d] ++ (d' :: more)) in Hs.
    rewrite includesLf_app in Hs. apply orb_false_iff in Hs as [Hd Hm].
    rewrite !includesLf_app, Hd, Hm, dec_single. reflexivity.
Qed.

Lemma includesLf_concat (gs : list (list N)) :
  includesLf (concat gs) = false -> Forall (fun g => includesLf g = false) gs.
Proof.
  induction gs as [|g gs IH]; [constructor|].
  cbn [concat]. rewrite includesLf_app. intros H.
  apply orb_false_iff in H as [Hg Hgs]. constructor; auto.
Qed.

Lemma groups_single (re : regex) (s : list N) (gs : list (list N)) :
  exec re s = Some gs -> includesLf s = false ->
  Forall (fun g => includesLf g = false) gs.
Proof.
  intros E Hs. destruct (exec_sound _ _ _ E) as [_ [rest ->]].
  rewrite includesLf_app in Hs. apply orb_false_iff in Hs as [Hs _].
  now apply includesLf_concat.
Qed.

Lemma group_single (i : nat) (gs : list (list N)) :
  Forall (fun g => includesLf g = false) gs -> includesLf (group i gs) = false.
Proof.
  unfold group. generalize (i - 1)%nat. intros k Hgs. revert k.
  induction Hgs as [|g gs Hg _ IH]; intros [|k]; try reflexivity; auto.
  apply IH.
Qed.

(** The indentation and the marker of the next item are made of pieces
    of the line, digits and fixed text: no line feed comes in. *)
Lemma meta_single (line : list N) :
  includesLf line = false ->
  includesLf (indent (getListMeta line)) = false
  /\ includesLf (nextMarker (getListMeta line)) = false.
Proof.
  intros Hl.
  assert (includesLf (match exec reIndent line with
                      | Some m => group 1 m
                      | None => []
                      end) = false) as Hi.
  { destruct (exec reIndent line) as [m|] eqn:E; [|reflexivity].
    apply group_single. now apply (groups_single reIndent line). }
  unfold getListMeta.
  destruct (exec reTask line) as [m|] eqn:Et.
  { pose proof (groups_single _ _ _ Et Hl) as Hg. cbn [indent nextMarker].
    split; [exact Hi|].
    rewrite !includesLf_app, !(group_single _ m Hg). reflexivity. }
  destruct (exec reUl line) as [m|] eqn:Eu.
  { pose proof (groups_single _ _ _ Eu Hl) as Hg. cbn [indent nextMarker].
    split; [exact Hi|].
    rewrite !includesLf_app, !(group_single _ m Hg). reflexivity. }
  destruct (exec reOl line) as [m|] eqn:Eo.
  { pose proof (groups_single _ _ _ Eo Hl) as Hg. cbn [indent nextMarker].
    split; [exact Hi|].
    rewrite !includesLf_app, !(group_single _ m Hg), toString_single. reflexivity. }
  destruct (exec reBq line) as [m|] eqn:Eb.
  { pose proof (groups_single _ _ _ Eb Hl) as Hg. cbn [indent nextMarker].
    split; [exact Hi|].
    rewrite !includesLf_app, !(group_single _ m Hg). reflexivity. }
  cbn [indent nextMarker]. now split.
Qed.

Lemma singleLines_lookup (a : list (list N)) (i : nat) (l : list N) :
  singleLines a -> a !! i = Some l -> includesLf l = false.
Proof.
  unfold singleLines. rewrite Forall_lookup. intros H E. exact (H i l E).
Qed.

Lemma singleLines_insert (a : list (list N)) (i : nat) (l : list N) :
  singleLines a -> includesLf l = false -> singleLines (<[i := l]> a).
Proof.
  unfold singleLines. intros Ha Hl.
  destruct (decide (i < length a)%nat) as [Hi|Hi].
  - now apply Forall_insert.
  - now rewrite list_insert_ge by lia.
Qed.

Lemma singleLines_splice (start n : nat) (items a : list (list N)) :
  singleLines a -> singleLines items -> singleLines (splice start n items a).
Proof.
  unfold singleLines, splice. intros Ha Hi.
  apply Forall_app. split; [now apply Forall_take|].
  apply Forall_app. split; [exact Hi | now apply Forall_drop].
Qed.

Lemma singleLines_one (l : list N) : includesLf l = false -> singleLines [l].
Proof. intros H. now repeat constructor. Qed.

Lemma singleLines_nth (a : list (list N)) (i : nat) :
  singleLines a -> includesLf (nth i a []) = false.
Proof.
  unfold singleLines. intros H. revert i.
  induction H as [|l a Hl _ IH]; intros [|i]; try reflexivity; auto.
  apply IH.
Qed.

Lemma spaces_single (n : nat) : includesLf (spaces n) = false.
Proof. induction n as [|n IH]; [reflexivity | exact IH]. Qed.

Lemma remove_single (re : regex) (l : list N) :
  includesLf l = false -> includesLf (remove re l) = false.
Proof.
  intros H. unfold remove. destruct (exec re l); [|exact H].
  now apply includesLf_drop.
Qed.

Lemma handleKeyDown_single
    (opts : Options) (ed ed' : Editor) (e : KeyEvent) (idx : nat) :
  singleLines (lines ed) -> handleKeyDown opts ed e idx = Some ed' ->
  singleLines (lines ed').
Proof.
  intros Hs. unfold handleKeyDown.
  destruct (isSelecting ed); [now intros [= <-]|].
  destruct (key e) eqn:Ek.
  - unfold onEnter. destruct (lines ed !! idx) as [line|] eqn:El; [|discriminate].
    cbn [mbind option_bind]. cbv zeta.
    pose proof (singleLines_lookup _ _ _ Hs El) as Hl.
    destruct (meta_single line Hl) as [Hi Hn].
    destruct (_ && _ && _).
    + intros [= <-]. cbn [lines edited]. now apply singleLines_insert.
    + intros [= <-]. cbn [lines edited].
      destruct (isSomeB (kind (getListMeta line)) && default true (continueListsOnEnter opts)).
      * apply singleLines_splice.
        -- apply singleLines_insert; [exact Hs | now apply includesLf_take].
        -- apply singleLines_one. unfold sliceFrom. rewrite includesLf_app, Hn.
           now rewrite (includesLf_drop (caret e) line Hl).
      * apply singleLines_splice.
        -- apply singleLines_insert; [exact Hs | now apply includesLf_take].
        -- apply singleLines_one. now apply includesLf_drop.
  - destruct ((caret e =? 0)%nat && (0 <? idx)%nat).
    + unfold onBackspaceMerge.
      destruct (lines ed !! idx) as [text|] eqn:El; [|discriminate].
      cbn [mbind option_bind].
      destruct (lines ed !! (idx - 1)%nat) as [prev|] eqn:Ep; [|discriminate].
      cbn [mbind option_bind]. intros [= <-]. cbn [lines edited].
      apply singleLines_splice; [|constructor].
      apply singleLines_insert; [exact Hs|].
      rewrite includesLf_app, (singleLines_lookup _ _ _ Hs El),
        (singleLines_lookup _ _ _ Hs Ep). reflexivity.
    + destruct (lines ed !! idx) as [line|] eqn:El; [|discriminate].
      cbn [mbind option_bind]. cbv zeta.
      pose proof (singleLines_lookup _ _ _ Hs El) as Hl.
      destruct (_ && _ && _); intros [= <-]; [|exact Hs].
      cbn [lines edited]. apply singleLines_insert; [exact Hs|].
      now apply includesLf_drop.
  - intros [= <-]. now rewrite onArrows_lines.
  - destruct (lines ed !! idx) as [line|] eqn:El; [|discriminate].
    cbn [mbind option_bind]. cbv zeta.
    pose proof (singleLines_lookup _ _ _ Hs El) as Hl.
    destruct (isSomeB (kind (getListMeta line))); intros [= <-]; [|exact Hs].
    unfold onTab. cbv zeta. destruct (shiftKey e); cbn [lines edited].
    + destruct (test _ line); [|exact Hs].
      apply singleLines_insert; [exact Hs | now apply remove_single].
    + apply singleLines_insert; [exact Hs|].
      now rewrite includesLf_app, spaces_single.
  - intros [= <-]. now rewrite onArrows_lines.
  - intros [= <-]. now rewrite onArrows_lines.
  - intros [= <-]. now rewrite onArrows_lines.
Qed.

Lemma singleLines_sub (a : list (list N)) (i j : nat) :
  singleLines a -> singleLines (take i (drop j a)).
Proof. unfold singleLines. intros H. now apply Forall_take, Forall_drop. Qed.

Lemma handlePaste_single
    (opts : Options) (ed ed' : Editor) (selection text : list N) (c idx : nat) :
  singleLines (lines ed) -> handlePaste opts ed selection text c idx = Some ed' ->
  singleLines (lines ed').
Proof.
  intros Hs. unfold handlePaste.
  destruct (includesLf selection); [now intros [= <-]|]. cbv zeta.
  destruct (_ || _); [now intros [= <-]|].
  destruct (lines ed !! idx) as [line|] eqn:El; [|discriminate].
  cbn [mbind option_bind]. intros [= <-]. cbn [lines edited].
  pose proof (singleLines_lookup _ _ _ Hs El) as Hl.
  pose proof (splitLines_are_single (crlfToLf text)) as Hp.
  assert (singleLines
            (<[idx := sliceTo c line ++ nth 0 (splitLines (crlfToLf text)) []]> (lines ed)))
    as Hhead.
  { apply singleLines_insert; [exact Hs|].
    rewrite includesLf_app, (singleLines_nth _ 0 Hp).
    unfold sliceTo. now rewrite (includesLf_take c line Hl). }
  destruct (1 <? _)%nat; [|exact Hhead].
  apply singleLines_splice; [exact Hhead|].
  apply Forall_app. split; [now apply singleLines_sub|].
  apply singleLines_one. rewrite includesLf_app, (singleLines_nth _ _ Hp).
  unfold sliceFrom. now rewrite (includesLf_drop c line Hl).
Qed.

Lemma includesLf_cut (i j : nat) (a b : list N) :
  includesLf a = false -> includesLf b = false ->
  includesLf (sliceTo i a ++ sliceFrom j b) = false.
Proof.
  intros Ha Hb. unfold sliceTo, sliceFrom.
  now rewrite includesLf_app, (includesLf_take i a Ha), (includesLf_drop j b Hb).
Qed.

Lemma deleteCurrentSelection_single
    (ed ed' : Editor) (aIdx aOff fIdx fOff : nat) :
  singleLines (lines ed) -> deleteCurrentSelection ed aIdx aOff fIdx fOff = Some ed' ->
  singleLines (lines ed').
Proof.
  intros Hs. unfold deleteCurrentSelection. cbv zeta.
  generalize ((fIdx <? aIdx)%nat || (aIdx =? fIdx)%nat && (fOff <? aOff)%nat).
  intros swap.
  destruct (lines ed !! (if swap then fIdx else aIdx)) as [sl|] eqn:E1; [|discriminate].
  cbn [mbind option_bind].
  destruct (lines ed !! (if swap then aIdx else fIdx)) as [el|] eqn:E2; [|discriminate].
  cbn [mbind option_bind]. intros [= <-]. cbn [lines edited].
  pose proof (singleLines_lookup _ _ _ Hs E1) as H1.
  pose proof (singleLines_lookup _ _ _ Hs E2) as H2.
  match goal with
  | |- singleLines (if (length ?n =? 0)%nat then _ else _) =>
      assert (singleLines n) as Hn;
      [| destruct (length n =? 0)%nat; [now apply singleLines_one | exact Hn]]
  end.
  match goal with |- singleLines (if ?c then _ else _) => destruct c end.
  - match goal with |- singleLines (if ?c then _ else _) => destruct c end.
    + apply singleLines_splice; [exact Hs | constructor].
    + apply singleLines_insert; [exact Hs | now apply includesLf_cut].
  - apply singleLines_splice; [exact Hs|].
    apply singleLines_one. now apply includesLf_cut.
Qed.

Lemma handleLineChange_shape
    (ed ed' : Editor) (idx : nat) (value payload : list N) :
  includesLf value = false ->
  handleLineChange ed idx value = Some (ed', payload) ->
  (singleLines (lines ed) -> singleLines (lines ed'))
  /\ (lines ed <> [] -> lines ed' <> []).
Proof.
  intros Hv. unfold handleLineChange. cbv zeta.
  destruct (idx <? length (lines ed))%nat eqn:E.
  - intros [= <- _]. cbn [lines]. split.
    + intros Hs. now apply singleLines_insert.
    + rewrite !nonempty_length, length_insert. auto.
  - destruct (idx =? length (lines ed))%nat; [|discriminate].
    intros [= <- _]. cbn [lines]. split.
    + intros Hs. apply Forall_app. split; [exact Hs | now apply singleLines_one].
    + intros _. destruct (lines ed); discriminate.
Qed.

Lemma uiEdit_shape (opts : Options) (ed ed' : Editor) :
  uiEdit opts ed ed' ->
  lines ed <> [] /\ singleLines (lines ed) ->
  lines ed' <> [] /\ singleLines (lines ed').
Proof.
  intros Hstep [Hne Hs].
  destruct Hstep as [e idx H|sel text c idx H|a ao f fo H|idx v pl Hv H|v H|content H].
  - split; [now apply (handleKeyDown_nonempty opts ed ed' e idx)
           | now apply (handleKeyDown_single opts ed ed' e idx)].
  - split; [now apply (handlePaste_nonempty opts ed ed' sel text c idx)
           | now apply (handlePaste_single opts ed ed' sel text c idx)].
  - split; [now apply (deleteCurrentSelection_nonempty ed ed' a ao f fo)
           | now apply (deleteCurrentSelection_single ed ed' a ao f fo)].
  - destruct (handleLineChange_shape ed ed' idx v pl Hv H) as [H1 H2]. auto.
  - subst ed'. cbn [lines syncValue]. split;
      [apply splitLines_nonempty | apply splitLines_are_single].
  - unfold flush in H. destruct (isDirty ed); [|discriminate].
    injection H as <- _. cbn [lines]. now split.
Qed.

Lemma reachable_shape (opts : Options) (value : list N) (ed : Editor) :
  reachable opts value ed -> lines ed <> [] /\ singleLines (lines ed).
Proof.
  induction 1 as [|ed ed' _ IH Hstep].
  - cbn [lines initial]. split; [apply splitLines_nonempty | apply splitLines_are_single].
  - exact (uiEdit_shape opts ed ed' Hstep IH).
Qed.

(** X29.  Keys, pastes, deletions of a selection, changes of a line to
    a text without line feed, a new value and the debounce timer keep
    the document in shape: if it has a line and no line holds a line
    feed, the same is true after the step. *)
Theorem edits_keep_lines_single (opts : Options) (ed ed' : Editor) :
  lines ed <> [] -> singleLines (lines ed) -> uiEdit opts ed ed' ->
  lines ed' <> [] /\ singleLines (lines ed').
Proof.
  intros Hne Hs Hstep. exact (uiEdit_shape opts ed ed' Hstep (conj Hne Hs)).
Qed.

Lemma edits_keep_lines_single_witness :
  exists ed',
    handleKeyDown defaultOptions (focused (lit "9. a") 0)
      {| key := Enter; shiftKey := false; caret := 4 |} 0 = Some ed'
    /\ lines ed' = [lit "9. a"; lit "10. "]
    /\ lines ed' <> [] /\ singleLines (lines ed').
Proof.
  eexists. split; [reflexivity|]. split; [reflexivity|].
  apply (edits_keep_lines_single defaultOptions (focused (lit "9. a") 0)).
  - discriminate.
  - repeat constructor.
  - apply (byKey _ _ _ {| key := Enter; shiftKey := false; caret := 4 |} 0%nat).
    reflexivity.
Defined.

(** X30.  Whatever the user did since the editor was mounted, the
    content handed to [onDebouncedChange] is the document: given back as
    the [value] prop it yields the same lines, and the document is clean
    again. *)
Theorem debounced_content_round_trips
    (opts : Options) (value content : list N) (ed ed' : Editor) :
  reachable opts value ed -> flush ed = Some (ed', content) ->
  content = joinLines (lines ed)
  /\ lines (syncValue content ed') = lines ed
  /\ isDirty (syncValue content ed') = false.
Proof.
  intros Hr Hf. destruct (reachable_shape opts value ed Hr) as [Hne Hs].
  unfold flush in Hf. destruct (isDirty ed); [|discriminate].
  injection Hf as <- <-. split; [reflexivity|].
  cbn [lines syncValue isDirty]. split; [|reflexivity].
  now apply split_join_single.
Qed.

Lemma debounced_content_round_trips_witness :
  exists ed ed' content,
    reachable defaultOptions (lit "- a") ed
    /\ lines ed = [lit "- a"; lit "- "]
    /\ flush ed = Some (ed', content)
    /\ content = lit "- a" ++ 10 :: lit "- "
    /\ lines (syncValue content ed') = lines ed.
Proof.
  pose (e := {| key := Enter; shiftKey := false; caret := 3%nat |}).
  pose (ed := edited (initial (lit "- a")) [lit "- a"; lit "- "] 2 1).
  assert (reachable defaultOptions (lit "- a") ed) as Hr.
  { apply (reach_edit _ _ (initial (lit "- a"))); [constructor|].
    apply (byKey _ _ _ e 0%nat). reflexivity. }
  destruct (debounced_content_round_trips defaultOptions (lit "- a")
              (joinLines (lines ed)) ed
              {| lines := lines ed; activeLineIndex := activeLineIndex ed;
                 cursorPosition := cursorPosition ed; isDirty := false;
                 isSelecting := isSelecting ed |} Hr eq_refl) as (_ & Hl & _).
  exists ed, {| lines := lines ed; activeLineIndex := activeLineIndex ed;
                cursorPosition := cursorPosition ed; isDirty := false;
                isSelecting := isSelecting ed |}, (joinLines (lines ed)).
  split; [exact Hr|]. split; [reflexivity|]. split; [reflexivity|].
  split; [reflexivity | exact Hl].
Defined.
